(** * The host-to-wire converter of the language client (codeConverter)

    A shallow embedding of [createConverter]: the functions that turn the
    editor's in-memory values ([code.*]) into the JSON shapes of the
    language server protocol ([proto.*]).

    Conventions of the embedding:
    - a JavaScript number is a [Z], a string a [string];
    - an optional property ([x?: T]) is an [option T], [None] being
      [undefined]; a value that may also be [null] is a [Nullable T];
    - a truthiness test ([if (x)], [!!x], [a && b]) is written with the
      [truthy_*] functions below;
    - arrays whose identity matters (a command's [arguments], an item's
      [commitCharacters]) are references into a [heap]; arrays that the
      converter rebuilds element by element are [list]s, and are given their
      addresses in [Arrays], where the ownership of arrays is settled;
    - [throw] is the [Throw] outcome. *)

From Stdlib Require Import ZArith String Ascii.
From stdpp Require Import base option list gmap strings.

Local Open Scope string_scope.
Local Open Scope Z_scope.
Local Open Scope list_scope.

(** ** JavaScript values *)

Module Js.

(** [T | undefined | null] *)
Inductive Nullable (A : Type) : Type :=
| undefined : Nullable A
| null : Nullable A
| defined (a : A) : Nullable A.
Arguments undefined {A}.
Arguments null {A}.
Arguments defined {A} a.

(** Truthiness. An optional property holding an object or an array: every
    object is truthy, [undefined] is not. *)
Definition truthy_object {A} (v : option A) : bool :=
  match v with Some _ => true | None => false end.

(** A number is falsy when it is [0] (NaN is not modelled). *)
Definition truthy_number (v : option Z) : bool :=
  match v with Some n => negb (Z.eqb n 0) | None => false end.

(** A string is falsy when it is empty. *)
Definition truthy_string (v : option string) : bool :=
  match v with Some s => negb (String.eqb s "") | None => false end.

Definition truthy_boolean (v : option bool) : bool :=
  match v with Some b => b | None => false end.

(** Numbers.  A JavaScript number is an IEEE double; the model has the
    integers among them, as [Z] (fractions, NaN and the infinities are not
    modelled).  Every integer up to [2^53] in magnitude is a double, the
    safe ones ([Number.isSafeInteger]) being those below it.  [round] is the
    double nearest to an integer, a tie going to the even significand, and
    [number_add] is [+] on integers: the exact sum, rounded. *)
Definition MAX_SAFE_INTEGER : Z := 2 ^ 53 - 1.

Definition isSafeInteger (n : Z) : bool := Z.leb (Z.abs n) MAX_SAFE_INTEGER.

Definition round (z : Z) : Z :=
  let magnitude := Z.abs z in
  if Z.leb magnitude (2 ^ 53) then z
  else
    let unit := 2 ^ (Z.log2 magnitude - 52) in
    let significand := magnitude / unit in
    let rest := magnitude mod unit in
    let significand :=
      if Z.ltb (2 * rest) unit then significand
      else if Z.ltb unit (2 * rest) then significand + 1
      else if Z.even significand then significand
      else significand + 1 in
    Z.sgn z * (significand * unit).

Definition number_add (x y : Z) : Z := round (x + y).

(** The result of a call that may throw. *)
Inductive Outcome (A : Type) : Type :=
| Return (a : A) : Outcome A
| Throw (message : string) : Outcome A.
Arguments Return {A} a.
Arguments Throw {A} message.

(** Values of type [any] that the converter hands on without looking
    inside. An array is a reference into the heap. *)
Definition loc := positive.

Inductive Any : Type :=
| AnyNull
| AnyBoolean (b : bool)
| AnyNumber (n : Z)
| AnyString (s : string)
| AnyArray (l : loc).

(** The store of arrays: each live array has an address and its elements. *)
Abbreviation heap := (gmap loc (list Any)).

(** [[...]] / [new Array]: a new array at an address not yet in use. *)
Definition alloc (h : heap) (elems : list Any) : loc * heap :=
  let l := fresh (dom h) in (l, <[l := elems]> h).

(** [a.slice()]: a new array with the elements of [a]. *)
Definition slice (h : heap) (a : loc) : loc * heap :=
  alloc h (default [] (h !! a)).

(** [a.push(v)], by the owner of [a]. *)
Definition push (h : heap) (a : loc) (v : Any) : heap :=
  match h !! a with
  | Some elems => <[a := elems ++ [v]]> h
  | None => h
  end.

End Js.
Import Js.

(** ** The editor's types ([import * as code from 'vscode']) *)

Module code.

(** [code.Uri]: an object; the converter only ever renders it. *)
Module Uri.
Record t := mk { toString : string }.
End Uri.

Module Position.
Record t := mk { line : Z; character : Z }.
End Position.

Module Range.
Record t := mk { start : Position.t; end_ : Position.t }.
End Range.

Module Location.
Record t := mk { uri : Uri.t; range : Range.t }.
End Location.

Module TextDocument.
(** [getText] holds what [getText()] returns. *)
Record t := mk { uri : Uri.t; languageId : string; version : Z; getText : string }.
End TextDocument.

Module TextDocumentContentChangeEvent.
Record t := mk { range : Range.t; rangeLength : Z; text : string }.
End TextDocumentContentChangeEvent.

Module TextDocumentChangeEvent.
Record t := mk {
  document : TextDocument.t;
  contentChanges : list TextDocumentContentChangeEvent.t }.
End TextDocumentChangeEvent.

(** The numeric enums of the editor API (vscode.d.ts). A value of such a
    type is a number: a newer editor may send numbers this client does not
    know. *)
Module DiagnosticSeverity.
Definition Error : Z := 0.
Definition Warning : Z := 1.
Definition Information : Z := 2.
Definition Hint : Z := 3.
End DiagnosticSeverity.

Module DiagnosticTag.
Definition Unnecessary : Z := 1.
Definition Deprecated : Z := 2.
End DiagnosticTag.

Module DiagnosticRelatedInformation.
Record t := mk { location : Location.t; message : string }.
End DiagnosticRelatedInformation.

Module Diagnostic.
Record t := mk {
  range : Range.t;
  message : string;
  severity : option Z;
  code : option (Z + string);
  tags : option (list Z);
  relatedInformation : option (list DiagnosticRelatedInformation.t);
  source : option string }.
End Diagnostic.

Module TextEdit.
Record t := mk { range : Range.t; newText : string }.
End TextEdit.

Module SnippetString.
Record t := mk { value : string }.
End SnippetString.

Module MarkdownString.
Record t := mk { value : string }.
End MarkdownString.

Module Command.
(** [arguments?: any[]] is a reference to the editor's array. *)
Record t := mk { title : string; command : string; arguments : option loc }.
End Command.

(** [string | SnippetString], told apart by [instanceof]. *)
Inductive InsertText : Type :=
| PlainInsertText (s : string)
| SnippetInsertText (s : SnippetString.t).

(** [string | MarkdownString] *)
Inductive Documentation : Type :=
| StringDocumentation (s : string)
| MarkdownDocumentation (m : MarkdownString.t).

(** What [ProtocolCompletionItem] adds to [code.CompletionItem]
    (protocolCompletionItem.ts); each property is unset until the
    wire-to-host converter assigns it. *)
Module ProtocolCompletionItem.
Record t := mk {
  data : option Any;
  fromEdit : option bool;
  documentationFormat : option string;
  originalItemKind : option Z;
  deprecated : option bool }.
End ProtocolCompletionItem.

Module CompletionItem.
(** [protocolItem] is [Some] exactly when
    [item instanceof ProtocolCompletionItem]. *)
Record t := mk {
  label : string;
  kind : option Z;
  detail : option string;
  documentation : option Documentation;
  sortText : option string;
  filterText : option string;
  preselect : option bool;
  insertText : option InsertText;
  range : option Range.t;
  commitCharacters : option loc;
  additionalTextEdits : option (list TextEdit.t);
  command : option Command.t;
  textEdit : option TextEdit.t;
  protocolItem : option ProtocolCompletionItem.t }.
End CompletionItem.

(** The rest of the editor's types, for the converters no claim is about. *)

Module TextDocumentSaveReason.
Definition Manual : Z := 1.
Definition AfterDelay : Z := 2.
Definition FocusOut : Z := 3.
End TextDocumentSaveReason.

Module TextDocumentWillSaveEvent.
Record t := mk { document : TextDocument.t; reason : Z }.
End TextDocumentWillSaveEvent.

Module CompletionTriggerKind.
Definition Invoke : Z := 0.
Definition TriggerCharacter : Z := 1.
Definition TriggerForIncompleteCompletions : Z := 2.
End CompletionTriggerKind.

Module CompletionContext.
Record t := mk { triggerKind : Z; triggerCharacter : option string }.
End CompletionContext.

Module ReferenceOptions.
Record t := mk { includeDeclaration : bool }.
End ReferenceOptions.

Module CodeActionKind.
Record t := mk { value : string }.
End CodeActionKind.

Module CodeActionContext.
Record t := mk { diagnostics : list Diagnostic.t; only : option CodeActionKind.t }.
End CodeActionContext.

(** What [ProtocolCodeLens] and [ProtocolDocumentLink] add: [data: any],
    unset until the wire-to-host converter assigns it. *)
Module ProtocolCodeLens.
Record t := mk { data : option Any }.
End ProtocolCodeLens.

Module CodeLens.
(** [protocolItem] is [Some] exactly when [item instanceof ProtocolCodeLens]. *)
Record t := mk {
  range : Range.t;
  command : option Command.t;
  protocolItem : option ProtocolCodeLens.t }.
End CodeLens.

Module FormattingOptions.
Record t := mk { tabSize : Z; insertSpaces : bool }.
End FormattingOptions.

Module ProtocolDocumentLink.
Record t := mk { data : option Any }.
End ProtocolDocumentLink.

Module DocumentLink.
(** [protocolItem] is [Some] exactly when
    [item instanceof ProtocolDocumentLink]. *)
Record t := mk {
  range : Range.t;
  target : option Uri.t;
  protocolItem : option ProtocolDocumentLink.t }.
End DocumentLink.

End code.

(** ** The wire types ([import * as proto from 'vscode-languageserver-protocol']) *)

Module proto.

Module Position.
Record t := mk { line : Z; character : Z }.
End Position.

Module Range.
Record t := mk { start : Position.t; end_ : Position.t }.
End Range.

Module Location.
Record t := mk { uri : string; range : Range.t }.
(** [Location.create(uri, range)] *)
Definition create (uri : string) (range : Range.t) : t := mk uri range.
End Location.

Module VersionedTextDocumentIdentifier.
Record t := mk { uri : string; version : Z }.
End VersionedTextDocumentIdentifier.

Module TextDocumentContentChangeEvent.
Record t := mk { range : option Range.t; rangeLength : option Z; text : string }.
End TextDocumentContentChangeEvent.

Module DidChangeTextDocumentParams.
Record t := mk {
  textDocument : VersionedTextDocumentIdentifier.t;
  contentChanges : list TextDocumentContentChangeEvent.t }.
End DidChangeTextDocumentParams.

Module DiagnosticSeverity.
Definition Error : Z := 1.
Definition Warning : Z := 2.
Definition Information : Z := 3.
Definition Hint : Z := 4.
End DiagnosticSeverity.

Module DiagnosticTag.
Definition Unnecessary : Z := 1.
Definition Deprecated : Z := 2.
End DiagnosticTag.

Module DiagnosticRelatedInformation.
Record t := mk { location : Location.t; message : string }.
End DiagnosticRelatedInformation.

Module Diagnostic.
Record t := mk {
  range : Range.t;
  message : string;
  severity : option Z;
  code : option (Z + string);
  tags : option (list Z);
  relatedInformation : option (list DiagnosticRelatedInformation.t);
  source : option string }.
(** [Diagnostic.create(range, message)] *)
Definition create (range : Range.t) (message : string) : t :=
  mk range message None None None None None.
End Diagnostic.

Module TextEdit.
Record t := mk { range : Range.t; newText : string }.
End TextEdit.

Module Command.
Record t := mk { title : string; command : string; arguments : option loc }.
(** [Command.create(title, command)] *)
Definition create (title command : string) : t := mk title command None.
End Command.

Module MarkupKind.
Definition PlainText : string := "plaintext".
Definition Markdown : string := "markdown".
End MarkupKind.

(** [string | MarkupContent] as [asDocumentation] builds it. Its casts
    ([documentation as string]) do nothing at run time, so a value is
    handed on as the editor had it; [(documentation as
    MarkdownString).value] of a plain string is [undefined]. *)
Inductive Documentation : Type :=
| RawDocumentation (d : code.Documentation)
| MarkupContent (kind : string) (value : option code.Documentation).

Inductive InsertTextFormat : Type :=
| PlainText
| Snippet.

Module CompletionItem.
Record t := mk {
  label : string;
  kind : option Z;
  detail : option string;
  documentation : option Documentation;
  sortText : option string;
  filterText : option string;
  insertText : option string;
  insertTextFormat : option InsertTextFormat;
  textEdit : option TextEdit.t;
  additionalTextEdits : option (list TextEdit.t);
  commitCharacters : option loc;
  command : option Command.t;
  preselect : option bool;
  deprecated : option bool;
  data : option Any }.

(** Assignments [result.field = value]. *)
Definition set_kind v (r : t) : t :=
  mk (label r) v (detail r) (documentation r) (sortText r) (filterText r)
     (insertText r) (insertTextFormat r) (textEdit r) (additionalTextEdits r)
     (commitCharacters r) (command r) (preselect r) (deprecated r) (data r).
Definition set_detail v (r : t) : t :=
  mk (label r) (kind r) v (documentation r) (sortText r) (filterText r)
     (insertText r) (insertTextFormat r) (textEdit r) (additionalTextEdits r)
     (commitCharacters r) (command r) (preselect r) (deprecated r) (data r).
Definition set_documentation v (r : t) : t :=
  mk (label r) (kind r) (detail r) v (sortText r) (filterText r)
     (insertText r) (insertTextFormat r) (textEdit r) (additionalTextEdits r)
     (commitCharacters r) (command r) (preselect r) (deprecated r) (data r).
Definition set_sortText v (r : t) : t :=
  mk (label r) (kind r) (detail r) (documentation r) v (filterText r)
     (insertText r) (insertTextFormat r) (textEdit r) (additionalTextEdits r)
     (commitCharacters r) (command r) (preselect r) (deprecated r) (data r).
Definition set_filterText v (r : t) : t :=
  mk (label r) (kind r) (detail r) (documentation r) (sortText r) v
     (insertText r) (insertTextFormat r) (textEdit r) (additionalTextEdits r)
     (commitCharacters r) (command r) (preselect r) (deprecated r) (data r).
Definition set_insertText v (r : t) : t :=
  mk (label r) (kind r) (detail r) (documentation r) (sortText r) (filterText r)
     v (insertTextFormat r) (textEdit r) (additionalTextEdits r)
     (commitCharacters r) (command r) (preselect r) (deprecated r) (data r).
Definition set_insertTextFormat v (r : t) : t :=
  mk (label r) (kind r) (detail r) (documentation r) (sortText r) (filterText r)
     (insertText r) v (textEdit r) (additionalTextEdits r)
     (commitCharacters r) (command r) (preselect r) (deprecated r) (data r).
Definition set_textEdit v (r : t) : t :=
  mk (label r) (kind r) (detail r) (documentation r) (sortText r) (filterText r)
     (insertText r) (insertTextFormat r) v (additionalTextEdits r)
     (commitCharacters r) (command r) (preselect r) (deprecated r) (data r).
Definition set_additionalTextEdits v (r : t) : t :=
  mk (label r) (kind r) (detail r) (documentation r) (sortText r) (filterText r)
     (insertText r) (insertTextFormat r) (textEdit r) v
     (commitCharacters r) (command r) (preselect r) (deprecated r) (data r).
Definition set_commitCharacters v (r : t) : t :=
  mk (label r) (kind r) (detail r) (documentation r) (sortText r) (filterText r)
     (insertText r) (insertTextFormat r) (textEdit r) (additionalTextEdits r)
     v (command r) (preselect r) (deprecated r) (data r).
Definition set_command v (r : t) : t :=
  mk (label r) (kind r) (detail r) (documentation r) (sortText r) (filterText r)
     (insertText r) (insertTextFormat r) (textEdit r) (additionalTextEdits r)
     (commitCharacters r) v (preselect r) (deprecated r) (data r).
Definition set_preselect v (r : t) : t :=
  mk (label r) (kind r) (detail r) (documentation r) (sortText r) (filterText r)
     (insertText r) (insertTextFormat r) (textEdit r) (additionalTextEdits r)
     (commitCharacters r) (command r) v (deprecated r) (data r).
Definition set_deprecated v (r : t) : t :=
  mk (label r) (kind r) (detail r) (documentation r) (sortText r) (filterText r)
     (insertText r) (insertTextFormat r) (textEdit r) (additionalTextEdits r)
     (commitCharacters r) (command r) (preselect r) v (data r).
Definition set_data v (r : t) : t :=
  mk (label r) (kind r) (detail r) (documentation r) (sortText r) (filterText r)
     (insertText r) (insertTextFormat r) (textEdit r) (additionalTextEdits r)
     (commitCharacters r) (command r) (preselect r) (deprecated r) v.

(** [{ label: ... }] *)
Definition of_label (label : string) : t :=
  mk label None None None None None None None None None None None None None None.
End CompletionItem.

(** The rest of the wire types. *)

Module TextDocumentIdentifier.
Record t := mk { uri : string }.
End TextDocumentIdentifier.

Module TextDocumentItem.
Record t := mk { uri : string; languageId : string; version : Z; text : string }.
End TextDocumentItem.

Module DidOpenTextDocumentParams.
Record t := mk { textDocument : TextDocumentItem.t }.
End DidOpenTextDocumentParams.

Module DidCloseTextDocumentParams.
Record t := mk { textDocument : TextDocumentIdentifier.t }.
End DidCloseTextDocumentParams.

Module DidSaveTextDocumentParams.
Record t := mk { textDocument : VersionedTextDocumentIdentifier.t; text : option string }.
End DidSaveTextDocumentParams.

Module TextDocumentSaveReason.
Definition Manual : Z := 1.
Definition AfterDelay : Z := 2.
Definition FocusOut : Z := 3.
End TextDocumentSaveReason.

Module WillSaveTextDocumentParams.
Record t := mk { textDocument : TextDocumentIdentifier.t; reason : Z }.
End WillSaveTextDocumentParams.

Module TextDocumentPositionParams.
Record t := mk { textDocument : TextDocumentIdentifier.t; position : Position.t }.
End TextDocumentPositionParams.

Module CompletionTriggerKind.
Definition Invoked : Z := 1.
Definition TriggerCharacter : Z := 2.
Definition TriggerForIncompleteCompletions : Z := 3.
End CompletionTriggerKind.

Module CompletionContext.
Record t := mk { triggerKind : Z; triggerCharacter : option string }.
End CompletionContext.

Module CompletionParams.
Record t := mk {
  textDocument : TextDocumentIdentifier.t;
  position : Position.t;
  context : CompletionContext.t }.
End CompletionParams.

Module ReferenceContext.
Record t := mk { includeDeclaration : bool }.
End ReferenceContext.

Module ReferenceParams.
Record t := mk {
  textDocument : TextDocumentIdentifier.t;
  position : Position.t;
  context : ReferenceContext.t }.
End ReferenceParams.

Module CodeActionContext.
Record t := mk { diagnostics : Nullable (list Diagnostic.t); only : option (list string) }.
(** [CodeActionContext.create(diagnostics, only)]: [only] is set when it is
    neither [undefined] nor [null]. *)
Definition create (diagnostics : Nullable (list Diagnostic.t)) (only : option (list string))
  : t := mk diagnostics only.
End CodeActionContext.

Module CodeLens.
Record t := mk { range : Range.t; command : option Command.t; data : option Any }.
(** [CodeLens.create(range)] *)
Definition create (range : Range.t) : t := mk range None None.
End CodeLens.

Module FormattingOptions.
Record t := mk { tabSize : Z; insertSpaces : bool }.
End FormattingOptions.

Module DocumentSymbolParams.
Record t := mk { textDocument : TextDocumentIdentifier.t }.
End DocumentSymbolParams.

Module CodeLensParams.
Record t := mk { textDocument : TextDocumentIdentifier.t }.
End CodeLensParams.

Module DocumentLinkParams.
Record t := mk { textDocument : TextDocumentIdentifier.t }.
End DocumentLinkParams.

Module DocumentLink.
Record t := mk { range : Range.t; target : option string; data : option Any }.
(** [DocumentLink.create(range)] *)
Definition create (range : Range.t) : t := mk range None None.
End DocumentLink.

End proto.

(** ** The argument of [asChangeTextDocumentParams]

    The function tells its two overloads apart by looking at properties of
    the object it is handed.  [ChangeArgument.t] is that object as the
    function reads it: each property it tests is [None] when the object does
    not have it.  [getText] is only called once the object has been
    recognised as a document; it holds what the call returns.  This is an
    argument of the declared types; the function on any value at all,
    [undefined] and [null] included, is [Untyped.asChangeTextDocumentParams]
    below. *)

Module ChangeArgument.
Record t := mk {
  uri : option code.Uri.t;
  version : option Z;
  getText : string;
  document : option code.TextDocument.t;
  contentChanges : option (list code.TextDocumentContentChangeEvent.t) }.

(** A [code.TextDocument] passed as the argument. *)
Definition ofTextDocument (textDocument : code.TextDocument.t) : t :=
  mk (Some (code.TextDocument.uri textDocument))
     (Some (code.TextDocument.version textDocument))
     (code.TextDocument.getText textDocument)
     None None.

(** A [code.TextDocumentChangeEvent] passed as the argument. *)
Definition ofTextDocumentChangeEvent (event : code.TextDocumentChangeEvent.t) : t :=
  mk None None ""
     (Some (code.TextDocumentChangeEvent.document event))
     (Some (code.TextDocumentChangeEvent.contentChanges event)).
End ChangeArgument.

(** ** The converter *)

(** [URIConverter]: how a host Uri is named on the wire. *)
Definition URIConverter := code.Uri.t → string.

Definition nullConverter : URIConverter := λ value, code.Uri.toString value.

Section Converter.

(** The optional argument of [createConverter]. *)
Variable uriConverter : option URIConverter.

Definition _uriConverter : URIConverter := default nullConverter uriConverter.

Definition asUri (value : code.Uri.t) : string := _uriConverter value.

Definition asWorkerPosition (position : code.Position.t) : proto.Position.t :=
  proto.Position.mk (code.Position.line position) (code.Position.character position).

(** The guard shared by the overloaded converters:
    [if (value === undefined || value === null) { return value; }],
    the body running on every other value. *)
Definition unless_absent {A B} (body : A → B) (value : Nullable A) : Nullable B :=
  match value with
  | undefined => undefined
  | null => null
  | defined value => defined (body value)
  end.

(** The overload [asPosition(value: code.Position): proto.Position]. *)
Definition asPosition_defined (value : code.Position.t) : proto.Position.t :=
  proto.Position.mk (code.Position.line value) (code.Position.character value).

Definition asPosition (value : Nullable code.Position.t) : Nullable proto.Position.t :=
  unless_absent asPosition_defined value.

Definition asPositions (value : list code.Position.t) : list proto.Position.t :=
  asPosition_defined <$> value.

(** The overload [asRange(value: code.Range): proto.Range]. *)
Definition asRange_defined (value : code.Range.t) : proto.Range.t :=
  proto.Range.mk (asPosition_defined (code.Range.start value))
                 (asPosition_defined (code.Range.end_ value)).

Definition asRange (value : Nullable code.Range.t) : Nullable proto.Range.t :=
  unless_absent asRange_defined value.

(** The overload [asLocation(value: code.Location): proto.Location]. *)
Definition asLocation_defined (value : code.Location.t) : proto.Location.t :=
  proto.Location.create (asUri (code.Location.uri value))
                        (asRange_defined (code.Location.range value)).

Definition asLocation (value : Nullable code.Location.t) : Nullable proto.Location.t :=
  unless_absent asLocation_defined value.

(** *** Document changes *)

Definition isTextDocumentChangeEvent (value : ChangeArgument.t) : bool :=
  truthy_object (ChangeArgument.document value)
  && truthy_object (ChangeArgument.contentChanges value).

Definition isTextDocument (value : ChangeArgument.t) : bool :=
  truthy_object (ChangeArgument.uri value)
  && truthy_number (ChangeArgument.version value).

Definition unsupported_change_parameter : string :=
  "Unsupported text document change parameter".

(** The callback of [arg.contentChanges.map]. *)
Definition asContentChange (change : code.TextDocumentContentChangeEvent.t)
  : proto.TextDocumentContentChangeEvent.t :=
  let range := code.TextDocumentContentChangeEvent.range change in
  proto.TextDocumentContentChangeEvent.mk
    (Some (proto.Range.mk
             (proto.Position.mk (code.Position.line (code.Range.start range))
                                (code.Position.character (code.Range.start range)))
             (proto.Position.mk (code.Position.line (code.Range.end_ range))
                                (code.Position.character (code.Range.end_ range)))))
    (Some (code.TextDocumentContentChangeEvent.rangeLength change))
    (code.TextDocumentContentChangeEvent.text change).

(** Reading a property of [undefined] is a TypeError; on an argument of the
    declared types the recognisers rule it out on both branches (see
    [asChangeTextDocumentParams_no_TypeError]). *)
Definition type_error : string := "TypeError".

Definition asChangeTextDocumentParams (arg : ChangeArgument.t)
  : Outcome proto.DidChangeTextDocumentParams.t :=
  if isTextDocument arg then
    match ChangeArgument.uri arg, ChangeArgument.version arg with
    | Some uri, Some version =>
        Return (proto.DidChangeTextDocumentParams.mk
                  (proto.VersionedTextDocumentIdentifier.mk (_uriConverter uri) version)
                  [proto.TextDocumentContentChangeEvent.mk
                     None None (ChangeArgument.getText arg)])
    | _, _ => Throw type_error
    end
  else if isTextDocumentChangeEvent arg then
    match ChangeArgument.document arg, ChangeArgument.contentChanges arg with
    | Some document, Some contentChanges =>
        Return (proto.DidChangeTextDocumentParams.mk
                  (proto.VersionedTextDocumentIdentifier.mk
                     (_uriConverter (code.TextDocument.uri document))
                     (code.TextDocument.version document))
                  (asContentChange <$> contentChanges))
    | _, _ => Throw type_error
    end
  else Throw unsupported_change_parameter.

(** *** Diagnostics *)

(** A [switch] without [default]: any other number falls off its end. *)
Definition asDiagnosticSeverity (value : Z) : option Z :=
  if decide (value = code.DiagnosticSeverity.Error) then
    Some proto.DiagnosticSeverity.Error
  else if decide (value = code.DiagnosticSeverity.Warning) then
    Some proto.DiagnosticSeverity.Warning
  else if decide (value = code.DiagnosticSeverity.Information) then
    Some proto.DiagnosticSeverity.Information
  else if decide (value = code.DiagnosticSeverity.Hint) then
    Some proto.DiagnosticSeverity.Hint
  else None.

Definition asDiagnosticTag (tag : Z) : option Z :=
  if decide (tag = code.DiagnosticTag.Unnecessary) then
    Some proto.DiagnosticTag.Unnecessary
  else if decide (tag = code.DiagnosticTag.Deprecated) then
    Some proto.DiagnosticTag.Deprecated
  else None.

(** One turn of the loop [for (let tag of tags)]. *)
Definition asDiagnosticTags_step (result : list Z) (tag : Z) : list Z :=
  match asDiagnosticTag tag with
  | Some converted => result ++ [converted]
  | None => result
  end.

Definition asDiagnosticTags (tags : Nullable (list Z)) : option (list Z) :=
  match tags with
  | defined tags =>
      let result := foldl asDiagnosticTags_step [] tags in
      if decide (0 < length result)%nat then Some result else None
  | _ => None
  end.

Definition asRelatedInformation (item : code.DiagnosticRelatedInformation.t)
  : proto.DiagnosticRelatedInformation.t :=
  proto.DiagnosticRelatedInformation.mk
    (asLocation_defined (code.DiagnosticRelatedInformation.location item))
    (code.DiagnosticRelatedInformation.message item).

Definition asRelatedInformations (items : list code.DiagnosticRelatedInformation.t)
  : list proto.DiagnosticRelatedInformation.t :=
  asRelatedInformation <$> items.

Definition asDiagnostic (item : code.Diagnostic.t) : proto.Diagnostic.t :=
  let result :=
    proto.Diagnostic.create (asRange_defined (code.Diagnostic.range item))
                            (code.Diagnostic.message item) in
  proto.Diagnostic.mk
    (proto.Diagnostic.range result)
    (proto.Diagnostic.message result)
    (match code.Diagnostic.severity item with
     | Some severity => asDiagnosticSeverity severity
     | None => proto.Diagnostic.severity result
     end)
    (match code.Diagnostic.code item with
     | Some code => Some code
     | None => proto.Diagnostic.code result
     end)
    (match code.Diagnostic.tags item with
     | Some tags => asDiagnosticTags (defined tags)
     | None => proto.Diagnostic.tags result
     end)
    (match code.Diagnostic.relatedInformation item with
     | Some relatedInformation => Some (asRelatedInformations relatedInformation)
     | None => proto.Diagnostic.relatedInformation result
     end)
    (if truthy_string (code.Diagnostic.source item)
     then code.Diagnostic.source item
     else proto.Diagnostic.source result).

Definition asDiagnostics (items : Nullable (list code.Diagnostic.t))
  : Nullable (list proto.Diagnostic.t) :=
  unless_absent (fmap asDiagnostic) items.

(** *** Completion items *)

(** [string | MarkdownString] in a condition: an object is truthy, a
    string unless it is empty. *)
Definition truthy_documentation (v : option code.Documentation) : bool :=
  match v with
  | Some (code.StringDocumentation s) => truthy_string (Some s)
  | Some (code.MarkdownDocumentation _) => true
  | None => false
  end.

(** [format] is [None] when the item never recorded one; the template
    string then prints [undefined]. *)
Definition asDocumentation (format : option string) (documentation : code.Documentation)
  : proto.Documentation :=
  match format with
  | Some format =>
      if decide (format = "$string") then
        proto.RawDocumentation documentation
      else if decide (format = proto.MarkupKind.PlainText) then
        proto.MarkupContent format (Some documentation)
      else if decide (format = proto.MarkupKind.Markdown) then
        proto.MarkupContent format
          (match documentation with
           | code.MarkdownDocumentation m =>
               Some (code.StringDocumentation (code.MarkdownString.value m))
           | code.StringDocumentation _ => None
           end)
      else
        proto.RawDocumentation
          (code.StringDocumentation
             ("Unsupported Markup content received. Kind is: " +:+ format))
  | None =>
      proto.RawDocumentation
        (code.StringDocumentation
           "Unsupported Markup content received. Kind is: undefined")
  end.

Definition asCompletionItemKind (value : Z) (original : option Z) : Z :=
  match original with
  | Some original => original
  | None => number_add value 1
  end.

Definition asTextEdit (edit : code.TextEdit.t) : proto.TextEdit.t :=
  proto.TextEdit.mk (asRange_defined (code.TextEdit.range edit))
                    (code.TextEdit.newText edit).

(** Not exported; its one caller passes an array, so its guard against
    [undefined] and [null] never fires. *)
Definition asTextEdits (edits : list code.TextEdit.t) : list proto.TextEdit.t :=
  asTextEdit <$> edits.

(** [result.arguments = item.arguments]: the reference is handed on. *)
Definition asCommand (item : code.Command.t) : proto.Command.t :=
  let result := proto.Command.create (code.Command.title item) (code.Command.command item) in
  match code.Command.arguments item with
  | Some arguments =>
      proto.Command.mk (proto.Command.title result) (proto.Command.command result)
                       (Some arguments)
  | None => result
  end.

(** [source.fromEdit], read through the cast [item as
    ProtocolCompletionItem]: [undefined] on an item that is not one. *)
Definition fromEdit (source : code.CompletionItem.t) : option bool :=
  code.CompletionItem.protocolItem source ≫= code.ProtocolCompletionItem.fromEdit.

Definition fillPrimaryInsertText (target : proto.CompletionItem.t)
    (source : code.CompletionItem.t) : proto.CompletionItem.t :=
  let format := proto.PlainText in
  let range : option proto.Range.t := None in
  let '(format, text, range) :=
    match code.CompletionItem.textEdit source with
    | Some textEdit =>
        (format, Some (code.TextEdit.newText textEdit),
         Some (asRange_defined (code.TextEdit.range textEdit)))
    | None =>
        match code.CompletionItem.insertText source with
        | Some (code.SnippetInsertText insertText) =>
            (proto.Snippet, Some (code.SnippetString.value insertText), range)
        | Some (code.PlainInsertText insertText) => (format, Some insertText, range)
        | None => (format, None, range)
        end
    end in
  let range :=
    match code.CompletionItem.range source with
    | Some r => Some (asRange_defined r)
    | None => range
    end in
  let target := proto.CompletionItem.set_insertTextFormat (Some format) target in
  (* [if (source.fromEdit && text && range)]; the match names the two values *)
  match text, range with
  | Some newText, Some r =>
      if truthy_boolean (fromEdit source) && truthy_string text then
        proto.CompletionItem.set_textEdit (Some (proto.TextEdit.mk r newText)) target
      else
        proto.CompletionItem.set_insertText text target
  | _, _ => proto.CompletionItem.set_insertText text target
  end.

(** The heap is threaded for [item.commitCharacters.slice()], the one
    place where the function makes a new array of [any]. *)
Definition asCompletionItem (item : code.CompletionItem.t) (h : heap)
  : proto.CompletionItem.t * heap :=
  let result := proto.CompletionItem.of_label (code.CompletionItem.label item) in
  let protocolItem := code.CompletionItem.protocolItem item in
  let result :=
    if truthy_string (code.CompletionItem.detail item)
    then proto.CompletionItem.set_detail (code.CompletionItem.detail item) result
    else result in
  let result :=
    match code.CompletionItem.documentation item with
    | Some documentation =>
        if truthy_documentation (Some documentation) then
          match protocolItem with
          | None =>
              proto.CompletionItem.set_documentation
                (Some (proto.RawDocumentation documentation)) result
          | Some protocolItem =>
              if decide (code.ProtocolCompletionItem.documentationFormat protocolItem
                         = Some "$string")
              then proto.CompletionItem.set_documentation
                     (Some (proto.RawDocumentation documentation)) result
              else proto.CompletionItem.set_documentation
                     (Some (asDocumentation
                              (code.ProtocolCompletionItem.documentationFormat protocolItem)
                              documentation)) result
          end
        else result
    | None => result
    end in
  let result :=
    if truthy_string (code.CompletionItem.filterText item)
    then proto.CompletionItem.set_filterText (code.CompletionItem.filterText item) result
    else result in
  let result := fillPrimaryInsertText result item in
  let result :=
    match code.CompletionItem.kind item with
    | Some kind =>
        proto.CompletionItem.set_kind
          (Some (asCompletionItemKind kind
                   (protocolItem ≫= code.ProtocolCompletionItem.originalItemKind)))
          result
    | None => result
    end in
  let result :=
    if truthy_string (code.CompletionItem.sortText item)
    then proto.CompletionItem.set_sortText (code.CompletionItem.sortText item) result
    else result in
  let result :=
    match code.CompletionItem.additionalTextEdits item with
    | Some additionalTextEdits =>
        proto.CompletionItem.set_additionalTextEdits
          (Some (asTextEdits additionalTextEdits)) result
    | None => result
    end in
  let '(result, h) :=
    match code.CompletionItem.commitCharacters item with
    | Some commitCharacters =>
        let '(copy, h) := slice h commitCharacters in
        (proto.CompletionItem.set_commitCharacters (Some copy) result, h)
    | None => (result, h)
    end in
  let result :=
    match code.CompletionItem.command item with
    | Some command => proto.CompletionItem.set_command (Some (asCommand command)) result
    | None => result
    end in
  let result :=
    match code.CompletionItem.preselect item with
    | Some preselect => proto.CompletionItem.set_preselect (Some preselect) result
    | None => result
    end in
  let result :=
    match protocolItem with
    | Some protocolItem =>
        let result :=
          match code.ProtocolCompletionItem.data protocolItem with
          | Some data => proto.CompletionItem.set_data (Some data) result
          | None => result
          end in
        match code.ProtocolCompletionItem.deprecated protocolItem with
        | Some deprecated => proto.CompletionItem.set_deprecated (Some deprecated) result
        | None => result
        end
    | None => result
    end in
  (result, h).

(** *** The remaining converters *)

(** A value of type [any] in a condition ([undefined] is [None]). *)
Definition truthy_any (v : option Any) : bool :=
  match v with
  | None => false
  | Some AnyNull => false
  | Some (AnyBoolean b) => b
  | Some (AnyNumber n) => negb (Z.eqb n 0)
  | Some (AnyString s) => negb (String.eqb s "")
  | Some (AnyArray _) => true
  end.

Definition asTextDocumentIdentifier (textDocument : code.TextDocument.t)
  : proto.TextDocumentIdentifier.t :=
  proto.TextDocumentIdentifier.mk (_uriConverter (code.TextDocument.uri textDocument)).

Definition asVersionedTextDocumentIdentifier (textDocument : code.TextDocument.t)
  : proto.VersionedTextDocumentIdentifier.t :=
  proto.VersionedTextDocumentIdentifier.mk
    (_uriConverter (code.TextDocument.uri textDocument))
    (code.TextDocument.version textDocument).

Definition asOpenTextDocumentParams (textDocument : code.TextDocument.t)
  : proto.DidOpenTextDocumentParams.t :=
  proto.DidOpenTextDocumentParams.mk
    (proto.TextDocumentItem.mk
       (_uriConverter (code.TextDocument.uri textDocument))
       (code.TextDocument.languageId textDocument)
       (code.TextDocument.version textDocument)
       (code.TextDocument.getText textDocument)).

Definition asCloseTextDocumentParams (textDocument : code.TextDocument.t)
  : proto.DidCloseTextDocumentParams.t :=
  proto.DidCloseTextDocumentParams.mk (asTextDocumentIdentifier textDocument).

(** [includeContent: boolean = false]: [None] is the argument left out. *)
Definition asSaveTextDocumentParams (textDocument : code.TextDocument.t)
    (includeContent : option bool) : proto.DidSaveTextDocumentParams.t :=
  let includeContent := default false includeContent in
  let result :=
    proto.DidSaveTextDocumentParams.mk (asVersionedTextDocumentIdentifier textDocument) None in
  if includeContent then
    proto.DidSaveTextDocumentParams.mk
      (proto.DidSaveTextDocumentParams.textDocument result)
      (Some (code.TextDocument.getText textDocument))
  else result.

Definition asTextDocumentSaveReason (reason : Z) : Z :=
  if decide (reason = code.TextDocumentSaveReason.Manual) then
    proto.TextDocumentSaveReason.Manual
  else if decide (reason = code.TextDocumentSaveReason.AfterDelay) then
    proto.TextDocumentSaveReason.AfterDelay
  else if decide (reason = code.TextDocumentSaveReason.FocusOut) then
    proto.TextDocumentSaveReason.FocusOut
  else proto.TextDocumentSaveReason.Manual.

Definition asWillSaveTextDocumentParams (event : code.TextDocumentWillSaveEvent.t)
  : proto.WillSaveTextDocumentParams.t :=
  proto.WillSaveTextDocumentParams.mk
    (asTextDocumentIdentifier (code.TextDocumentWillSaveEvent.document event))
    (asTextDocumentSaveReason (code.TextDocumentWillSaveEvent.reason event)).

Definition asTextDocumentPositionParams (textDocument : code.TextDocument.t)
    (position : code.Position.t) : proto.TextDocumentPositionParams.t :=
  proto.TextDocumentPositionParams.mk
    (asTextDocumentIdentifier textDocument) (asWorkerPosition position).

Definition asTriggerKind (triggerKind : Z) : Z :=
  if decide (triggerKind = code.CompletionTriggerKind.TriggerCharacter) then
    proto.CompletionTriggerKind.TriggerCharacter
  else if decide (triggerKind = code.CompletionTriggerKind.TriggerForIncompleteCompletions)
  then proto.CompletionTriggerKind.TriggerForIncompleteCompletions
  else proto.CompletionTriggerKind.Invoked.

Definition asCompletionParams (textDocument : code.TextDocument.t)
    (position : code.Position.t) (context : code.CompletionContext.t)
  : proto.CompletionParams.t :=
  proto.CompletionParams.mk
    (asTextDocumentIdentifier textDocument)
    (asWorkerPosition position)
    (proto.CompletionContext.mk
       (asTriggerKind (code.CompletionContext.triggerKind context))
       (code.CompletionContext.triggerCharacter context)).

Definition asReferenceParams (textDocument : code.TextDocument.t)
    (position : code.Position.t) (options : code.ReferenceOptions.t)
  : proto.ReferenceParams.t :=
  proto.ReferenceParams.mk
    (asTextDocumentIdentifier textDocument)
    (asWorkerPosition position)
    (proto.ReferenceContext.mk (code.ReferenceOptions.includeDeclaration options)).

(** [context.only.value] is a string by its type, so [Is.string] holds of
    it whenever [context.only] is there. *)
Definition asCodeActionContext (context : Nullable code.CodeActionContext.t)
  : Nullable proto.CodeActionContext.t :=
  unless_absent
    (λ context,
       let only :=
         match code.CodeActionContext.only context with
         | Some only => Some [code.CodeActionKind.value only]
         | None => None
         end in
       proto.CodeActionContext.create
         (asDiagnostics (defined (code.CodeActionContext.diagnostics context))) only)
    context.

Definition asCodeLens (item : code.CodeLens.t) : proto.CodeLens.t :=
  let result := proto.CodeLens.create (asRange_defined (code.CodeLens.range item)) in
  let result :=
    match code.CodeLens.command item with
    | Some command =>
        proto.CodeLens.mk (proto.CodeLens.range result) (Some (asCommand command))
                          (proto.CodeLens.data result)
    | None => result
    end in
  match code.CodeLens.protocolItem item with
  | Some protocolItem =>
      if truthy_any (code.ProtocolCodeLens.data protocolItem)
      then proto.CodeLens.mk (proto.CodeLens.range result) (proto.CodeLens.command result)
                             (code.ProtocolCodeLens.data protocolItem)
      else result
  | None => result
  end.

Definition asFormattingOptions (item : code.FormattingOptions.t) : proto.FormattingOptions.t :=
  proto.FormattingOptions.mk (code.FormattingOptions.tabSize item)
                             (code.FormattingOptions.insertSpaces item).

Definition asDocumentSymbolParams (textDocument : code.TextDocument.t)
  : proto.DocumentSymbolParams.t :=
  proto.DocumentSymbolParams.mk (asTextDocumentIdentifier textDocument).

Definition asCodeLensParams (textDocument : code.TextDocument.t) : proto.CodeLensParams.t :=
  proto.CodeLensParams.mk (asTextDocumentIdentifier textDocument).

Definition asDocumentLink (item : code.DocumentLink.t) : proto.DocumentLink.t :=
  let result := proto.DocumentLink.create (asRange_defined (code.DocumentLink.range item)) in
  let result :=
    match code.DocumentLink.target item with
    | Some target =>
        proto.DocumentLink.mk (proto.DocumentLink.range result) (Some (asUri target))
                              (proto.DocumentLink.data result)
    | None => result
    end in
  match code.DocumentLink.protocolItem item with
  | Some protocolItem =>
      if truthy_any (code.ProtocolDocumentLink.data protocolItem)
      then proto.DocumentLink.mk (proto.DocumentLink.range result)
                                 (proto.DocumentLink.target result)
                                 (code.ProtocolDocumentLink.data protocolItem)
      else result
  | None => result
  end.

Definition asDocumentLinkParams (textDocument : code.TextDocument.t)
  : proto.DocumentLinkParams.t :=
  proto.DocumentLinkParams.mk (asTextDocumentIdentifier textDocument).

End Converter.

(** ** What the specification says, in its own words *)

Module Spec.

(** §4.3, steps 1 to 3 as written: the override's text, else the snippet's
    text, else the plain string, else the label. *)
Definition insertionText_with_label_fallback (item : code.CompletionItem.t) : string :=
  match code.CompletionItem.textEdit item with
  | Some textEdit => code.TextEdit.newText textEdit
  | None =>
      match code.CompletionItem.insertText item with
      | Some (code.SnippetInsertText snippet) => code.SnippetString.value snippet
      | Some (code.PlainInsertText text) => text
      | None => code.CompletionItem.label item
      end
  end.

(** The same precedence with nothing chosen when no step applies. *)
Definition insertionText (item : code.CompletionItem.t) : option string :=
  match code.CompletionItem.textEdit item with
  | Some textEdit => Some (code.TextEdit.newText textEdit)
  | None =>
      match code.CompletionItem.insertText item with
      | Some (code.SnippetInsertText snippet) => Some (code.SnippetString.value snippet)
      | Some (code.PlainInsertText text) => Some text
      | None => None
      end
  end.

(** §4.3: the item's own target range if it has one, else the range of
    the text-edit override. *)
Definition targetRange (item : code.CompletionItem.t) : option code.Range.t :=
  match code.CompletionItem.range item with
  | Some range => Some range
  | None => code.TextEdit.range <$> code.CompletionItem.textEdit item
  end.

(** The text a wire item inserts, whichever of the two properties
    carries it. *)
Definition insertedText (item : proto.CompletionItem.t) : option string :=
  match proto.CompletionItem.textEdit item with
  | Some textEdit => Some (proto.TextEdit.newText textEdit)
  | None => proto.CompletionItem.insertText item
  end.

(** §4.3, the emission rule as the code applies it: the item is flagged
    [fromEdit], a text was chosen and is not empty, and there is a range. *)
Definition emittedAsEdit (item : code.CompletionItem.t) : Prop :=
  fromEdit item = Some true
  ∧ (∃ text, insertionText item = Some text ∧ text ≠ "")
  ∧ is_Some (targetRange item).

(** The allow-list of diagnostic tags and the wire value of each. *)
Definition allowedTag (tag : Z) : Prop :=
  tag = code.DiagnosticTag.Unnecessary ∨ tag = code.DiagnosticTag.Deprecated.

Definition wireTag (tag : Z) : Z :=
  if decide (tag = code.DiagnosticTag.Unnecessary)
  then proto.DiagnosticTag.Unnecessary
  else proto.DiagnosticTag.Deprecated.

End Spec.

(** ** Sample values *)

Module Examples.

Definition range : code.Range.t :=
  code.Range.mk (code.Position.mk 1 2) (code.Position.mk 1 5).

(** [new CompletionItem(label)] *)
Definition item (label : string) : code.CompletionItem.t :=
  code.CompletionItem.mk label None None None None None None None None None None None None
                         None.

(** A [ProtocolCompletionItem] as the wire-to-host converter leaves it
    after reading an item that had a [textEdit]. *)
Definition fromWireEdit : code.ProtocolCompletionItem.t :=
  code.ProtocolCompletionItem.mk None (Some true) None None None.

(** Only a label. *)
Definition labelOnly : code.CompletionItem.t := item "fooItem".

(** A plain insertion string. *)
Definition plain : code.CompletionItem.t :=
  code.CompletionItem.mk "fooItem" None None None None None None
    (Some (code.PlainInsertText "foo")) None None None None None None.

(** A snippet. *)
Definition snippet : code.CompletionItem.t :=
  code.CompletionItem.mk "foo" None None None None None None
    (Some (code.SnippetInsertText (code.SnippetString.mk "foo($1)"))) None None None None
    None None.

(** A snippet read from a wire item that had a [textEdit]. *)
Definition snippetFromWireEdit : code.CompletionItem.t :=
  code.CompletionItem.mk "foo" None None None None None None
    (Some (code.SnippetInsertText (code.SnippetString.mk "foo($1)"))) (Some range)
    None None None None (Some fromWireEdit).

(** A text-edit override that deletes: its [newText] is empty. *)
Definition deletion : code.CompletionItem.t :=
  code.CompletionItem.mk "foo" None None None None None None None None None None None
    (Some (code.TextEdit.mk range "")) (Some fromWireEdit).

(** A text-edit override that replaces. *)
Definition replacement : code.CompletionItem.t :=
  code.CompletionItem.mk "foo" None None None None None None None None None None None
    (Some (code.TextEdit.mk range "foobar")) (Some fromWireEdit).

(** An item read from the wire with kind 7, which the editor shows with
    its own kind 2. *)
Definition withOriginalKind : code.CompletionItem.t :=
  code.CompletionItem.mk "foo" (Some 2) None None None None None None None None None None
    None (Some (code.ProtocolCompletionItem.mk None None None (Some 7) None)).

(** Two arrays owned by the editor, and an item that refers to both. *)
Definition arrays : heap :=
  <[2%positive := [AnyNumber 1]]> {[1%positive := [AnyString "."]]}.

Definition command : code.Command.t :=
  code.Command.mk "Run" "extension.run" (Some 2%positive).

Definition withArrays : code.CompletionItem.t :=
  code.CompletionItem.mk "foo" None None None None None None None None (Some 1%positive)
    None (Some command) None None.

Definition textDocument (uri : string) (version : Z) : code.TextDocument.t :=
  code.TextDocument.mk (code.Uri.mk uri) "plaintext" version "abc".

Definition twoEdits : code.TextDocumentChangeEvent.t :=
  code.TextDocumentChangeEvent.mk (textDocument "file:///a.txt" 3)
    [code.TextDocumentContentChangeEvent.mk range 3 "x";
     code.TextDocumentContentChangeEvent.mk
       (code.Range.mk (code.Position.mk 0 0) (code.Position.mk 0 0)) 0 "y"].

Definition diagnostic (tags : list Z) : code.Diagnostic.t :=
  code.Diagnostic.mk range "unused" None None (Some tags) None None.

End Examples.

(** ** Auxiliary definitions *)

(** The documentation as [asCompletionItem] decides it. *)
Definition documentation_sent (item : code.CompletionItem.t) : option proto.Documentation :=
  match code.CompletionItem.documentation item with
  | Some documentation =>
      if truthy_documentation (Some documentation) then
        Some (match code.CompletionItem.protocolItem item with
              | None => proto.RawDocumentation documentation
              | Some protocolItem =>
                  if decide (code.ProtocolCompletionItem.documentationFormat protocolItem
                             = Some "$string")
                  then proto.RawDocumentation documentation
                  else asDocumentation
                         (code.ProtocolCompletionItem.documentationFormat protocolItem)
                         documentation
              end)
      else None
  | None => None
  end.

(** ** The file helpers (files.ts) *)

Module Files.

(** What [url.parse] gives of a uri, as far as [uriToFilePath] reads it;
    [None] is [null]. *)
Module Url.
Record t := mk { protocol : option string; path : option string }.
End Url.

(** The process as the helpers see it: the platform, the name of the
    running file, and which files exist at the time of a call. *)
Module Process.
Record t := mk { platform : string; __filename : string; existsSync : string → bool }.
End Process.

(** [s.split(sep)] for a separator of one character. *)
Fixpoint split (sep : ascii) (s : string) : list string :=
  match s with
  | EmptyString => [EmptyString]
  | String c rest =>
      if Ascii.eqb c sep then EmptyString :: split sep rest
      else match split sep rest with
           | segment :: segments => String c segment :: segments
           | [] => [String c EmptyString]
           end
  end.

(** [segments.join(sep)] *)
Fixpoint join (sep : string) (segments : list string) : string :=
  match segments with
  | [] => EmptyString
  | [segment] => segment
  | segment :: segments => segment +:+ sep +:+ join sep segments
  end.

(** [s.indexOf(search)]: the first position of [search] in [s], or [-1]. *)
Definition indexOf (s search : string) : Z :=
  match String.index 0 search s with
  | Some position => Z.of_nat position
  | None => -1
  end.

Section Platform.

(** What the platform provides: [url.parse], [decodeURIComponent] (which
    throws on a malformed escape), [path.normalize] and the case mappings
    of strings. *)
Variable parse : string → Url.t.
Variable decodeURIComponent : string → Outcome string.
Variable normalize : string → string.
Variable toUpperCase toLowerCase : string → string.

(** The loop [segments[i] = decodeURIComponent(segments[i])]: the first
    segment that fails to decode ends the call. *)
Fixpoint decodeSegments (segments : list string) : Outcome (list string) :=
  match segments with
  | [] => Return []
  | segment :: segments =>
      match decodeURIComponent segment with
      | Throw message => Throw message
      | Return decoded =>
          match decodeSegments segments with
          | Throw message => Throw message
          | Return rest => Return (decoded :: rest)
          end
      end
  end.

(** A string of the model is a sequence of bytes, a string of the source a
    sequence of UTF-16 units.  Lengths and indices are the same in both as
    long as the text is ASCII, which [isAscii] says; what is proved of
    [startsWithDrive] below is proved of such text. *)
Definition isAscii (s : string) : bool :=
  forallb (λ c, Nat.ltb (nat_of_ascii c) 128) (list_ascii_of_string s).

(** [first.length === 0 && second.length > 1 && second[1] === ':'] *)
Definition startsWithDrive (segments : list string) : bool :=
  match segments with
  | first :: second :: _ =>
      (Nat.eqb (String.length first) 0)
      && (Nat.ltb 1 (String.length second))
      && bool_decide (String.get 1 second = Some ":"%char)
  | _ => false
  end.

Definition uriToFilePath (process : Process.t) (uri : string) : Outcome (option string) :=
  let parsed := parse uri in
  if negb (bool_decide (Url.protocol parsed = Some "file:"))
     || negb (truthy_string (Url.path parsed))
  then Return None
  else
    match decodeSegments (split "/"%char (default "" (Url.path parsed))) with
    | Throw message => Throw message
    | Return segments =>
        let segments :=
          if bool_decide (Process.platform process = "win32")
             && Nat.ltb 1 (length segments)
             && startsWithDrive segments
          then tail segments
          else segments in
        Return (Some (normalize (join "/" segments)))
    end.

(** [FileSystem._isCaseSensitive] is the state: [None] until the first
    call. Each function returns its result and the state it leaves. *)
Definition isCaseSensitive (process : Process.t) (_isCaseSensitive : option bool)
  : bool * option bool :=
  match _isCaseSensitive with
  | Some known => (known, _isCaseSensitive)
  | None =>
      let computed :=
        if bool_decide (Process.platform process = "win32") then false
        else negb (Process.existsSync process (toUpperCase (Process.__filename process)))
             || negb (Process.existsSync process (toLowerCase (Process.__filename process)))
      in (computed, Some computed)
  end.

Definition isParent (process : Process.t) (_isCaseSensitive : option bool)
    (parent child : string) : bool * option bool :=
  let '(caseSensitive, _isCaseSensitive) := isCaseSensitive process _isCaseSensitive in
  if caseSensitive then
    (Z.eqb (indexOf (normalize child) (normalize parent)) 0, _isCaseSensitive)
  else
    (Z.eqb (indexOf (toLowerCase (normalize child)) (toLowerCase (normalize parent))) 0,
     _isCaseSensitive).

End Platform.

End Files.

(** ** The type guards of the protocol (protocol.ts) *)

Module Guards.

(** A value of type [any] with its structure: the guards look inside. *)
#[local] Unset Elimination Schemes.
Inductive Value : Type :=
| VUndefined
| VNull
| VBoolean (b : bool)
| VNumber (n : Z)
| VString (s : string)
| VArray (elements : list Value)
| VObject (properties : list (string * Value)).
#[local] Set Elimination Schemes.

Definition truthy (v : Value) : bool :=
  match v with
  | VUndefined | VNull => false
  | VBoolean b => b
  | VNumber n => negb (Z.eqb n 0)
  | VString s => negb (String.eqb s "")
  | VArray _ | VObject _ => true
  end.

Definition type_error : string := "TypeError".

(** [properties[name]] of an object literal: the first entry wins. *)
Fixpoint property (properties : list (string * Value)) (name : string) : Value :=
  match properties with
  | [] => VUndefined
  | (key, v) :: properties => if String.eqb key name then v else property properties name
  end.

(** [v.name]: reading a property of [undefined] or [null] throws; a string
    and an array have a [length]; no other property of a value that is not
    an object literal is modelled. *)
Definition get (v : Value) (name : string) : Outcome Value :=
  match v with
  | VUndefined | VNull => Throw type_error
  | VObject properties => Return (property properties name)
  | VString s =>
      Return (if String.eqb name "length" then VNumber (Z.of_nat (String.length s))
              else VUndefined)
  | VArray elements =>
      Return (if String.eqb name "length" then VNumber (Z.of_nat (length elements))
              else VUndefined)
  | VBoolean _ | VNumber _ => Return VUndefined
  end.

(** [v > 0] for what a [length] can be: a number, or [undefined], which is
    not greater than anything. *)
Definition greater_than_zero (v : Value) : bool :=
  match v with
  | VNumber n => Z.ltb 0 n
  | _ => false
  end.

Section Is.

(** [Is.string] of utils/is.ts. *)
Variable Is_string : Value → bool.

(** [DocumentFilter.is] *)
Definition DocumentFilter_is (value : Value) : Outcome bool :=
  let candidate := value in
  match get candidate "language" with
  | Throw message => Throw message
  | Return language =>
      if Is_string language then Return true
      else
        match get candidate "scheme" with
        | Throw message => Throw message
        | Return scheme =>
            if Is_string scheme then Return true
            else
              match get candidate "pattern" with
              | Throw message => Throw message
              | Return pattern => Return (Is_string pattern)
              end
        end
  end.

(** The loop of [DocumentSelector.is]. *)
Fixpoint DocumentSelector_is_loop (value : list Value) : Outcome bool :=
  match value with
  | [] => Return true
  | elem :: value =>
      if Is_string elem then DocumentSelector_is_loop value
      else
        match DocumentFilter_is elem with
        | Throw message => Throw message
        | Return true => DocumentSelector_is_loop value
        | Return false => Return false
        end
  end.

(** [DocumentSelector.is] *)
Definition DocumentSelector_is (value : Value) : Outcome bool :=
  match value with
  | VArray elements => DocumentSelector_is_loop elements
  | _ => Return false
  end.

(** [TextDocumentRegistrationOptions.is]: [candidate && (...)] is the
    candidate itself when it is falsy. *)
Definition TextDocumentRegistrationOptions_is (value : Value) : Outcome Value :=
  let candidate := value in
  if negb (truthy candidate) then Return candidate
  else
    match get candidate "documentSelector" with
    | Throw message => Throw message
    | Return VNull => Return (VBoolean true)
    | Return documentSelector =>
        match DocumentSelector_is documentSelector with
        | Throw message => Throw message
        | Return result => Return (VBoolean result)
        end
    end.

(** [StaticRegistrationOptions.hasId] *)
Definition StaticRegistrationOptions_hasId (value : Value) : Outcome Value :=
  let candidate := value in
  if negb (truthy candidate) then Return candidate
  else
    match get candidate "id" with
    | Throw message => Throw message
    | Return id =>
        if negb (Is_string id) then Return (VBoolean false)
        else
          match get id "length" with
          | Throw message => Throw message
          | Return length => Return (VBoolean (greater_than_zero length))
          end
    end.

(** An element the loop of [DocumentSelector.is] passes over: a string, or
    a value [DocumentFilter.is] accepts. *)
Definition accepted (elem : Value) : Prop :=
  Is_string elem = true ∨ DocumentFilter_is elem = Return true.

End Is.

End Guards.

(** ** The change-parameter builder on any argument

    [asChangeTextDocumentParams] is declared for a document or a change
    event, but it inspects its argument as [any], and a caller that is not
    type-checked can hand it anything.  Here the same function is embedded
    over every JavaScript value, with the errors of the language itself. *)

Module Untyped.

(** What a call of a function does: it returns a value or throws one. *)
Inductive Call (A : Type) : Type :=
| Returns (a : A) : Call A
| Raises (a : A) : Call A.
Arguments Returns {A} a.
Arguments Raises {A} a.

(** A JavaScript value.  An object is the finite map of its own properties.
    A function is given by what a call of it does: the functions the
    builder calls get no argument ([getText], [toString]), or are a [map]
    put in place of the built-in one. *)
#[local] Unset Elimination Schemes.
Inductive Value : Type :=
| VUndefined
| VNull
| VBoolean (b : bool)
| VNumber (n : Z)
| VString (s : string)
| VArray (elements : list Value)
| VObject (properties : gmap string Value)
| VFunction (call : Call Value).
#[local] Set Elimination Schemes.

(** What is thrown, by who throws it: the language, when a property of
    [undefined] or [null] is read or something that is not a function is
    called; the builder, by its own [throw Error(message)]; a function the
    builder calls. *)
Inductive Thrown : Type :=
| TypeError
| Error (message : string)
| Foreign (v : Value).

Inductive Completion (A : Type) : Type :=
| Normal (a : A) : Completion A
| Abrupt (thrown : Thrown) : Completion A.
Arguments Normal {A} a.
Arguments Abrupt {A} thrown.

#[export] Instance Completion_bind : MBind Completion := λ A B f c,
  match c with
  | Normal a => f a
  | Abrupt thrown => Abrupt thrown
  end.

Definition truthy (v : Value) : bool :=
  match v with
  | VUndefined | VNull => false
  | VBoolean b => b
  | VNumber n => negb (Z.eqb n 0)
  | VString s => negb (String.eqb s "")
  | VArray _ | VObject _ | VFunction _ => true
  end.

Definition nullish (v : Value) : bool :=
  match v with
  | VUndefined | VNull => true
  | _ => false
  end.

(** [v.name] on a value that is neither [undefined] nor [null], for the
    names the builder reads ([uri], [version], [getText], [document],
    [contentChanges], [range], [start], [end], [line], [character],
    [rangeLength], [text], [toString] and [map] are own properties of an
    object or nothing; the [map] of an array and the inherited [toString]
    are dealt with where they are called). *)
Definition property (v : Value) (name : string) : Value :=
  match v with
  | VObject properties => default VUndefined (properties !! name)
  | _ => VUndefined
  end.

(** [v.name] *)
Definition get (v : Value) (name : string) : Completion Value :=
  if nullish v then Abrupt TypeError else Normal (property v name).

(** [f()] *)
Definition call (f : Value) : Completion Value :=
  match f with
  | VFunction (Returns v) => Normal v
  | VFunction (Raises v) => Abrupt (Foreign v)
  | _ => Abrupt TypeError
  end.

(** [Array.prototype.map], the callback run on each element in turn. *)
Fixpoint Array_map (callback : Value → Completion Value) (elements : list Value)
  : Completion (list Value) :=
  match elements with
  | [] => Normal []
  | element :: elements =>
      converted ← callback element;
      rest ← Array_map callback elements;
      Normal (converted :: rest)
  end.

(** [a.map(callback)]: the built-in of an array; on any other value the
    property [map] is called, if there is one. *)
Definition map (a : Value) (callback : Value → Completion Value) : Completion Value :=
  match a with
  | VArray elements =>
      converted ← Array_map callback elements;
      Normal (VArray converted)
  | _ =>
      f ← get a "map";
      call f
  end.

Section Builder.

(** The optional argument of [createConverter], and the [toString] that a
    value inherits when it has none of its own. *)
Variable uriConverter : option (Value → Call Value).
Variable toString : Value → string.

(** [(value) => value.toString()] *)
Definition nullConverter (value : Value) : Completion Value :=
  match value with
  | VUndefined | VNull => Abrupt TypeError
  | VObject properties =>
      match properties !! "toString" with
      | Some f => call f
      | None => Normal (VString (toString value))
      end
  | _ => Normal (VString (toString value))
  end.

(** [uriConverter || nullConverter] *)
Definition _uriConverter (value : Value) : Completion Value :=
  match uriConverter with
  | Some convert =>
      match convert value with
      | Returns v => Normal v
      | Raises v => Abrupt (Foreign v)
      end
  | None => nullConverter value
  end.

Definition isTextDocumentChangeEvent (value : Value) : Completion bool :=
  document ← get value "document";
  if truthy document then
    contentChanges ← get value "contentChanges";
    Normal (truthy contentChanges)
  else Normal false.

Definition isTextDocument (value : Value) : Completion bool :=
  uri ← get value "uri";
  if truthy uri then
    version ← get value "version";
    Normal (truthy version)
  else Normal false.

(** The callback of [arg.contentChanges.map]. *)
Definition asContentChange (change : Value) : Completion Value :=
  range ← get change "range";
  start ← get range "start";
  startLine ← get start "line";
  startCharacter ← get start "character";
  end_ ← get range "end";
  endLine ← get end_ "line";
  endCharacter ← get end_ "character";
  rangeLength ← get change "rangeLength";
  text ← get change "text";
  Normal (VObject {[
    "range" := VObject {[
      "start" := VObject {[ "line" := startLine; "character" := startCharacter ]};
      "end" := VObject {[ "line" := endLine; "character" := endCharacter ]} ]};
    "rangeLength" := rangeLength;
    "text" := text ]}).

Definition asChangeTextDocumentParams (arg : Value) : Completion Value :=
  match isTextDocument arg with
  | Abrupt thrown => Abrupt thrown
  | Normal true =>
      uri ← get arg "uri";
      uri ← _uriConverter uri;
      version ← get arg "version";
      getText ← get arg "getText";
      text ← call getText;
      Normal (VObject {[
        "textDocument" := VObject {[ "uri" := uri; "version" := version ]};
        "contentChanges" := VArray [VObject {[ "text" := text ]}] ]})
  | Normal false =>
      match isTextDocumentChangeEvent arg with
      | Abrupt thrown => Abrupt thrown
      | Normal true =>
          document ← get arg "document";
          uri ← get document "uri";
          uri ← _uriConverter uri;
          version ← get document "version";
          contentChanges ← get arg "contentChanges";
          contentChanges ← map contentChanges asContentChange;
          Normal (VObject {[
            "textDocument" := VObject {[ "uri" := uri; "version" := version ]};
            "contentChanges" := contentChanges ]})
      | Normal false => Abrupt (Error unsupported_change_parameter)
      end
  end.

End Builder.

(** *** The declared arguments among all values

    A document or a change event of the editor, as the value it is. *)

Definition ofUri (uri : code.Uri.t) : Value :=
  VObject {[ "toString" := VFunction (Returns (VString (code.Uri.toString uri))) ]}.

Definition ofPosition (position : code.Position.t) : Value :=
  VObject {[ "line" := VNumber (code.Position.line position);
             "character" := VNumber (code.Position.character position) ]}.

Definition ofRange (range : code.Range.t) : Value :=
  VObject {[ "start" := ofPosition (code.Range.start range);
             "end" := ofPosition (code.Range.end_ range) ]}.

Definition ofContentChange (change : code.TextDocumentContentChangeEvent.t) : Value :=
  VObject {[ "range" := ofRange (code.TextDocumentContentChangeEvent.range change);
             "rangeLength" := VNumber (code.TextDocumentContentChangeEvent.rangeLength change);
             "text" := VString (code.TextDocumentContentChangeEvent.text change) ]}.

Definition ofTextDocument (textDocument : code.TextDocument.t) : Value :=
  VObject {[ "uri" := ofUri (code.TextDocument.uri textDocument);
             "languageId" := VString (code.TextDocument.languageId textDocument);
             "version" := VNumber (code.TextDocument.version textDocument);
             "getText" := VFunction (Returns (VString (code.TextDocument.getText textDocument))) ]}.

(** A property that an object may lack. *)
Definition optional (name : string) (v : option Value) (properties : gmap string Value)
  : gmap string Value :=
  match v with
  | Some v => <[name := v]> properties
  | None => properties
  end.

Definition ofChangeArgument (arg : ChangeArgument.t) : Value :=
  VObject
    (optional "uri" (ofUri <$> ChangeArgument.uri arg)
       (optional "version" (VNumber <$> ChangeArgument.version arg)
          (optional "document" (ofTextDocument <$> ChangeArgument.document arg)
             (optional "contentChanges"
                ((λ changes, VArray (ofContentChange <$> changes))
                   <$> ChangeArgument.contentChanges arg)
                {[ "getText" := VFunction (Returns (VString (ChangeArgument.getText arg))) ]})))).

(** The wire parameters, as the object literal the builder returns. *)
Definition ofWirePosition (position : proto.Position.t) : Value :=
  VObject {[ "line" := VNumber (proto.Position.line position);
             "character" := VNumber (proto.Position.character position) ]}.

Definition ofWireRange (range : proto.Range.t) : Value :=
  VObject {[ "start" := ofWirePosition (proto.Range.start range);
             "end" := ofWirePosition (proto.Range.end_ range) ]}.

Definition ofWireContentChange (change : proto.TextDocumentContentChangeEvent.t) : Value :=
  VObject
    (optional "range" (ofWireRange <$> proto.TextDocumentContentChangeEvent.range change)
       (optional "rangeLength"
          (VNumber <$> proto.TextDocumentContentChangeEvent.rangeLength change)
          {[ "text" := VString (proto.TextDocumentContentChangeEvent.text change) ]})).

Definition ofParams (params : proto.DidChangeTextDocumentParams.t) : Value :=
  let textDocument := proto.DidChangeTextDocumentParams.textDocument params in
  VObject {[
    "textDocument" := VObject {[
      "uri" := VString (proto.VersionedTextDocumentIdentifier.uri textDocument);
      "version" := VNumber (proto.VersionedTextDocumentIdentifier.version textDocument) ]};
    "contentChanges" :=
      VArray (ofWireContentChange <$> proto.DidChangeTextDocumentParams.contentChanges params) ]}.

Definition ofOutcome (outcome : Outcome proto.DidChangeTextDocumentParams.t)
  : Completion Value :=
  match outcome with
  | Return params => Normal (ofParams params)
  | Throw message => Abrupt (Error message)
  end.
(** Only the builder's own [throw] gives an [Error]: nothing it reads or
    calls does. *)
Definition raises_no_Error {A} (c : Completion A) : Prop :=
  ∀ message, c ≠ Abrupt (Error message).

End Untyped.

(** ** Arrays as objects with an identity

    The converter above holds the arrays it rebuilds as lists, which is what
    the wire sees of them.  Whether a converted array is the editor's own
    array or a new one shows only when arrays have addresses.  Here the
    converters that are handed an array are embedded once more, every array
    at an address of a store; records are as above, except that a property
    that holds an array holds its address. *)

Module Arrays.

(** [code.Diagnostic] *)
Module Diagnostic.
Record t := mk {
  range : code.Range.t;
  message : string;
  severity : option Z;
  code : option (Z + string);
  tags : option loc;
  relatedInformation : option loc;
  source : option string }.
End Diagnostic.

(** [proto.Diagnostic] *)
Module WireDiagnostic.
Record t := mk {
  range : proto.Range.t;
  message : string;
  severity : option Z;
  code : option (Z + string);
  tags : option loc;
  relatedInformation : option loc;
  source : option string }.
(** [Diagnostic.create(range, message)] *)
Definition create (range : proto.Range.t) (message : string) : t :=
  mk range message None None None None None.
End WireDiagnostic.

(** The argument of [asChangeTextDocumentParams], as in [ChangeArgument]. *)
Module Argument.
Record t := mk {
  uri : option code.Uri.t;
  version : option Z;
  getText : string;
  document : option code.TextDocument.t;
  contentChanges : option loc }.
End Argument.

(** [proto.DidChangeTextDocumentParams] *)
Module DidChangeTextDocumentParams.
Record t := mk {
  textDocument : proto.VersionedTextDocumentIdentifier.t;
  contentChanges : loc }.
End DidChangeTextDocumentParams.

(** [code.CodeActionContext] *)
Module CodeActionContext.
Record t := mk { diagnostics : loc; only : option code.CodeActionKind.t }.
End CodeActionContext.

(** [proto.CodeActionContext] *)
Module WireCodeActionContext.
Record t := mk { diagnostics : loc; only : option loc }.
(** [CodeActionContext.create(diagnostics, only)] *)
Definition create (diagnostics : loc) (only : option loc) : t := mk diagnostics only.
End WireCodeActionContext.

(** The properties of a [code.CompletionItem] that hold an array; the
    others are converted by [asCompletionItem] above, whatever these are. *)
Module CompletionItem.
Record t := mk {
  additionalTextEdits : option loc;
  commitCharacters : option loc;
  command : option code.Command.t }.
End CompletionItem.

(** The same properties of the [proto.CompletionItem]. *)
Module WireCompletionItem.
Record t := mk {
  additionalTextEdits : option loc;
  commitCharacters : option loc;
  command : option proto.Command.t }.
End WireCompletionItem.

(** An array, by the type of its elements. *)
Inductive Cell : Type :=
| Anys (elements : list Any)
| Numbers (elements : list Z)
| Strings (elements : list string)
| Positions (elements : list code.Position.t)
| WirePositions (elements : list proto.Position.t)
| TextEdits (elements : list code.TextEdit.t)
| WireTextEdits (elements : list proto.TextEdit.t)
| ContentChanges (elements : list code.TextDocumentContentChangeEvent.t)
| WireContentChanges (elements : list proto.TextDocumentContentChangeEvent.t)
| RelatedInformations (elements : list code.DiagnosticRelatedInformation.t)
| WireRelatedInformations (elements : list proto.DiagnosticRelatedInformation.t)
| Diagnostics (elements : list Diagnostic.t)
| WireDiagnostics (elements : list WireDiagnostic.t).

(** The store: each live array has an address. *)
Abbreviation store := (gmap loc Cell).

(** [[...]], [a.map(f)] for a callback that makes no array, [a.slice()]:
    a new array at an address not yet in use. *)
Definition alloc (h : store) (cell : Cell) : loc * store :=
  let l := fresh (dom h) in (l, <[l := cell]> h).

(** [h] with the array at [a] changed or replaced by its owner. *)
Definition assign (h : store) (a : loc) (cell : Cell) : store := <[a := cell]> h.

(** The result array [r] is new and its own: its address was not in use
    before, it holds [cell], and it still does whatever is done to an array
    that existed before. *)
Definition fresh_array (h h' : store) (r : loc) (cell : Cell) : Prop :=
  (r ∉ dom h)
  ∧ h' !! r = Some cell
  ∧ ∀ a changed, a ∈ dom h → assign h' a changed !! r = Some cell.

(** [a.slice()] *)
Definition slice (h : store) (a : loc) : option (loc * store) :=
  cell ← h !! a;
  Some (alloc h cell).

(** [a.push(v)] on an array of positions and on an array of tags. *)
Definition push_WirePosition (h : store) (a : loc) (v : proto.Position.t) : store :=
  match h !! a with
  | Some (WirePositions elems) => <[a := WirePositions (elems ++ [v])]> h
  | _ => h
  end.

Definition push_Number (h : store) (a : loc) (v : Z) : store :=
  match h !! a with
  | Some (Numbers elems) => <[a := Numbers (elems ++ [v])]> h
  | _ => h
  end.

(** [a.map(callback)] for a callback that makes arrays itself: the calls,
    one element after the other. *)
Fixpoint Array_map {A B} (callback : A → store → option (B * store)) (elems : list A)
    (h : store) : option (list B * store) :=
  match elems with
  | [] => Some ([], h)
  | elem :: elems =>
      '(converted, h) ← callback elem h;
      '(rest, h) ← Array_map callback elems h;
      Some (converted :: rest, h)
  end.

(** Each converter takes the store and returns the store it leaves.  It
    returns [None] when an address it is handed does not hold an array of
    the declared element type, which a type-checked caller rules out. *)
Section Converter.

Variable uriConverter : option URIConverter.

Definition asPositions (value : loc) (h : store) : option (loc * store) :=
  match h !! value with
  | Some (Positions elems) =>
      let '(result, h) := alloc h (WirePositions []) in
      Some (result,
            foldl (λ h elem, push_WirePosition h result (asPosition_defined elem)) h elems)
  | _ => None
  end.

Definition asDiagnosticTags (tags : Nullable loc) (h : store) : option (option loc * store) :=
  match tags with
  | defined tags =>
      match h !! tags with
      | Some (Numbers elems) =>
          let '(result, h) := alloc h (Numbers []) in
          let h :=
            foldl (λ h tag,
                     match asDiagnosticTag tag with
                     | Some converted => push_Number h result converted
                     | None => h
                     end) h elems in
          match h !! result with
          | Some (Numbers converted) =>
              Some (if decide (0 < length converted)%nat then Some result else None, h)
          | _ => None
          end
      | _ => None
      end
  | _ => Some (None, h)
  end.

Definition asRelatedInformations (items : loc) (h : store) : option (loc * store) :=
  match h !! items with
  | Some (RelatedInformations elems) =>
      Some (alloc h (WireRelatedInformations (asRelatedInformation uriConverter <$> elems)))
  | _ => None
  end.

Definition asDiagnostic (item : Diagnostic.t) (h : store)
  : option (WireDiagnostic.t * store) :=
  let result :=
    WireDiagnostic.create (asRange_defined (Diagnostic.range item))
                          (Diagnostic.message item) in
  let severity :=
    match Diagnostic.severity item with
    | Some severity => asDiagnosticSeverity severity
    | None => WireDiagnostic.severity result
    end in
  let code :=
    match Diagnostic.code item with
    | Some code => Some code
    | None => WireDiagnostic.code result
    end in
  '(tags, h) ←
    match Diagnostic.tags item with
    | Some tags => asDiagnosticTags (defined tags) h
    | None => Some (WireDiagnostic.tags result, h)
    end;
  '(relatedInformation, h) ←
    match Diagnostic.relatedInformation item with
    | Some relatedInformation =>
        '(converted, h) ← asRelatedInformations relatedInformation h;
        Some (Some converted, h)
    | None => Some (WireDiagnostic.relatedInformation result, h)
    end;
  let source :=
    if truthy_string (Diagnostic.source item) then Diagnostic.source item
    else WireDiagnostic.source result in
  Some (WireDiagnostic.mk (WireDiagnostic.range result) (WireDiagnostic.message result)
                          severity code tags relatedInformation source,
        h).

(** [items.map(asDiagnostic)]: the array of the results is made first. *)
Definition asDiagnostics_defined (items : loc) (h : store) : option (loc * store) :=
  match h !! items with
  | Some (Diagnostics elems) =>
      let '(result, h) := alloc h (WireDiagnostics []) in
      '(converted, h) ← Array_map asDiagnostic elems h;
      Some (result, assign h result (WireDiagnostics converted))
  | _ => None
  end.

Definition asDiagnostics (items : Nullable loc) (h : store) : option (Nullable loc * store) :=
  match items with
  | undefined => Some (undefined, h)
  | null => Some (null, h)
  | defined items =>
      '(result, h) ← asDiagnostics_defined items h;
      Some (defined result, h)
  end.

Definition asTextEdits (edits : loc) (h : store) : option (loc * store) :=
  match h !! edits with
  | Some (TextEdits elems) => Some (alloc h (WireTextEdits (asTextEdit <$> elems)))
  | _ => None
  end.

Definition isTextDocumentChangeEvent (value : Argument.t) : bool :=
  truthy_object (Argument.document value)
  && truthy_object (Argument.contentChanges value).

Definition isTextDocument (value : Argument.t) : bool :=
  truthy_object (Argument.uri value)
  && truthy_number (Argument.version value).

Definition asChangeTextDocumentParams (arg : Argument.t) (h : store)
  : option (Outcome DidChangeTextDocumentParams.t * store) :=
  if isTextDocument arg then
    match Argument.uri arg, Argument.version arg with
    | Some uri, Some version =>
        let '(contentChanges, h) :=
          alloc h (WireContentChanges
                     [proto.TextDocumentContentChangeEvent.mk
                        None None (Argument.getText arg)]) in
        Some (Return (DidChangeTextDocumentParams.mk
                        (proto.VersionedTextDocumentIdentifier.mk
                           (_uriConverter uriConverter uri) version)
                        contentChanges),
              h)
    | _, _ => Some (Throw type_error, h)
    end
  else if isTextDocumentChangeEvent arg then
    match Argument.document arg, Argument.contentChanges arg with
    | Some document, Some contentChanges =>
        match h !! contentChanges with
        | Some (ContentChanges elems) =>
            let '(contentChanges, h) :=
              alloc h (WireContentChanges (asContentChange <$> elems)) in
            Some (Return (DidChangeTextDocumentParams.mk
                            (proto.VersionedTextDocumentIdentifier.mk
                               (_uriConverter uriConverter (code.TextDocument.uri document))
                               (code.TextDocument.version document))
                            contentChanges),
                  h)
        | _ => None
        end
    | _, _ => Some (Throw type_error, h)
    end
  else Some (Throw unsupported_change_parameter, h).

Definition asCodeActionContext (context : Nullable CodeActionContext.t) (h : store)
  : option (Nullable WireCodeActionContext.t * store) :=
  match context with
  | undefined => Some (undefined, h)
  | null => Some (null, h)
  | defined context =>
      let '(only, h) :=
        match CodeActionContext.only context with
        | Some only =>
            let '(only, h) := alloc h (Strings [code.CodeActionKind.value only]) in
            (Some only, h)
        | None => (None, h)
        end in
      '(diagnostics, h) ← asDiagnostics_defined (CodeActionContext.diagnostics context) h;
      Some (defined (WireCodeActionContext.create diagnostics only), h)
  end.

(** [asCompletionItem], the three statements that are handed an array. *)
Definition asCompletionItem (item : CompletionItem.t) (h : store)
  : option (WireCompletionItem.t * store) :=
  '(additionalTextEdits, h) ←
    match CompletionItem.additionalTextEdits item with
    | Some additionalTextEdits =>
        '(converted, h) ← asTextEdits additionalTextEdits h;
        Some (Some converted, h)
    | None => Some (None, h)
    end;
  '(commitCharacters, h) ←
    match CompletionItem.commitCharacters item with
    | Some commitCharacters =>
        '(copy, h) ← slice h commitCharacters;
        Some (Some copy, h)
    | None => Some (None, h)
    end;
  let command :=
    match CompletionItem.command item with
    | Some command => Some (asCommand command)
    | None => None
    end in
  Some (WireCompletionItem.mk additionalTextEdits commitCharacters command, h).
End Converter.

(** *** What the wire sees

    A record with each of its arrays read at its address; [None] when an
    address does not hold an array of the declared element type. *)

Definition read_optional {A} (read : loc → option A) (a : option loc) : option (option A) :=
  match a with
  | Some a => Some <$> read a
  | None => Some None
  end.

Definition numbers_at (h : store) (a : loc) : option (list Z) :=
  match h !! a with
  | Some (Numbers elems) => Some elems
  | _ => None
  end.

Definition relatedInformations_at (h : store) (a : loc)
  : option (list code.DiagnosticRelatedInformation.t) :=
  match h !! a with
  | Some (RelatedInformations elems) => Some elems
  | _ => None
  end.

Definition wireRelatedInformations_at (h : store) (a : loc)
  : option (list proto.DiagnosticRelatedInformation.t) :=
  match h !! a with
  | Some (WireRelatedInformations elems) => Some elems
  | _ => None
  end.

Definition read_Diagnostic (h : store) (item : Diagnostic.t) : option code.Diagnostic.t :=
  tags ← read_optional (numbers_at h) (Diagnostic.tags item);
  relatedInformation ←
    read_optional (relatedInformations_at h) (Diagnostic.relatedInformation item);
  Some (code.Diagnostic.mk (Diagnostic.range item) (Diagnostic.message item)
          (Diagnostic.severity item) (Diagnostic.code item) tags relatedInformation
          (Diagnostic.source item)).

Definition read_WireDiagnostic (h : store) (item : WireDiagnostic.t)
  : option proto.Diagnostic.t :=
  tags ← read_optional (numbers_at h) (WireDiagnostic.tags item);
  relatedInformation ←
    read_optional (wireRelatedInformations_at h) (WireDiagnostic.relatedInformation item);
  Some (proto.Diagnostic.mk (WireDiagnostic.range item) (WireDiagnostic.message item)
          (WireDiagnostic.severity item) (WireDiagnostic.code item) tags relatedInformation
          (WireDiagnostic.source item)).

(** The arrays a wire diagnostic holds. *)
Definition arrays_of (item : WireDiagnostic.t) : list loc :=
  option_list (WireDiagnostic.tags item)
  ++ option_list (WireDiagnostic.relatedInformation item).

Definition contentChanges_at (h : store) (a : loc)
  : option (list code.TextDocumentContentChangeEvent.t) :=
  match h !! a with
  | Some (ContentChanges elems) => Some elems
  | _ => None
  end.

Definition read_Argument (h : store) (arg : Argument.t) : option ChangeArgument.t :=
  contentChanges ← read_optional (contentChanges_at h) (Argument.contentChanges arg);
  Some (ChangeArgument.mk (Argument.uri arg) (Argument.version arg) (Argument.getText arg)
          (Argument.document arg) contentChanges).
End Arrays.

(** ** More sample values *)

Module MoreExamples.

Definition textDocument : code.TextDocument.t := Examples.textDocument "file:///a.txt" 3.

Definition position : code.Position.t := code.Position.mk 4 7.

(** An object that has the properties of a document and of a change event. *)
Definition bothShapes : ChangeArgument.t :=
  ChangeArgument.mk (Some (code.Uri.mk "file:///a.txt")) (Some 3) "abc"
    (Some textDocument) (Some []).

Definition related : code.DiagnosticRelatedInformation.t :=
  code.DiagnosticRelatedInformation.mk
    (code.Location.mk (code.Uri.mk "file:///b.txt") Examples.range) "declared here".

Definition diagnostic (severity : option Z) (source : option string)
    (relatedInformation : option (list code.DiagnosticRelatedInformation.t))
  : code.Diagnostic.t :=
  code.Diagnostic.mk Examples.range "unused" severity (Some (inl 0)) None
                     relatedInformation source.

Definition lens (data : option Any) : code.CodeLens.t :=
  code.CodeLens.mk Examples.range (Some Examples.command)
                   (Some (code.ProtocolCodeLens.mk data)).

Definition link (data : option Any) : code.DocumentLink.t :=
  code.DocumentLink.mk Examples.range (Some (code.Uri.mk "file:///b.txt"))
                       (Some (code.ProtocolDocumentLink.mk data)).

(** A completion item the wire-to-host converter made, with resolve data
    [0] and the given documentation. *)
Definition resolved (format : option string) (documentation : option code.Documentation)
  : code.CompletionItem.t :=
  code.CompletionItem.mk "foo" None (Some "") documentation (Some "0001") None (Some false)
    None None None (Some [code.TextEdit.mk Examples.range "import foo"]) None None
    (Some (code.ProtocolCompletionItem.mk (Some (AnyNumber 0)) None format None None)).

(** Stand-ins for what the platform provides. [parse] reads uris of the
    form [file://path]; [decodeURIComponent] rejects a lone [%]; the other
    three leave a string as it is. *)
Definition parse (uri : string) : Files.Url.t :=
  if String.prefix "file://" uri
  then Files.Url.mk (Some "file:") (Some (String.substring 7 (String.length uri - 7) uri))
  else Files.Url.mk (Some "http:") None.

Definition decodeURIComponent (text : string) : Outcome string :=
  if String.eqb text "%" then Throw "URIError" else Return text.

Definition unchanged (text : string) : string := text.

Definition linux : Files.Process.t :=
  Files.Process.mk "linux" "/srv/files.js" (λ _, false).

Definition windows : Files.Process.t :=
  Files.Process.mk "win32" "c:\\srv\\files.js" (λ _, true).

(** [typeof value === 'string'] *)
Definition Is_string (value : Guards.Value) : bool :=
  match value with Guards.VString _ => true | _ => false end.


(** The inherited [toString], as far as the examples need it. *)
Definition inherited (v : Untyped.Value) : string :=
  match v with
  | Untyped.VString s => s
  | _ => "[object Object]"
  end.

(** A document at version 3 and the same document at version 0, as values. *)
Definition snapshot : Untyped.Value :=
  Untyped.ofChangeArgument
    (ChangeArgument.ofTextDocument (Examples.textDocument "file:///a.txt" 3)).

Definition versionZero : Untyped.Value :=
  Untyped.ofChangeArgument
    (ChangeArgument.ofTextDocument (Examples.textDocument "file:///a.txt" 0)).

(** [{ uri: 'file:///a.txt', version: 1 }]: recognised as a document, but
    without [getText]. *)
Definition noGetText : Untyped.Value :=
  Untyped.VObject {[ "uri" := Untyped.VString "file:///a.txt";
                     "version" := Untyped.VNumber 1 ]}.

(** An event whose [contentChanges] is the string ['x']. *)
Definition notAnArray : Untyped.Value :=
  Untyped.VObject {[
    "document" := Untyped.ofTextDocument (Examples.textDocument "file:///a.txt" 3);
    "contentChanges" := Untyped.VString "x" ]}.

(** A diagnostic whose tags are the array at 5 and whose related
    information is the array at 6. *)
Definition flagged : Arrays.Diagnostic.t :=
  Arrays.Diagnostic.mk Examples.range "unused" (Some 1) None (Some 5%positive)
                       (Some 6%positive) None.

(** The editor's arrays: commit characters at 1, the arguments of a command
    at 2, text edits at 3, content changes at 4, tags at 5, related
    information at 6, diagnostics at 7. *)
Definition store : Arrays.store :=
  <[7%positive := Arrays.Diagnostics [flagged]]>
    (<[6%positive := Arrays.RelatedInformations
                       [code.DiagnosticRelatedInformation.mk
                          (code.Location.mk (code.Uri.mk "file:///b.txt") Examples.range)
                          "declared here"]]>
       (<[5%positive := Arrays.Numbers [1; 5; 2]]>
          (<[4%positive := Arrays.ContentChanges
                             (code.TextDocumentChangeEvent.contentChanges Examples.twoEdits)]>
             (<[3%positive := Arrays.TextEdits [code.TextEdit.mk Examples.range "x"]]>
                (<[2%positive := Arrays.Anys [AnyNumber 1]]>
                   {[1%positive := Arrays.Anys [AnyString "."]]}))))).

(** An item with additional text edits, commit characters and a command. *)
Definition withThreeArrays : Arrays.CompletionItem.t :=
  Arrays.CompletionItem.mk (Some 3%positive) (Some 1%positive) (Some Examples.command).

(** A change event whose [contentChanges] is the array at 4. *)
Definition changeEvent : Arrays.Argument.t :=
  Arrays.Argument.mk None None ""
    (Some (code.TextDocumentChangeEvent.document Examples.twoEdits)) (Some 4%positive).

End MoreExamples.

(** ** Properties *)

Section Properties.

Variable uriConverter : option URIConverter.

(** *** Absent values *)

(** C7. [asPosition], [asRange] and [asLocation] hand [undefined] back as
    [undefined] and [null] as [null]; neither becomes a constructed
    value. *)
Theorem absent_passes_through :
  asPosition undefined = undefined ∧ asPosition null = null
  ∧ asRange undefined = undefined ∧ asRange null = null
  ∧ asLocation uriConverter undefined = undefined
  ∧ asLocation uriConverter null = null.
Proof. by repeat split. Qed.

(** *** Diagnostic tags *)

Lemma asDiagnosticTags_loop (result tags : list Z) :
  foldl asDiagnosticTags_step result tags = result ++ omap asDiagnosticTag tags.
Proof.
  revert result. induction tags as [|tag tags IH]; intros result; simpl.
  - by rewrite app_nil_r.
  - rewrite IH. unfold asDiagnosticTags_step.
    destruct (asDiagnosticTag tag); [by rewrite <- app_assoc | done].
Qed.

Lemma asDiagnosticTag_allowed (tags : list Z) :
  omap asDiagnosticTag tags = Spec.wireTag <$> filter Spec.allowedTag tags.
Proof.
  induction tags as [|tag tags IH]; [done|].
  rewrite filter_cons. cbn [omap list_omap]. rewrite IH.
  unfold asDiagnosticTag, Spec.wireTag, Spec.allowedTag.
  destruct (decide (tag = code.DiagnosticTag.Unnecessary)) as [->|Hu].
  - rewrite decide_True by (by left). done.
  - destruct (decide (tag = code.DiagnosticTag.Deprecated)) as [->|Hd].
    + rewrite decide_True by (by right). done.
    + rewrite decide_False by (by intros [?|?]). done.
Qed.

Lemma asDiagnosticTags_defined (tags : list Z) :
  asDiagnosticTags (defined tags) =
    match filter Spec.allowedTag tags with
    | [] => None
    | kept => Some (Spec.wireTag <$> kept)
    end.
Proof.
  unfold asDiagnosticTags.
  rewrite asDiagnosticTags_loop, asDiagnosticTag_allowed. simpl.
  destruct (filter Spec.allowedTag tags) as [|tag kept]; [done|].
  rewrite decide_True; [done|]. rewrite fmap_cons, length_cons. lia.
Qed.

(** C5. When a diagnostic has a tags list, its wire form keeps exactly the
    tags [Unnecessary] and [Deprecated], each as its wire value and in the
    order given; every other tag is dropped; and when nothing is kept the
    wire diagnostic has no [tags] at all, not an empty list. *)
Theorem asDiagnostic_tags (item : code.Diagnostic.t) (tags : list Z) :
  code.Diagnostic.tags item = Some tags →
  let kept := filter Spec.allowedTag tags in
  Spec.wireTag code.DiagnosticTag.Unnecessary = proto.DiagnosticTag.Unnecessary
  ∧ Spec.wireTag code.DiagnosticTag.Deprecated = proto.DiagnosticTag.Deprecated
  ∧ (kept ≠ [] →
     proto.Diagnostic.tags (asDiagnostic uriConverter item) = Some (Spec.wireTag <$> kept))
  ∧ (kept = [] → proto.Diagnostic.tags (asDiagnostic uriConverter item) = None).
Proof.
  intros Htags kept. split; [done|]. split; [done|].
  unfold asDiagnostic. cbn [proto.Diagnostic.tags]. rewrite Htags.
  rewrite asDiagnosticTags_defined. fold kept.
  destruct kept; split; intros; done.
Qed.

(** *** Completion items *)

(** What [fillPrimaryInsertText] leaves alone. *)
Lemma fillPrimaryInsertText_frame target source :
  let result := fillPrimaryInsertText target source in
  proto.CompletionItem.label result = proto.CompletionItem.label target
  ∧ proto.CompletionItem.kind result = proto.CompletionItem.kind target
  ∧ proto.CompletionItem.commitCharacters result = proto.CompletionItem.commitCharacters target
  ∧ proto.CompletionItem.command result = proto.CompletionItem.command target.
Proof. unfold fillPrimaryInsertText. repeat case_match; by simpl. Qed.

(** What it writes, on a target that has neither text property yet. *)
Lemma fillPrimaryInsertText_writes target source :
  proto.CompletionItem.insertText target = None →
  proto.CompletionItem.textEdit target = None →
  let result := fillPrimaryInsertText target source in
  let emit_edit :=
    truthy_boolean (fromEdit source)
    && truthy_string (Spec.insertionText source)
    && truthy_object (Spec.targetRange source) in
  proto.CompletionItem.insertTextFormat result =
    Some (match code.CompletionItem.textEdit source, code.CompletionItem.insertText source with
          | None, Some (code.SnippetInsertText _) => proto.Snippet
          | _, _ => proto.PlainText
          end)
  ∧ proto.CompletionItem.textEdit result =
      (if emit_edit
       then match Spec.targetRange source, Spec.insertionText source with
            | Some range, Some text => Some (proto.TextEdit.mk (asRange_defined range) text)
            | _, _ => None
            end
       else None)
  ∧ proto.CompletionItem.insertText result =
      (if emit_edit then None else Spec.insertionText source).
Proof.
  intros Htext Hedit. unfold fillPrimaryInsertText, Spec.insertionText, Spec.targetRange.
  destruct (code.CompletionItem.textEdit source) as [textEdit|];
    destruct (code.CompletionItem.insertText source) as [[text|snippet]|];
    destruct (code.CompletionItem.range source) as [range|];
    destruct (truthy_boolean (fromEdit source)); simpl;
    rewrite ?andb_true_r, ?andb_false_r;
    repeat case_match; simpl in *; try done; try congruence.
Qed.

(** The steps of [asCompletionItem] around [fillPrimaryInsertText]: those
    before it write neither text property, those after it leave the three
    properties it writes alone. *)
Lemma asCompletionItem_primary item h :
  ∃ target,
    proto.CompletionItem.insertText target = None
    ∧ proto.CompletionItem.textEdit target = None
    ∧ let result := (asCompletionItem item h).1 in
      let filled := fillPrimaryInsertText target item in
      proto.CompletionItem.insertTextFormat result = proto.CompletionItem.insertTextFormat filled
      ∧ proto.CompletionItem.textEdit result = proto.CompletionItem.textEdit filled
      ∧ proto.CompletionItem.insertText result = proto.CompletionItem.insertText filled.
Proof.
  unfold asCompletionItem. cbv zeta.
  match goal with |- context [fillPrimaryInsertText ?t item] => exists t end.
  split; [repeat case_match; by simpl|]. split; [repeat case_match; by simpl|].
  match goal with |- context [fillPrimaryInsertText ?t item] =>
    generalize (fillPrimaryInsertText t item) end.
  intros filled. repeat case_match; simplify_eq; by simpl.
Qed.

(** The properties written outside [fillPrimaryInsertText], and the heap. *)
Lemma asCompletionItem_rest item h :
  let result := (asCompletionItem item h).1 in
  proto.CompletionItem.kind result =
    (λ kind, asCompletionItemKind kind
               (code.CompletionItem.protocolItem item
                  ≫= code.ProtocolCompletionItem.originalItemKind))
      <$> code.CompletionItem.kind item
  ∧ proto.CompletionItem.command result = asCommand <$> code.CompletionItem.command item
  ∧ proto.CompletionItem.commitCharacters result =
      (λ a, (slice h a).1) <$> code.CompletionItem.commitCharacters item
  ∧ (asCompletionItem item h).2 =
      from_option (λ a, (slice h a).2) h (code.CompletionItem.commitCharacters item).
Proof.
  unfold asCompletionItem. cbv zeta.
  match goal with |- context [fillPrimaryInsertText ?t item] =>
    assert (proto.CompletionItem.kind (fillPrimaryInsertText t item) = None
            ∧ proto.CompletionItem.commitCharacters (fillPrimaryInsertText t item) = None
            ∧ proto.CompletionItem.command (fillPrimaryInsertText t item) = None)
      as Hfilled
      by (destruct (fillPrimaryInsertText_frame t item) as (_ & -> & -> & ->);
          repeat case_match; by simpl);
    revert Hfilled; generalize (fillPrimaryInsertText t item)
  end.
  intros filled (Hkind & Hcommit & Hcommand).
  repeat case_match; unfold slice, alloc in *; simplify_eq; simpl;
    by rewrite ?Hkind, ?Hcommit, ?Hcommand.
Qed.

(** *** The heap *)

Lemma push_lookup_ne (h : heap) (a l : loc) (v : Any) :
  a ≠ l → push h a v !! l = h !! l.
Proof.
  intros Hne. unfold push. destruct (h !! a); [|done]. by rewrite lookup_insert_ne.
Qed.

(** *** Document changes *)

(** The two branches only read properties their recogniser has seen. *)
Lemma asChangeTextDocumentParams_no_TypeError arg :
  asChangeTextDocumentParams uriConverter arg ≠ Throw type_error.
Proof.
  unfold asChangeTextDocumentParams, isTextDocument, isTextDocumentChangeEvent.
  destruct (ChangeArgument.uri arg), (ChangeArgument.version arg),
    (ChangeArgument.document arg), (ChangeArgument.contentChanges arg);
    simpl; repeat case_match; done.
Qed.

(** Recognition, property by property. *)
Lemma isTextDocument_false arg :
  isTextDocument arg = false ↔
    ChangeArgument.uri arg = None
    ∨ ChangeArgument.version arg = None
    ∨ ChangeArgument.version arg = Some 0.
Proof.
  unfold isTextDocument.
  destruct (ChangeArgument.uri arg), (ChangeArgument.version arg) as [version|]; simpl.
  - destruct (Z.eqb_spec version 0) as [->|Hne]; simpl.
    + split; [by right; right | done].
    + split; [done|]. intros [?|[?|?]]; congruence.
  - split; [by right; left | done].
  - split; [by left | done].
  - split; [by left | done].
Qed.

Lemma isTextDocumentChangeEvent_false arg :
  isTextDocumentChangeEvent arg = false ↔
    ChangeArgument.document arg = None ∨ ChangeArgument.contentChanges arg = None.
Proof.
  unfold isTextDocumentChangeEvent.
  destruct (ChangeArgument.document arg), (ChangeArgument.contentChanges arg);
    simpl; (split; [first [done | by left | by right] | by intros [?|?]]).
Qed.

Lemma isTextDocument_true_fields arg :
  isTextDocument arg = true →
  ∃ uri version,
    ChangeArgument.uri arg = Some uri
    ∧ ChangeArgument.version arg = Some version
    ∧ version ≠ 0.
Proof.
  unfold isTextDocument.
  destruct (ChangeArgument.uri arg) as [uri|],
    (ChangeArgument.version arg) as [version|]; simpl; try done.
  destruct (Z.eqb_spec version 0); [done|]. eauto.
Qed.

Lemma asChangeTextDocumentParams_throws arg :
  asChangeTextDocumentParams uriConverter arg = Throw unsupported_change_parameter ↔
    isTextDocument arg = false ∧ isTextDocumentChangeEvent arg = false.
Proof.
  unfold asChangeTextDocumentParams.
  destruct (isTextDocument arg) eqn:Hdocument.
  - split; [|by intros [? _]].
    apply isTextDocument_true_fields in Hdocument as (uri & version & -> & -> & _). done.
  - destruct (isTextDocumentChangeEvent arg) eqn:Hevent; [|done].
    split; [|by intros [_ ?]].
    unfold isTextDocumentChangeEvent in Hevent.
    destruct (ChangeArgument.document arg), (ChangeArgument.contentChanges arg); done.
Qed.

(** C3, as the code has it. A document whose version is not [0] yields
    exactly one content change, [{text: getText()}], with neither [range]
    nor [rangeLength]. A change event with n edits yields n content
    changes, the i-th carrying the range, the rangeLength and the text of
    the i-th edit. *)
Theorem asChangeTextDocumentParams_two_shapes :
  (∀ textDocument : code.TextDocument.t,
     code.TextDocument.version textDocument ≠ 0 →
     asChangeTextDocumentParams uriConverter (ChangeArgument.ofTextDocument textDocument) =
       Return (proto.DidChangeTextDocumentParams.mk
                 (proto.VersionedTextDocumentIdentifier.mk
                    (_uriConverter uriConverter (code.TextDocument.uri textDocument))
                    (code.TextDocument.version textDocument))
                 [proto.TextDocumentContentChangeEvent.mk
                    None None (code.TextDocument.getText textDocument)]))
  ∧ (∀ event : code.TextDocumentChangeEvent.t,
       ∃ params,
         asChangeTextDocumentParams uriConverter
           (ChangeArgument.ofTextDocumentChangeEvent event) = Return params
         ∧ length (proto.DidChangeTextDocumentParams.contentChanges params)
           = length (code.TextDocumentChangeEvent.contentChanges event)
         ∧ ∀ (i : nat) change,
             code.TextDocumentChangeEvent.contentChanges event !! i = Some change →
             proto.DidChangeTextDocumentParams.contentChanges params !! i =
               Some (proto.TextDocumentContentChangeEvent.mk
                       (Some (asRange_defined
                                (code.TextDocumentContentChangeEvent.range change)))
                       (Some (code.TextDocumentContentChangeEvent.rangeLength change))
                       (code.TextDocumentContentChangeEvent.text change))).
Proof.
  split.
  - intros textDocument Hversion.
    unfold asChangeTextDocumentParams, isTextDocument. simpl.
    by destruct (Z.eqb_spec (code.TextDocument.version textDocument) 0).
  - intros event. eexists. split; [reflexivity|]. simpl. split.
    + by rewrite length_fmap.
    + intros i change Hi. by rewrite list_lookup_fmap, Hi.
Qed.

(** On an argument of the declared types, a document or a change event of
    the editor. The call throws [Unsupported text document change
    parameter] exactly when the argument's [uri] or [version] is falsy
    (missing, or a version of [0]) and its [document] or [contentChanges] is
    missing; on every other such argument it returns. What it does on any
    value at all is settled on [Untyped.asChangeTextDocumentParams]. *)
Theorem asChangeTextDocumentParams_throws_iff (arg : ChangeArgument.t) :
  let unrecognised :=
    (ChangeArgument.uri arg = None
     ∨ ChangeArgument.version arg = None
     ∨ ChangeArgument.version arg = Some 0)
    ∧ (ChangeArgument.document arg = None ∨ ChangeArgument.contentChanges arg = None) in
  (asChangeTextDocumentParams uriConverter arg = Throw unsupported_change_parameter
   ↔ unrecognised)
  ∧ ((∃ params, asChangeTextDocumentParams uriConverter arg = Return params)
     ↔ ¬ unrecognised)
  ∧ ∀ message, asChangeTextDocumentParams uriConverter arg = Throw message →
      message = unsupported_change_parameter.
Proof.
  intros unrecognised. subst unrecognised.
  rewrite <- isTextDocument_false, <- isTextDocumentChangeEvent_false.
  rewrite <- asChangeTextDocumentParams_throws.
  pose proof (asChangeTextDocumentParams_no_TypeError arg) as Hno.
  assert (∀ message, asChangeTextDocumentParams uriConverter arg = Throw message →
                     message = unsupported_change_parameter) as Hmessage.
  { intros message. unfold asChangeTextDocumentParams in *.
    repeat case_match; intros; simplify_eq; done. }
  split; [done|]. split; [|done].
  destruct (asChangeTextDocumentParams uriConverter arg) as [params|message] eqn:Hcall.
  - split; [done | eauto].
  - rewrite (Hmessage message eq_refl). split; [by intros [? ?] | by intros []].
Qed.

(** C9, as the code has it. A text document whose version is [0] is not
    recognised as a document and, having no [contentChanges], makes the
    call throw; so does any argument without [contentChanges] whose [uri]
    is missing or whose [version] is missing or [0]. What the uri prints
    as plays no part: a document with any other version is recognised. *)
Theorem asChangeTextDocumentParams_version_zero :
  (∀ textDocument : code.TextDocument.t,
     code.TextDocument.version textDocument = 0 →
     isTextDocument (ChangeArgument.ofTextDocument textDocument) = false
     ∧ asChangeTextDocumentParams uriConverter (ChangeArgument.ofTextDocument textDocument)
       = Throw unsupported_change_parameter)
  ∧ (∀ arg : ChangeArgument.t,
       ChangeArgument.contentChanges arg = None →
       truthy_object (ChangeArgument.uri arg) = false
       ∨ truthy_number (ChangeArgument.version arg) = false →
       asChangeTextDocumentParams uriConverter arg = Throw unsupported_change_parameter)
  ∧ (∀ textDocument : code.TextDocument.t,
       code.TextDocument.version textDocument ≠ 0 →
       isTextDocument (ChangeArgument.ofTextDocument textDocument) = true).
Proof.
  split; [|split].
  - intros textDocument Hversion.
    unfold asChangeTextDocumentParams, isTextDocument. simpl. by rewrite Hversion.
  - intros arg Hchanges Hfalsy. apply asChangeTextDocumentParams_throws. split.
    + unfold isTextDocument. destruct Hfalsy as [-> | ->]; [done | apply andb_false_r].
    + unfold isTextDocumentChangeEvent. rewrite Hchanges. apply andb_false_r.
  - intros textDocument Hversion. unfold isTextDocument. simpl.
    by destruct (Z.eqb_spec (code.TextDocument.version textDocument) 0).
Qed.

(** *** The insertion text of a completion item *)

Lemma truthy_string_Some (text : string) :
  truthy_string (Some text) = true ↔ text ≠ "".
Proof.
  simpl. destruct (String.eqb_spec text ""); simpl; split; intros; congruence.
Qed.

Lemma emittedAsEdit_decide item :
  truthy_boolean (fromEdit item)
  && truthy_string (Spec.insertionText item)
  && truthy_object (Spec.targetRange item) = true
  ↔ Spec.emittedAsEdit item.
Proof.
  unfold Spec.emittedAsEdit. rewrite !andb_true_iff. split.
  - intros [[Hflag Htext] Hrange]. split; [|split].
    + by destruct (fromEdit item) as [[]|].
    + destruct (Spec.insertionText item) as [text|]; [|done].
      exists text. split; [done|]. by apply truthy_string_Some.
    + by destruct (Spec.targetRange item).
  - intros (Hflag & (text & Htext & Hne) & [range Hrange]).
    rewrite Hflag, Htext, Hrange. repeat split. by apply truthy_string_Some.
Qed.

Lemma emittedAsEdit_dec item : Spec.emittedAsEdit item ∨ ¬ Spec.emittedAsEdit item.
Proof.
  rewrite <- emittedAsEdit_decide.
  destruct (truthy_boolean (fromEdit item)
            && truthy_string (Spec.insertionText item)
            && truthy_object (Spec.targetRange item)); [by left | by right].
Qed.

(** The two text properties of the converted item, in one statement. *)
Lemma asCompletionItem_text item h :
  let result := (asCompletionItem item h).1 in
  (Spec.emittedAsEdit item →
     ∃ text range,
       Spec.insertionText item = Some text
       ∧ Spec.targetRange item = Some range
       ∧ proto.CompletionItem.textEdit result
         = Some (proto.TextEdit.mk (asRange_defined range) text)
       ∧ proto.CompletionItem.insertText result = None)
  ∧ (¬ Spec.emittedAsEdit item →
       proto.CompletionItem.textEdit result = None
       ∧ proto.CompletionItem.insertText result = Spec.insertionText item).
Proof.
  cbv zeta.
  destruct (asCompletionItem_primary item h) as (target & Htext & Hedit & Hprimary).
  cbv zeta in Hprimary. destruct Hprimary as (_ & -> & ->).
  pose proof (fillPrimaryInsertText_writes target item Htext Hedit) as Hwrites.
  cbv zeta in Hwrites. destruct Hwrites as (_ & -> & ->).
  split.
  - intros Hemit. pose proof Hemit as (_ & (text & Hchosen & _) & [range Hrange]).
    apply emittedAsEdit_decide in Hemit. rewrite Hemit.
    exists text, range. by rewrite Hchosen, Hrange.
  - intros Hno. rewrite <- emittedAsEdit_decide in Hno.
    by apply not_true_is_false in Hno as ->.
Qed.

(** C1, as the code has it. The text the wire item inserts is chosen by
    precedence: the [newText] of a text-edit override if there is one,
    else the literal text of a snippet, else the plain insertion string.
    When the item has none of the three, the wire item has neither
    [insertText] nor [textEdit]: the label is not used. *)
Theorem insertion_text_precedence (item : code.CompletionItem.t) (h : heap) :
  let result := (asCompletionItem item h).1 in
  Spec.insertedText result = Spec.insertionText item
  ∧ (code.CompletionItem.textEdit item = None →
     code.CompletionItem.insertText item = None →
     proto.CompletionItem.insertText result = None
     ∧ proto.CompletionItem.textEdit result = None).
Proof.
  intros result. destruct (asCompletionItem_text item h) as [Hedit Hbare]. fold result in Hedit, Hbare.
  assert (Spec.insertedText result = Spec.insertionText item) as Hinserted.
  { unfold Spec.insertedText. destruct (emittedAsEdit_dec item) as [Hemit|Hno].
    - destruct (Hedit Hemit) as (text & range & -> & _ & -> & _). done.
    - destruct (Hbare Hno) as [-> ->]. done. }
  split; [done|]. intros Hno_edit Hno_text.
  assert (Spec.insertionText item = None) as Hnone
    by (unfold Spec.insertionText; by rewrite Hno_edit, Hno_text).
  destruct Hbare as [Hno_wire_edit Hbare_text].
  { intros (_ & (text & Htext & _) & _). congruence. }
  by rewrite Hbare_text, Hnone.
Qed.

(** What the guard [source.fromEdit && text && range] lets through. The
    range is the item's own range when it has one, else the range of the
    text-edit override. The wire item carries [textEdit = {range, newText}]
    and no [insertText] exactly when the item is flagged [fromEdit], the
    chosen text is truthy and there is a range; otherwise it carries the
    chosen text as [insertText] and no [textEdit].  The guard tests the text
    for truthiness where the emission rule asks for its presence, and the two
    part at the empty text of a deletion. *)
Theorem structured_edit_iff (item : code.CompletionItem.t) (h : heap) :
  let result := (asCompletionItem item h).1 in
  (∀ range, code.CompletionItem.range item = Some range →
     Spec.targetRange item = Some range)
  ∧ (is_Some (proto.CompletionItem.textEdit result) ↔ Spec.emittedAsEdit item)
  ∧ (∀ text range,
       Spec.emittedAsEdit item →
       Spec.insertionText item = Some text →
       Spec.targetRange item = Some range →
       proto.CompletionItem.textEdit result
         = Some (proto.TextEdit.mk (asRange_defined range) text)
       ∧ proto.CompletionItem.insertText result = None)
  ∧ (proto.CompletionItem.textEdit result = None →
     proto.CompletionItem.insertText result = Spec.insertionText item).
Proof.
  intros result. destruct (asCompletionItem_text item h) as [Hedit Hbare]. fold result in Hedit, Hbare.
  split; [|split; [|split]].
  - intros range Hrange. unfold Spec.targetRange. by rewrite Hrange.
  - split.
    + intros Hsome. destruct (emittedAsEdit_dec item) as [|Hno]; [done|].
      destruct (Hbare Hno) as [Hnone _]. rewrite Hnone in Hsome. by destruct Hsome.
    + intros Hemit. destruct (Hedit Hemit) as (text & range & _ & _ & -> & _). eauto.
  - intros text range Hemit Htext Hrange.
    destruct (Hedit Hemit) as (text' & range' & Htext' & Hrange' & -> & ->).
    by simplify_eq.
  - intros Hnone. destruct (emittedAsEdit_dec item) as [Hemit|Hno].
    + destruct (Hedit Hemit) as (text & range & _ & _ & Hsome & _). congruence.
    + by destruct (Hbare Hno).
Qed.

Lemma asCompletionItem_insertTextFormat item h :
  proto.CompletionItem.insertTextFormat (asCompletionItem item h).1 =
    Some (match code.CompletionItem.textEdit item, code.CompletionItem.insertText item with
          | None, Some (code.SnippetInsertText _) => proto.Snippet
          | _, _ => proto.PlainText
          end).
Proof.
  destruct (asCompletionItem_primary item h) as (target & Htext & Hedit & Hprimary).
  cbv zeta in Hprimary. destruct Hprimary as (-> & _).
  pose proof (fillPrimaryInsertText_writes target item Htext Hedit) as Hwrites.
  cbv zeta in Hwrites. by destruct Hwrites as (-> & _).
Qed.

(** Without an override, the emission rule reads off the item directly. *)
Lemma emittedAsEdit_without_override item text :
  code.CompletionItem.textEdit item = None →
  Spec.insertionText item = Some text →
  Spec.emittedAsEdit item ↔
    fromEdit item = Some true ∧ text ≠ "" ∧ is_Some (code.CompletionItem.range item).
Proof.
  intros Hno_edit Htext. unfold Spec.emittedAsEdit, Spec.targetRange.
  rewrite Htext, Hno_edit. simpl.
  assert (is_Some (match code.CompletionItem.range item with
                   | Some range => Some range
                   | None => None
                   end) ↔ is_Some (code.CompletionItem.range item)) as ->
    by (by destruct (code.CompletionItem.range item)).
  split.
  - intros (Hflag & (text' & Heq & Hne) & Hrange). by simplify_eq.
  - intros (Hflag & Hne & Hrange). eauto.
Qed.

Lemma text_without_override item h text :
  code.CompletionItem.textEdit item = None →
  Spec.insertionText item = Some text →
  let result := (asCompletionItem item h).1 in
  let flagged :=
    fromEdit item = Some true ∧ text ≠ "" ∧ is_Some (code.CompletionItem.range item) in
  (¬ flagged →
     proto.CompletionItem.insertText result = Some text
     ∧ proto.CompletionItem.textEdit result = None)
  ∧ (flagged →
     proto.CompletionItem.insertText result = None
     ∧ ∃ range,
         code.CompletionItem.range item = Some range
         ∧ proto.CompletionItem.textEdit result
           = Some (proto.TextEdit.mk (asRange_defined range) text)).
Proof.
  intros Hno_edit Htext result flagged.
  destruct (asCompletionItem_text item h) as [Hedit Hbare]. fold result in Hedit, Hbare.
  pose proof (emittedAsEdit_without_override item text Hno_edit Htext) as Hiff.
  fold flagged in Hiff. split.
  - intros Hno. rewrite <- Hiff in Hno. destruct (Hbare Hno) as [-> ->]. done.
  - intros Hflagged. apply Hiff in Hflagged.
    destruct (Hedit Hflagged) as (text' & range & Htext' & Hrange & -> & ->).
    split; [done|]. exists range.
    unfold Spec.targetRange in Hrange. rewrite Hno_edit in Hrange.
    destruct (code.CompletionItem.range item); by simplify_eq.
Qed.

(** C8, as the code has it. On an item without a text-edit override, a
    snippet payload gives the format [Snippet] and a plain string the
    format [PlainText], and the payload's text goes out verbatim: as
    [insertText] with no [textEdit], unless the item is flagged [fromEdit],
    has a range of its own and the text is not empty, in which case it
    goes out as [textEdit = {range, newText}] with no [insertText]. *)
Theorem payload_without_override (item : code.CompletionItem.t) (h : heap) :
  code.CompletionItem.textEdit item = None →
  let result := (asCompletionItem item h).1 in
  let flagged text :=
    fromEdit item = Some true ∧ text ≠ "" ∧ is_Some (code.CompletionItem.range item) in
  let bare text :=
    proto.CompletionItem.insertText result = Some text
    ∧ proto.CompletionItem.textEdit result = None in
  let structured text :=
    proto.CompletionItem.insertText result = None
    ∧ ∃ range,
        code.CompletionItem.range item = Some range
        ∧ proto.CompletionItem.textEdit result
          = Some (proto.TextEdit.mk (asRange_defined range) text) in
  (∀ snippet,
     code.CompletionItem.insertText item = Some (code.SnippetInsertText snippet) →
     let text := code.SnippetString.value snippet in
     proto.CompletionItem.insertTextFormat result = Some proto.Snippet
     ∧ (¬ flagged text → bare text) ∧ (flagged text → structured text))
  ∧ (∀ text,
       code.CompletionItem.insertText item = Some (code.PlainInsertText text) →
       proto.CompletionItem.insertTextFormat result = Some proto.PlainText
       ∧ (¬ flagged text → bare text) ∧ (flagged text → structured text)).
Proof.
  intros Hno_edit result flagged bare structured. split.
  - intros snippet Hpayload text. split.
    + subst result. by rewrite asCompletionItem_insertTextFormat, Hno_edit, Hpayload.
    + apply (text_without_override item h text Hno_edit).
      unfold Spec.insertionText. by rewrite Hno_edit, Hpayload.
  - intros text Hpayload. split.
    + subst result. by rewrite asCompletionItem_insertTextFormat, Hno_edit, Hpayload.
    + apply (text_without_override item h text Hno_edit).
      unfold Spec.insertionText. by rewrite Hno_edit, Hpayload.
Qed.

(** On the safe integers, and so on every kind of the editor's enumeration,
    [value + 1] is exact. *)
Lemma number_add_safe (n : Z) : isSafeInteger n = true → number_add n 1 = n + 1.
Proof.
  unfold isSafeInteger, MAX_SAFE_INTEGER, number_add, round. cbv zeta. intros Hsafe.
  apply Z.leb_le in Hsafe.
  assert (Z.abs (n + 1) ≤ 2 ^ 53) as Hle by lia.
  apply Z.leb_le in Hle. by rewrite Hle.
Qed.

(** Beyond them it is the addition of doubles: [2^53 + 1] is [2^53]. *)
Lemma number_add_rounds :
  asCompletionItemKind (2 ^ 53) None = 2 ^ 53
  ∧ asCompletionItemKind (2 ^ 53 + 2) None = 2 ^ 53 + 4.
Proof. by vm_compute. Qed.

(** C4. When the item's kind is a number, the wire kind is the original
    wire kind recorded on the item if there is one, and the host's kind
    plus one if there is none (the item is not a [ProtocolCompletionItem],
    or it is one that recorded no original kind); the kind being a safe
    integer, as every kind of the editor's enumeration is, the sum is
    exact. *)
Theorem completion_item_kind (item : code.CompletionItem.t) (h : heap) (kind : Z) :
  code.CompletionItem.kind item = Some kind →
  isSafeInteger kind = true →
  let result := (asCompletionItem item h).1 in
  (∀ protocolItem original,
     code.CompletionItem.protocolItem item = Some protocolItem →
     code.ProtocolCompletionItem.originalItemKind protocolItem = Some original →
     proto.CompletionItem.kind result = Some original)
  ∧ (code.CompletionItem.protocolItem item = None
     ∨ (∃ protocolItem,
          code.CompletionItem.protocolItem item = Some protocolItem
          ∧ code.ProtocolCompletionItem.originalItemKind protocolItem = None) →
     proto.CompletionItem.kind result = Some (kind + 1)).
Proof.
  intros Hkind Hsafe result. subst result.
  destruct (asCompletionItem_rest item h) as (-> & _). rewrite Hkind.
  cbn [fmap option_fmap option_map]. unfold asCompletionItemKind. split.
  - intros protocolItem original -> Horiginal. cbn [mbind option_bind]. by rewrite Horiginal.
  - intros [-> | (protocolItem & -> & Horiginal)]; cbn [mbind option_bind];
      rewrite ?Horiginal; by rewrite (number_add_safe _ Hsafe).
Qed.

(** *** Ownership of arrays *)

(** In [asCompletionItem] itself, where the commit characters and the
    arguments of the command are the arrays with an address (every array has
    one in [Arrays]). The wire item's
    [commitCharacters] is a new array: its address was not in use before the call, it holds the
    elements of the editor's array, and nothing the editor pushes onto its
    own array afterwards shows in it; the call leaves every array that
    existed before as it was. A command's [arguments] is not copied: the
    wire command holds the very array the editor's command holds. *)
Theorem commitCharacters_copied_arguments_shared (item : code.CompletionItem.t) (h : heap) :
  let result := (asCompletionItem item h).1 in
  let h' := (asCompletionItem item h).2 in
  (∀ (a : loc) (elems : list Any),
     code.CompletionItem.commitCharacters item = Some a →
     h !! a = Some elems →
     ∃ copy : loc,
       proto.CompletionItem.commitCharacters result = Some copy
       ∧ (copy ∉ dom h)
       ∧ copy ≠ a
       ∧ h' !! copy = Some elems
       ∧ ∀ v, push h' a v !! copy = Some elems)
  ∧ (∀ l : loc, l ∈ dom h → h' !! l = h !! l)
  ∧ (∀ command,
       code.CompletionItem.command item = Some command →
       ∃ command',
         proto.CompletionItem.command result = Some command'
         ∧ proto.Command.arguments command' = code.Command.arguments command)
  ∧ (∀ command, proto.Command.arguments (asCommand command) = code.Command.arguments command).
Proof.
  intros result h'. subst result h'.
  destruct (asCompletionItem_rest item h) as (_ & -> & -> & ->).
  assert (∀ command,
            proto.Command.arguments (asCommand command) = code.Command.arguments command)
    as Hshared.
  { intros command. unfold asCommand. by destruct (code.Command.arguments command). }
  split; [|split; [|split]].
  - intros a elems -> Ha. simpl. rewrite Ha. simpl.
    pose proof (is_fresh (dom h)) as Hfresh.
    assert (fresh (dom h) ≠ a) as Hne.
    { intros Heq. apply Hfresh. rewrite Heq. apply elem_of_dom. eauto. }
    exists (fresh (dom h)). repeat split; [done | done | by rewrite lookup_insert_eq |].
    intros v. rewrite push_lookup_ne by done. by rewrite lookup_insert_eq.
  - intros l Hl. destruct (code.CompletionItem.commitCharacters item) as [a|]; [|done].
    simpl. apply lookup_insert_ne. intros Heq. apply (is_fresh (dom h)). by rewrite Heq.
  - intros command ->. simpl. eauto.
  - done.
Qed.

End Properties.

(** ** The properties on sample values *)

(** C1, a case where the statement in the specification fails. An item that
    has only a label is converted to a wire item with no insertion text at
    all: the label, which the specification gives as the fallback, is not
    used. *)
Lemma label_is_not_a_fallback :
  let result := (asCompletionItem Examples.labelOnly ∅).1 in
  Spec.insertionText_with_label_fallback Examples.labelOnly = "fooItem"
  ∧ Spec.insertedText result ≠ Some "fooItem"
  ∧ proto.CompletionItem.insertText result = None
  ∧ proto.CompletionItem.textEdit result = None.
Proof. by repeat split. Qed.

(** The precedence on the sample items: an override, a snippet, a plain
    string, and an item with none of them. *)
Lemma insertion_text_precedence_witness :
  code.CompletionItem.textEdit Examples.labelOnly = None
  ∧ code.CompletionItem.insertText Examples.labelOnly = None
  ∧ Spec.insertedText (asCompletionItem Examples.replacement ∅).1 = Some "foobar"
  ∧ Spec.insertedText (asCompletionItem Examples.snippet ∅).1 = Some "foo($1)"
  ∧ Spec.insertedText (asCompletionItem Examples.plain ∅).1 = Some "foo"
  ∧ proto.CompletionItem.insertText (asCompletionItem Examples.labelOnly ∅).1 = None
  ∧ proto.CompletionItem.textEdit (asCompletionItem Examples.labelOnly ∅).1 = None.
Proof.
  split; [reflexivity|]. split; [reflexivity|].
  split; [exact (proj1 (insertion_text_precedence Examples.replacement ∅))|].
  split; [exact (proj1 (insertion_text_precedence Examples.snippet ∅))|].
  split; [exact (proj1 (insertion_text_precedence Examples.plain ∅))|].
  exact (proj2 (insertion_text_precedence Examples.labelOnly ∅) eq_refl eq_refl).
Defined.

(** C2. The code breaks the emission rule at a deletion that came from the
    wire. The item is flagged [fromEdit] and has both a text (the empty
    [newText] of the deletion) and a range, so the rule asks for
    [textEdit = {range, newText}]; the guard [source.fromEdit && text &&
    range] reads the empty text as absent, the text goes out as
    [insertText] and the range to delete is lost. *)
Lemma empty_text_is_not_emitted_as_edit :
  let result := (asCompletionItem Examples.deletion ∅).1 in
  fromEdit Examples.deletion = Some true
  ∧ Spec.insertionText Examples.deletion = Some ""
  ∧ Spec.targetRange Examples.deletion = Some Examples.range
  ∧ proto.CompletionItem.textEdit result = None
  ∧ proto.CompletionItem.insertText result = Some "".
Proof. by repeat split. Qed.

(** The replacing override meets the emission rule. *)
Lemma emittedAsEdit_replacement : Spec.emittedAsEdit Examples.replacement.
Proof.
  split; [reflexivity|]. split.
  - exists "foobar". split; [reflexivity | discriminate].
  - exists Examples.range. reflexivity.
Defined.

(** The emission rule on a replacing override and on a plain string. *)
Lemma structured_edit_iff_witness :
  code.CompletionItem.range Examples.snippetFromWireEdit = Some Examples.range
  ∧ Spec.targetRange Examples.snippetFromWireEdit = Some Examples.range
  ∧ Spec.emittedAsEdit Examples.replacement
  ∧ Spec.insertionText Examples.replacement = Some "foobar"
  ∧ Spec.targetRange Examples.replacement = Some Examples.range
  ∧ proto.CompletionItem.textEdit (asCompletionItem Examples.replacement ∅).1
    = Some (proto.TextEdit.mk (asRange_defined Examples.range) "foobar")
  ∧ proto.CompletionItem.insertText (asCompletionItem Examples.replacement ∅).1 = None
  ∧ proto.CompletionItem.textEdit (asCompletionItem Examples.plain ∅).1 = None
  ∧ proto.CompletionItem.insertText (asCompletionItem Examples.plain ∅).1 = Some "foo".
Proof.
  split; [reflexivity|].
  split; [exact (proj1 (structured_edit_iff Examples.snippetFromWireEdit ∅)
                   Examples.range eq_refl)|].
  split; [exact emittedAsEdit_replacement|]. split; [reflexivity|]. split; [reflexivity|].
  destruct (structured_edit_iff Examples.replacement ∅) as (_ & _ & Hedit & _).
  destruct (Hedit "foobar" Examples.range emittedAsEdit_replacement eq_refl eq_refl)
    as [Htext Hbare].
  split; [exact Htext|]. split; [exact Hbare|].
  split; [reflexivity|].
  destruct (structured_edit_iff Examples.plain ∅) as (_ & _ & _ & Hplain).
  exact (Hplain eq_refl).
Defined.

(** C3, a case where the statement in the specification fails. A document
    whose version is [0] is a whole-document snapshot like any other, but
    the call does not return a content change for it: it throws. *)
Lemma version_zero_snapshot_throws :
  asChangeTextDocumentParams None
    (ChangeArgument.ofTextDocument (Examples.textDocument "file:///a.txt" 0))
  = Throw unsupported_change_parameter.
Proof. reflexivity. Qed.

(** A document at version 1 and a change event with two edits. *)
Lemma asChangeTextDocumentParams_two_shapes_witness :
  code.TextDocument.version (Examples.textDocument "file:///a.txt" 1) ≠ 0
  ∧ asChangeTextDocumentParams None
      (ChangeArgument.ofTextDocument (Examples.textDocument "file:///a.txt" 1))
    = Return (proto.DidChangeTextDocumentParams.mk
                (proto.VersionedTextDocumentIdentifier.mk "file:///a.txt" 1)
                [proto.TextDocumentContentChangeEvent.mk None None "abc"])
  ∧ code.TextDocumentChangeEvent.contentChanges Examples.twoEdits !! 1%nat
    = Some (code.TextDocumentContentChangeEvent.mk
              (code.Range.mk (code.Position.mk 0 0) (code.Position.mk 0 0)) 0 "y")
  ∧ ∃ params,
      asChangeTextDocumentParams None
        (ChangeArgument.ofTextDocumentChangeEvent Examples.twoEdits) = Return params
      ∧ length (proto.DidChangeTextDocumentParams.contentChanges params) = 2%nat
      ∧ proto.DidChangeTextDocumentParams.contentChanges params !! 1%nat
        = Some (proto.TextDocumentContentChangeEvent.mk
                  (Some (proto.Range.mk (proto.Position.mk 0 0) (proto.Position.mk 0 0)))
                  (Some 0) "y").
Proof.
  assert (code.TextDocument.version (Examples.textDocument "file:///a.txt" 1) ≠ 0)
    as Hversion by discriminate.
  split; [exact Hversion|].
  split; [exact (proj1 (asChangeTextDocumentParams_two_shapes None) _ Hversion)|].
  split; [reflexivity|].
  destruct (proj2 (asChangeTextDocumentParams_two_shapes None) Examples.twoEdits)
    as (params & Hcall & Hlength & Hnth).
  exists params. split; [exact Hcall|]. split; [exact Hlength|].
  exact (Hnth 1%nat _ eq_refl).
Defined.

(** C6, a case where the statement in the specification fails. The argument
    is a text document and has both a [uri] and a [version], so it has one of
    the two accepted shapes; the call throws all the same, because the
    version is [0]. *)
Lemma document_with_uri_and_version_throws :
  let arg := ChangeArgument.ofTextDocument (Examples.textDocument "file:///b.txt" 0) in
  is_Some (ChangeArgument.uri arg)
  ∧ is_Some (ChangeArgument.version arg)
  ∧ asChangeTextDocumentParams None arg = Throw unsupported_change_parameter.
Proof. repeat split; eauto. Qed.

(** An object with none of the properties throws; a change event returns. *)
Lemma asChangeTextDocumentParams_throws_iff_witness :
  let empty := ChangeArgument.mk None None "" None None in
  asChangeTextDocumentParams None empty = Throw unsupported_change_parameter
  ∧ ((ChangeArgument.uri empty = None
      ∨ ChangeArgument.version empty = None
      ∨ ChangeArgument.version empty = Some 0)
     ∧ (ChangeArgument.document empty = None ∨ ChangeArgument.contentChanges empty = None))
  ∧ ∃ params,
      asChangeTextDocumentParams None
        (ChangeArgument.ofTextDocumentChangeEvent Examples.twoEdits) = Return params.
Proof.
  intros empty.
  destruct (asChangeTextDocumentParams_throws_iff None empty) as (Hthrows & _ & _).
  assert (asChangeTextDocumentParams None empty = Throw unsupported_change_parameter)
    as Hcall by reflexivity.
  split; [exact Hcall|]. split; [exact (proj1 Hthrows Hcall)|].
  destruct (asChangeTextDocumentParams_throws_iff None
              (ChangeArgument.ofTextDocumentChangeEvent Examples.twoEdits))
    as (_ & Hreturns & _).
  apply Hreturns. intros [[Huri | [Hversion | Hversion]] [Hdocument | Hchanges]];
    discriminate.
Defined.

(** C8, a case where the statement in the specification fails. The item has
    no text-edit override and its payload is a snippet, but it was read from
    a wire item that had a [textEdit], so it is flagged [fromEdit] and has a
    range: the snippet's text goes out as [textEdit], and the wire item has
    no [insertText]. *)
Lemma snippet_from_wire_edit_has_no_insertText :
  let result := (asCompletionItem Examples.snippetFromWireEdit ∅).1 in
  code.CompletionItem.textEdit Examples.snippetFromWireEdit = None
  ∧ code.CompletionItem.insertText Examples.snippetFromWireEdit
    = Some (code.SnippetInsertText (code.SnippetString.mk "foo($1)"))
  ∧ proto.CompletionItem.insertText result ≠ Some "foo($1)"
  ∧ proto.CompletionItem.insertText result = None
  ∧ proto.CompletionItem.textEdit result
    = Some (proto.TextEdit.mk (asRange_defined Examples.range) "foo($1)").
Proof. by repeat split. Qed.

(** A plain string that is not flagged, and a snippet that is. *)
Lemma payload_without_override_witness :
  code.CompletionItem.textEdit Examples.plain = None
  ∧ code.CompletionItem.insertText Examples.plain = Some (code.PlainInsertText "foo")
  ∧ ¬ (fromEdit Examples.plain = Some true
       ∧ "foo" ≠ "" ∧ is_Some (code.CompletionItem.range Examples.plain))
  ∧ proto.CompletionItem.insertTextFormat (asCompletionItem Examples.plain ∅).1
    = Some proto.PlainText
  ∧ proto.CompletionItem.insertText (asCompletionItem Examples.plain ∅).1 = Some "foo"
  ∧ proto.CompletionItem.textEdit (asCompletionItem Examples.plain ∅).1 = None
  ∧ (fromEdit Examples.snippetFromWireEdit = Some true
     ∧ "foo($1)" ≠ "" ∧ is_Some (code.CompletionItem.range Examples.snippetFromWireEdit))
  ∧ proto.CompletionItem.insertTextFormat (asCompletionItem Examples.snippetFromWireEdit ∅).1
    = Some proto.Snippet
  ∧ proto.CompletionItem.insertText (asCompletionItem Examples.snippetFromWireEdit ∅).1
    = None.
Proof.
  assert (¬ (fromEdit Examples.plain = Some true
             ∧ "foo" ≠ "" ∧ is_Some (code.CompletionItem.range Examples.plain)))
    as Hplain by (intros [Hflag _]; discriminate Hflag).
  assert (fromEdit Examples.snippetFromWireEdit = Some true
          ∧ "foo($1)" ≠ ""
          ∧ is_Some (code.CompletionItem.range Examples.snippetFromWireEdit))
    as Hflagged by (split; [reflexivity | split; [discriminate | eexists; reflexivity]]).
  split; [reflexivity|]. split; [reflexivity|]. split; [exact Hplain|].
  destruct (proj2 (payload_without_override Examples.plain ∅ eq_refl) "foo" eq_refl)
    as (Hformat & Hbare & _).
  split; [exact Hformat|]. destruct (Hbare Hplain) as [Htext Hedit].
  split; [exact Htext|]. split; [exact Hedit|]. split; [exact Hflagged|].
  destruct (proj1 (payload_without_override Examples.snippetFromWireEdit ∅ eq_refl)
              (code.SnippetString.mk "foo($1)") eq_refl)
    as (Hsnippet & _ & Hstructured).
  split; [exact Hsnippet|]. exact (proj1 (Hstructured Hflagged)).
Defined.

(** An item that recorded wire kind 7, and a plain item of host kind 2. *)
Lemma completion_item_kind_witness :
  code.CompletionItem.kind Examples.withOriginalKind = Some 2
  ∧ proto.CompletionItem.kind (asCompletionItem Examples.withOriginalKind ∅).1 = Some 7
  ∧ code.CompletionItem.kind (Examples.item "foo") = None
  ∧ proto.CompletionItem.kind
      (asCompletionItem
         (code.CompletionItem.mk "foo" (Some 2) None None None None None None None None
                                 None None None None) ∅).1 = Some 3.
Proof.
  split; [reflexivity|].
  split.
  { exact (proj1 (completion_item_kind Examples.withOriginalKind ∅ 2 eq_refl eq_refl)
             (code.ProtocolCompletionItem.mk None None None (Some 7) None) 7
             eq_refl eq_refl). }
  split; [reflexivity|].
  exact (proj2 (completion_item_kind
                  (code.CompletionItem.mk "foo" (Some 2) None None None None None None None
                                          None None None None None) ∅ 2 eq_refl
                  eq_refl)
           (or_introl eq_refl)).
Defined.

(** Tags [1; 5; 2] keep [1; 2]; tags [5; 0] leave no [tags] at all. *)
Lemma asDiagnostic_tags_witness :
  code.Diagnostic.tags (Examples.diagnostic [1; 5; 2]) = Some [1; 5; 2]
  ∧ filter Spec.allowedTag [1; 5; 2] ≠ []
  ∧ proto.Diagnostic.tags (asDiagnostic None (Examples.diagnostic [1; 5; 2])) = Some [1; 2]
  ∧ filter Spec.allowedTag [5; 0] = []
  ∧ proto.Diagnostic.tags (asDiagnostic None (Examples.diagnostic [5; 0])) = None.
Proof.
  assert (filter Spec.allowedTag [1; 5; 2] ≠ []) as Hkept by (vm_compute; discriminate).
  assert (filter Spec.allowedTag [5; 0] = []) as Hnone by (vm_compute; reflexivity).
  split; [reflexivity|]. split; [exact Hkept|].
  destruct (asDiagnostic_tags None (Examples.diagnostic [1; 5; 2]) [1; 5; 2] eq_refl)
    as (_ & _ & Hsome & _).
  split; [exact (Hsome Hkept)|]. split; [exact Hnone|].
  destruct (asDiagnostic_tags None (Examples.diagnostic [5; 0]) [5; 0] eq_refl)
    as (_ & _ & _ & Hempty).
  exact (Hempty Hnone).
Defined.

(** C9, a case where the statement in the specification fails. The uri of
    this document prints as the empty string, which is falsy, and its
    version is [1]. The recogniser tests the uri object, not what it prints
    as: the document is recognised and the call returns the full-text
    change. *)
Lemma empty_uri_string_is_still_a_document :
  let textDocument := Examples.textDocument "" 1 in
  truthy_string (Some (nullConverter (code.TextDocument.uri textDocument))) = false
  ∧ isTextDocument (ChangeArgument.ofTextDocument textDocument) = true
  ∧ asChangeTextDocumentParams None (ChangeArgument.ofTextDocument textDocument)
    = Return (proto.DidChangeTextDocumentParams.mk
                (proto.VersionedTextDocumentIdentifier.mk "" 1)
                [proto.TextDocumentContentChangeEvent.mk None None "abc"]).
Proof. by repeat split. Qed.

(** A document at version 0, an object without a uri, a document at
    version 1. *)
Lemma asChangeTextDocumentParams_version_zero_witness :
  let textDocument := Examples.textDocument "file:///c.txt" 0 in
  let missing := ChangeArgument.mk None (Some 4) "" None None in
  code.TextDocument.version textDocument = 0
  ∧ isTextDocument (ChangeArgument.ofTextDocument textDocument) = false
  ∧ asChangeTextDocumentParams None (ChangeArgument.ofTextDocument textDocument)
    = Throw unsupported_change_parameter
  ∧ ChangeArgument.contentChanges missing = None
  ∧ truthy_object (ChangeArgument.uri missing) = false
  ∧ asChangeTextDocumentParams None missing = Throw unsupported_change_parameter
  ∧ code.TextDocument.version (Examples.textDocument "" 1) ≠ 0
  ∧ isTextDocument (ChangeArgument.ofTextDocument (Examples.textDocument "" 1)) = true.
Proof.
  intros textDocument missing.
  destruct (asChangeTextDocumentParams_version_zero None) as (Hzero & Hfalsy & Hother).
  split; [reflexivity|].
  destruct (Hzero textDocument eq_refl) as [Hunrecognised Hthrows].
  split; [exact Hunrecognised|]. split; [exact Hthrows|].
  split; [reflexivity|]. split; [reflexivity|].
  split; [exact (Hfalsy missing eq_refl (or_introl eq_refl))|].
  assert (code.TextDocument.version (Examples.textDocument "" 1) ≠ 0) as Hversion
    by discriminate.
  split; [exact Hversion|]. exact (Hother _ Hversion).
Defined.


(** An item whose commit characters and command arguments live in the
    editor's arrays 1 and 2. *)
Lemma commitCharacters_copied_arguments_shared_witness :
  let result := (asCompletionItem Examples.withArrays Examples.arrays).1 in
  let h' := (asCompletionItem Examples.withArrays Examples.arrays).2 in
  code.CompletionItem.commitCharacters Examples.withArrays = Some 1%positive
  ∧ Examples.arrays !! 1%positive = Some [AnyString "."]
  ∧ (∃ copy : loc,
       proto.CompletionItem.commitCharacters result = Some copy
       ∧ (copy ∉ dom Examples.arrays)
       ∧ copy ≠ 1%positive
       ∧ h' !! copy = Some [AnyString "."]
       ∧ ∀ v, push h' 1%positive v !! copy = Some [AnyString "."])
  ∧ 2%positive ∈ dom Examples.arrays
  ∧ h' !! 2%positive = Examples.arrays !! 2%positive
  ∧ code.CompletionItem.command Examples.withArrays = Some Examples.command
  ∧ ∃ command',
      proto.CompletionItem.command result = Some command'
      ∧ proto.Command.arguments command' = code.Command.arguments Examples.command.
Proof.
  intros result h'.
  destruct (commitCharacters_copied_arguments_shared Examples.withArrays Examples.arrays)
    as (Hcopied & Hframe & Hshared & _).
  assert (Examples.arrays !! 1%positive = Some [AnyString "."]) as Helems
    by (vm_compute; reflexivity).
  assert (2%positive ∈ dom Examples.arrays) as Hlive
    by (apply elem_of_dom; exists [AnyNumber 1]; vm_compute; reflexivity).
  split; [reflexivity|]. split; [exact Helems|].
  split; [exact (Hcopied 1%positive [AnyString "."] eq_refl Helems)|].
  split; [exact Hlive|]. split; [exact (Hframe 2%positive Hlive)|].
  split; [reflexivity|]. exact (Hshared Examples.command eq_refl).
Defined.

(** ** The change-parameter builder on any argument *)

Section UntypedProperties.

Local Abbreviation typed_uriConverter := _uriConverter.
Local Abbreviation typed_asContentChange := asContentChange.
Local Abbreviation typed_asChangeTextDocumentParams := asChangeTextDocumentParams.
Local Abbreviation typed_isTextDocument := isTextDocument.
Local Abbreviation typed_isTextDocumentChangeEvent := isTextDocumentChangeEvent.

Import Untyped.

Variable uriConverter : option (Value → Call Value).
Variable toString : Value → string.

Local Abbreviation _uriConverter := (Untyped._uriConverter uriConverter toString).
Local Abbreviation asContentChange := Untyped.asContentChange.
Local Abbreviation builder := (Untyped.asChangeTextDocumentParams uriConverter toString).

Lemma property_nullish (v : Value) (name : string) :
  nullish v = true → property v name = VUndefined.
Proof. by destruct v. Qed.

Lemma isTextDocument_unfold (value : Value) :
  Untyped.isTextDocument value
  = if nullish value then Abrupt TypeError
    else Normal (truthy (property value "uri") && truthy (property value "version")).
Proof.
  unfold Untyped.isTextDocument, get. destruct (nullish value); [done|].
  cbn [mbind Completion_bind]. by destruct (truthy (property value "uri")).
Qed.

Lemma isTextDocumentChangeEvent_unfold (value : Value) :
  Untyped.isTextDocumentChangeEvent value
  = if nullish value then Abrupt TypeError
    else Normal (truthy (property value "document")
                 && truthy (property value "contentChanges")).
Proof.
  unfold Untyped.isTextDocumentChangeEvent, get. destruct (nullish value); [done|].
  cbn [mbind Completion_bind]. by destruct (truthy (property value "document")).
Qed.

(** The two branches, once the argument is known not to be [undefined] or
    [null]. *)
Lemma builder_unfold (arg : Value) :
  nullish arg = false →
  builder arg
  = if truthy (property arg "uri") && truthy (property arg "version") then
      uri ← _uriConverter (property arg "uri");
      text ← call (property arg "getText");
      Normal (VObject {[
        "textDocument" := VObject {[ "uri" := uri; "version" := property arg "version" ]};
        "contentChanges" := VArray [VObject {[ "text" := text ]}] ]})
    else if truthy (property arg "document") && truthy (property arg "contentChanges") then
      uri ← get (property arg "document") "uri";
      uri ← _uriConverter uri;
      version ← get (property arg "document") "version";
      contentChanges ← Untyped.map (property arg "contentChanges") asContentChange;
      Normal (VObject {[
        "textDocument" := VObject {[ "uri" := uri; "version" := version ]};
        "contentChanges" := contentChanges ]})
    else Abrupt (Error unsupported_change_parameter).
Proof.
  intros Hdefined. unfold Untyped.asChangeTextDocumentParams.
  rewrite isTextDocument_unfold, isTextDocumentChangeEvent_unfold, Hdefined.
  unfold get. rewrite Hdefined. cbn [mbind Completion_bind].
  destruct (truthy (property arg "uri") && truthy (property arg "version")); [done|].
  by destruct (truthy (property arg "document") && truthy (property arg "contentChanges")).
Qed.

Lemma bind_no_Error {A B} (c : Completion A) (f : A → Completion B) :
  raises_no_Error c → (∀ a, raises_no_Error (f a)) → raises_no_Error (c ≫= f).
Proof.
  intros Hc Hf message. destruct c as [a|thrown]; cbn [mbind Completion_bind].
  - apply Hf.
  - intros Herror. apply (Hc message). congruence.
Qed.

Lemma Normal_no_Error {A} (a : A) : raises_no_Error (Normal a).
Proof. by intros message. Qed.

Lemma get_no_Error (v : Value) (name : string) : raises_no_Error (get v name).
Proof. intros message. unfold get. by destruct (nullish v). Qed.

Lemma call_no_Error (f : Value) : raises_no_Error (call f).
Proof. intros message. by destruct f as [| | | | | | |[]]. Qed.

Lemma _uriConverter_no_Error (value : Value) : raises_no_Error (_uriConverter value).
Proof.
  intros message. unfold Untyped._uriConverter, Untyped.nullConverter.
  destruct uriConverter as [convert|].
  - by destruct (convert value).
  - destruct value as [| | | | | |properties|]; try done.
    destruct (properties !! "toString"); [apply call_no_Error | done].
Qed.

Lemma asContentChange_no_Error (change : Value) : raises_no_Error (asContentChange change).
Proof.
  unfold Untyped.asContentChange.
  repeat (apply bind_no_Error; [apply get_no_Error | intros ?]).
  apply Normal_no_Error.
Qed.

Lemma map_no_Error (a : Value) : raises_no_Error (Untyped.map a asContentChange).
Proof.
  unfold Untyped.map.
  assert (∀ elements, raises_no_Error (Array_map asContentChange elements)) as Helements.
  { induction elements as [|element elements IH]; [apply Normal_no_Error|].
    cbn [Array_map]. apply bind_no_Error; [apply asContentChange_no_Error | intros ?].
    apply bind_no_Error; [apply IH | intros ?]. apply Normal_no_Error. }
  destruct a; try (apply bind_no_Error; [apply get_no_Error | intros ?; apply call_no_Error]).
  apply bind_no_Error; [apply Helements | intros ?; apply Normal_no_Error].
Qed.

Lemma builder_nullish (arg : Value) : nullish arg = true → builder arg = Abrupt TypeError.
Proof.
  intros Hnullish. unfold Untyped.asChangeTextDocumentParams.
  by rewrite isTextDocument_unfold, Hnullish.
Qed.

Lemma builder_Error (arg : Value) :
  builder arg = Abrupt (Error unsupported_change_parameter)
  ↔ nullish arg = false
    ∧ truthy (property arg "uri") && truthy (property arg "version") = false
    ∧ truthy (property arg "document") && truthy (property arg "contentChanges") = false.
Proof.
  destruct (nullish arg) eqn:Hnullish.
  { rewrite (builder_nullish _ Hnullish). split; [done | by intros [? _]]. }
  rewrite (builder_unfold _ Hnullish).
  destruct (truthy (property arg "uri") && truthy (property arg "version")).
  { split; [|by intros (_ & ? & _)]. intros Herror. exfalso. revert Herror.
    apply bind_no_Error; [apply _uriConverter_no_Error | intros ?].
    apply bind_no_Error; [apply call_no_Error | intros ?]. apply Normal_no_Error. }
  destruct (truthy (property arg "document") && truthy (property arg "contentChanges")).
  { split; [|by intros (_ & _ & ?)]. intros Herror. exfalso. revert Herror.
    apply bind_no_Error; [apply get_no_Error | intros ?].
    apply bind_no_Error; [apply _uriConverter_no_Error | intros ?].
    apply bind_no_Error; [apply get_no_Error | intros ?].
    apply bind_no_Error; [apply map_no_Error | intros ?]. apply Normal_no_Error. }
  done.
Qed.

(** C6, as the code has it. The builder throws its error
    ['Unsupported text document change parameter'] exactly on an argument
    other than [undefined] and [null] that it recognises as neither shape,
    recognition being by truthiness: [uri] or [version] is falsy, and
    [document] or [contentChanges] is falsy. On [undefined] and [null] it
    throws a TypeError instead. It has no default result: whenever it
    returns, the argument was recognised. A recognised argument need not make
    it return: recognised as a document, it returns exactly when the uri
    converter returns and [getText] is a function that returns, and throws
    a TypeError when [getText] is no function; recognised as an event, it
    throws a TypeError when [contentChanges] is neither an array nor has a
    [map] to call. *)
Theorem asChangeTextDocumentParams_unsupported (arg : Value) :
  let outcome := builder arg in
  let isDocument := truthy (property arg "uri") && truthy (property arg "version") in
  let isEvent := truthy (property arg "document") && truthy (property arg "contentChanges") in
  (nullish arg = true → outcome = Abrupt TypeError)
  ∧ (outcome = Abrupt (Error unsupported_change_parameter)
     ↔ nullish arg = false ∧ isDocument = false ∧ isEvent = false)
  ∧ (∀ result, outcome = Normal result → isDocument = true ∨ isEvent = true)
  ∧ (isDocument = true →
     ∀ result,
       outcome = Normal result
       ↔ ∃ uri text,
           _uriConverter (property arg "uri") = Normal uri
           ∧ property arg "getText" = VFunction (Returns text)
           ∧ result
             = VObject {[
                 "textDocument" :=
                   VObject {[ "uri" := uri; "version" := property arg "version" ]};
                 "contentChanges" := VArray [VObject {[ "text" := text ]}] ]})
  ∧ (isDocument = true →
     ∀ uri,
       _uriConverter (property arg "uri") = Normal uri →
       (∀ behaviour, property arg "getText" ≠ VFunction behaviour) →
       outcome = Abrupt TypeError)
  ∧ (isDocument = false → isEvent = true →
     ∀ uri,
       _uriConverter (property (property arg "document") "uri") = Normal uri →
       (∀ elements, property arg "contentChanges" ≠ VArray elements) →
       (∀ behaviour,
          property (property arg "contentChanges") "map" ≠ VFunction behaviour) →
       outcome = Abrupt TypeError).
Proof.
  intros outcome isDocument isEvent. subst outcome.
  split; [apply builder_nullish|]. split; [apply builder_Error|].
  destruct (nullish arg) eqn:Hnullish.
  { subst isDocument isEvent. rewrite !(property_nullish _ _ Hnullish).
    rewrite (builder_nullish _ Hnullish). by repeat split. }
  rewrite (builder_unfold _ Hnullish). fold isDocument isEvent.
  assert (isEvent = true → nullish (property arg "document") = false) as Hdocument.
  { subst isEvent. by destruct (property arg "document"). }
  clearbody isDocument isEvent.
  split; [|split; [|split]].
  - intros result. destruct isDocument; [by left|]. destruct isEvent; [by right | done].
  - intros -> result.
    destruct (_uriConverter (property arg "uri")) as [uri|thrown];
      cbn [mbind Completion_bind]; [|split; [done | by intros (? & ? & ? & _)]].
    destruct (property arg "getText") as [| | | | | | |[text|raised]];
      cbn [call mbind Completion_bind];
      try (split; [done | by intros (? & ? & _ & ? & _)]).
    split.
    + intros [= <-]. by exists uri, text.
    + intros (? & ? & [= <-] & [= <-] & ->). done.
  - intros -> uri -> Hfunction. cbn [mbind Completion_bind].
    destruct (property arg "getText") as [| | | | | | |behaviour]; try done.
    by destruct (Hfunction behaviour).
  - intros -> Hevent uri Huri Harray Hmap. rewrite Hevent.
    unfold get. rewrite (Hdocument Hevent).
    cbn [mbind Completion_bind]. rewrite Huri. cbn [mbind Completion_bind].
    unfold Untyped.map, get.
    destruct (property arg "contentChanges") as [| | | | |elements|properties|behaviour];
      try done.
    + by destruct (Harray elements).
    + cbn [nullish mbind Completion_bind].
      destruct (property (VObject properties) "map") as [| | | | | | |behaviour]; try done.
      by destruct (Hmap behaviour).
Qed.

(** *** Arguments of the declared types *)

Lemma ofChangeArgument_property (arg : ChangeArgument.t) :
  property (ofChangeArgument arg) "uri"
  = from_option ofUri VUndefined (ChangeArgument.uri arg)
  ∧ property (ofChangeArgument arg) "version"
    = from_option VNumber VUndefined (ChangeArgument.version arg)
  ∧ property (ofChangeArgument arg) "getText"
    = VFunction (Returns (VString (ChangeArgument.getText arg)))
  ∧ property (ofChangeArgument arg) "document"
    = from_option ofTextDocument VUndefined (ChangeArgument.document arg)
  ∧ property (ofChangeArgument arg) "contentChanges"
    = from_option (λ changes, VArray (ofContentChange <$> changes)) VUndefined
        (ChangeArgument.contentChanges arg).
Proof.
  destruct arg as [[uri|] [version|] getText [document|] [changes|]];
    repeat split; reflexivity.
Qed.

Lemma asContentChange_declared (change : code.TextDocumentContentChangeEvent.t) :
  asContentChange (ofContentChange change)
  = Normal (ofWireContentChange (typed_asContentChange change)).
Proof. reflexivity. Qed.

Lemma Array_map_declared (changes : list code.TextDocumentContentChangeEvent.t) :
  Array_map asContentChange (ofContentChange <$> changes)
  = Normal (ofWireContentChange <$> (typed_asContentChange <$> changes)).
Proof.
  induction changes as [|change changes IH]; [done|].
  cbn [fmap list_fmap Array_map] in *. rewrite asContentChange_declared, IH. done.
Qed.

(** On a document or a change event of the editor, with a uri converter
    that returns the string the typed converter returns, the builder on
    values does what the builder on typed arguments does. *)
Lemma declared_arguments_agree (typed : option URIConverter) (arg : ChangeArgument.t) :
  (∀ uri, _uriConverter (ofUri uri)
          = Normal (VString (typed_uriConverter typed uri))) →
  builder (ofChangeArgument arg)
  = ofOutcome (typed_asChangeTextDocumentParams typed arg).
Proof.
  intros Hconverter. rewrite builder_unfold by done.
  destruct (ofChangeArgument_property arg) as (-> & -> & -> & -> & ->).
  unfold typed_asChangeTextDocumentParams, typed_isTextDocument,
    typed_isTextDocumentChangeEvent.
  destruct arg as [[uri|] [version|] getText [document|] [changes|]];
    cbn [from_option truthy truthy_object truthy_number andb
         ChangeArgument.uri ChangeArgument.version ChangeArgument.getText
         ChangeArgument.document ChangeArgument.contentChanges ofUri ofTextDocument];
    try destruct (negb (Z.eqb version 0));
    cbn [andb]; try reflexivity;
    try (rewrite Hconverter; reflexivity).
  all: change (get (ofTextDocument document) "uri")
         with (Normal (ofUri (code.TextDocument.uri document))).
  all: change (get (ofTextDocument document) "version")
         with (Normal (VNumber (code.TextDocument.version document)) : Completion Value).
  all: cbn [mbind Completion_bind]; rewrite Hconverter; cbn [mbind Completion_bind Untyped.map].
  all: rewrite Array_map_declared; reflexivity.
Qed.

(** The default converter is such a converter. *)
Lemma nullConverter_declared (uri : code.Uri.t) :
  Untyped._uriConverter None toString (ofUri uri)
  = Normal (VString (typed_uriConverter None uri)).
Proof. reflexivity. Qed.
End UntypedProperties.

(** [null]; a document at version 0; a recognised document without
    [getText]; an event whose [contentChanges] is a string; a document. *)
Lemma asChangeTextDocumentParams_unsupported_witness :
  let builder := Untyped.asChangeTextDocumentParams None MoreExamples.inherited in
  builder Untyped.VNull = Untyped.Abrupt Untyped.TypeError
  ∧ builder MoreExamples.versionZero
    = Untyped.Abrupt (Untyped.Error unsupported_change_parameter)
  ∧ builder MoreExamples.noGetText = Untyped.Abrupt Untyped.TypeError
  ∧ builder MoreExamples.notAnArray = Untyped.Abrupt Untyped.TypeError
  ∧ builder MoreExamples.snapshot
    = Untyped.Normal
        (Untyped.ofParams
           (proto.DidChangeTextDocumentParams.mk
              (proto.VersionedTextDocumentIdentifier.mk "file:///a.txt" 3)
              [proto.TextDocumentContentChangeEvent.mk None None "abc"])).
Proof.
  intros builder. subst builder.
  split.
  { exact (proj1 (asChangeTextDocumentParams_unsupported None MoreExamples.inherited
                    Untyped.VNull) eq_refl). }
  split.
  { apply (proj1 (proj2 (asChangeTextDocumentParams_unsupported None MoreExamples.inherited
                           MoreExamples.versionZero))).
    by repeat split. }
  split.
  { refine (proj1 (proj2 (proj2 (proj2 (proj2
              (asChangeTextDocumentParams_unsupported None MoreExamples.inherited
                 MoreExamples.noGetText))))) eq_refl
              (Untyped.VString "file:///a.txt") eq_refl _).
    intros behaviour. discriminate. }
  split.
  { refine (proj2 (proj2 (proj2 (proj2 (proj2
              (asChangeTextDocumentParams_unsupported None MoreExamples.inherited
                 MoreExamples.notAnArray))))) eq_refl eq_refl
              (Untyped.VString "file:///a.txt") eq_refl _ _).
    - intros elements. discriminate.
    - intros behaviour. discriminate. }
  apply (proj1 (proj2 (proj2 (proj2
           (asChangeTextDocumentParams_unsupported None MoreExamples.inherited
              MoreExamples.snapshot)))) eq_refl).
  exists (Untyped.VString "file:///a.txt"), (Untyped.VString "abc").
  by repeat split.
Defined.

(** ** Ownership of arrays *)

Section ArraysProperties.

Variable uriConverter : option URIConverter.

Local Abbreviation store := Arrays.store.
Local Abbreviation fresh_array := Arrays.fresh_array.

Lemma alloc_fresh (h : store) (cell : Arrays.Cell) : (Arrays.alloc h cell).1 ∉ dom h.
Proof. apply is_fresh. Qed.

Lemma alloc_subseteq (h : store) (cell : Arrays.Cell) : h ⊆ (Arrays.alloc h cell).2.
Proof. apply insert_subseteq, not_elem_of_dom, is_fresh. Qed.

Lemma fresh_array_intro (h h' : store) (r : loc) (cell : Arrays.Cell) :
  r ∉ dom h → h' !! r = Some cell → fresh_array h h' r cell.
Proof.
  intros Hfresh Hcell. split; [done|]. split; [done|].
  intros a changed Ha. unfold Arrays.assign. rewrite lookup_insert_ne; [done|].
  intros ->. done.
Qed.

Lemma fresh_array_alloc (h : store) (cell : Arrays.Cell) :
  fresh_array h (Arrays.alloc h cell).2 (Arrays.alloc h cell).1 cell.
Proof. apply fresh_array_intro; [apply alloc_fresh | apply lookup_insert_eq]. Qed.

Lemma not_elem_of_dom_subseteq (h h' : store) (r : loc) : h ⊆ h' → r ∉ dom h' → r ∉ dom h.
Proof. intros Hsub Hfresh Hin. apply Hfresh. by apply (subseteq_dom h h'). Qed.

Lemma insert_fresh_subseteq (h h' : store) (r : loc) (cell : Arrays.Cell) :
  r ∉ dom h → h ⊆ h' → h ⊆ <[r := cell]> h'.
Proof.
  intros Hfresh Hsub. apply map_subseteq_spec. intros l c Hl.
  rewrite lookup_insert_ne.
  - by apply (lookup_weaken h h').
  - intros ->. apply Hfresh. apply elem_of_dom. eauto.
Qed.

Lemma push_WirePosition_loop (h : store) (r : loc) (acc : list proto.Position.t)
    (elems : list code.Position.t) :
  h !! r = Some (Arrays.WirePositions acc) →
  foldl (λ h elem, Arrays.push_WirePosition h r (asPosition_defined elem)) h elems
  = <[r := Arrays.WirePositions (acc ++ (asPosition_defined <$> elems))]> h.
Proof.
  revert h acc. induction elems as [|elem elems IH]; intros h acc Hr.
  - cbn [foldl fmap list_fmap]. rewrite app_nil_r. by rewrite insert_id.
  - cbn [foldl fmap list_fmap]. unfold Arrays.push_WirePosition at 2. rewrite Hr.
    rewrite (IH _ (acc ++ [asPosition_defined elem])) by apply lookup_insert_eq.
    rewrite insert_insert_eq. by rewrite <- app_assoc.
Qed.

Lemma push_Number_loop (h : store) (r : loc) (acc elems : list Z) :
  h !! r = Some (Arrays.Numbers acc) →
  foldl (λ h tag,
           match asDiagnosticTag tag with
           | Some converted => Arrays.push_Number h r converted
           | None => h
           end) h elems
  = <[r := Arrays.Numbers (foldl asDiagnosticTags_step acc elems)]> h.
Proof.
  revert h acc. induction elems as [|tag elems IH]; intros h acc Hr.
  - cbn [foldl]. by rewrite insert_id.
  - cbn [foldl]. unfold asDiagnosticTags_step at 2.
    destruct (asDiagnosticTag tag) as [converted|].
    + unfold Arrays.push_Number at 2. rewrite Hr.
      rewrite (IH _ (acc ++ [converted])) by apply lookup_insert_eq.
      by rewrite insert_insert_eq.
    + by apply IH.
Qed.

Lemma asPositions_fresh (h : store) (value : loc) (elems : list code.Position.t) :
  h !! value = Some (Arrays.Positions elems) →
  ∃ r h',
    Arrays.asPositions value h = Some (r, h')
    ∧ h ⊆ h'
    ∧ fresh_array h h' r (Arrays.WirePositions (asPositions elems)).
Proof.
  intros Hvalue. unfold Arrays.asPositions. rewrite Hvalue.
  unfold Arrays.alloc. cbv zeta.
  rewrite (push_WirePosition_loop _ _ []) by apply lookup_insert_eq.
  rewrite insert_insert_eq. eexists _, _. split; [reflexivity|]. split.
  - apply insert_subseteq, not_elem_of_dom, is_fresh.
  - apply fresh_array_intro; [apply is_fresh | apply lookup_insert_eq].
Qed.

Lemma asTextEdits_fresh (h : store) (edits : loc) (elems : list code.TextEdit.t) :
  h !! edits = Some (Arrays.TextEdits elems) →
  ∃ r h',
    Arrays.asTextEdits edits h = Some (r, h')
    ∧ h ⊆ h'
    ∧ fresh_array h h' r (Arrays.WireTextEdits (asTextEdits elems)).
Proof.
  intros Hedits. unfold Arrays.asTextEdits. rewrite Hedits.
  eexists _, _. split; [reflexivity|]. split; [apply alloc_subseteq | apply fresh_array_alloc].
Qed.

Lemma asRelatedInformations_fresh (h : store) (items : loc)
    (elems : list code.DiagnosticRelatedInformation.t) :
  h !! items = Some (Arrays.RelatedInformations elems) →
  ∃ r h',
    Arrays.asRelatedInformations uriConverter items h = Some (r, h')
    ∧ h ⊆ h'
    ∧ fresh_array h h' r
        (Arrays.WireRelatedInformations (asRelatedInformations uriConverter elems)).
Proof.
  intros Hitems. unfold Arrays.asRelatedInformations. rewrite Hitems.
  eexists _, _. split; [reflexivity|]. split; [apply alloc_subseteq | apply fresh_array_alloc].
Qed.

Lemma slice_fresh (h : store) (a : loc) (cell : Arrays.Cell) :
  h !! a = Some cell →
  ∃ r h', Arrays.slice h a = Some (r, h') ∧ h ⊆ h' ∧ fresh_array h h' r cell.
Proof.
  intros Ha. unfold Arrays.slice. rewrite Ha. cbn [mbind option_bind].
  eexists _, _. split; [reflexivity|]. split; [apply alloc_subseteq | apply fresh_array_alloc].
Qed.

(** The tags: a new array when a tag is kept, no array at all when none
    is, as [asDiagnosticTags] on the list says. *)
Lemma asDiagnosticTags_fresh (h : store) (tags : loc) (elems : list Z) :
  h !! tags = Some (Arrays.Numbers elems) →
  ∃ result h',
    Arrays.asDiagnosticTags (defined tags) h = Some (result, h')
    ∧ h ⊆ h'
    ∧ match result, asDiagnosticTags (defined elems) with
      | Some r, Some converted => fresh_array h h' r (Arrays.Numbers converted)
      | None, None => True
      | _, _ => False
      end.
Proof.
  intros Htags. unfold Arrays.asDiagnosticTags, asDiagnosticTags. rewrite Htags.
  unfold Arrays.alloc. cbv zeta.
  rewrite (push_Number_loop _ _ []) by apply lookup_insert_eq.
  rewrite insert_insert_eq, lookup_insert_eq.
  eexists _, _. split; [reflexivity|]. split.
  - apply insert_subseteq, not_elem_of_dom, is_fresh.
  - destruct (decide (0 < length (foldl asDiagnosticTags_step [] elems))%nat); [|done].
    apply fresh_array_intro; [apply is_fresh | apply lookup_insert_eq].
Qed.

Lemma read_WireDiagnostic_weaken (h h' : store) (item : Arrays.WireDiagnostic.t)
    (typed : proto.Diagnostic.t) :
  h ⊆ h' →
  Arrays.read_WireDiagnostic h item = Some typed →
  Arrays.read_WireDiagnostic h' item = Some typed.
Proof.
  intros Hsub. unfold Arrays.read_WireDiagnostic, Arrays.read_optional,
    Arrays.numbers_at, Arrays.wireRelatedInformations_at.
  destruct (Arrays.WireDiagnostic.tags item) as [tags|],
    (Arrays.WireDiagnostic.relatedInformation item) as [related|]; cbn [mbind option_bind fmap option_fmap option_map];
    repeat match goal with
    | |- context [h !! ?a] =>
        let H := fresh "H" in
        destruct (h !! a) as [[]|] eqn:H; cbn [mbind option_bind fmap option_fmap option_map]; try done;
        rewrite (lookup_weaken h h' _ _ H Hsub)
    end; done.
Qed.

Lemma read_Diagnostic_weaken (h h' : store) (item : Arrays.Diagnostic.t)
    (typed : code.Diagnostic.t) :
  h ⊆ h' →
  Arrays.read_Diagnostic h item = Some typed →
  Arrays.read_Diagnostic h' item = Some typed.
Proof.
  intros Hsub. unfold Arrays.read_Diagnostic, Arrays.read_optional,
    Arrays.numbers_at, Arrays.relatedInformations_at.
  destruct (Arrays.Diagnostic.tags item) as [tags|],
    (Arrays.Diagnostic.relatedInformation item) as [related|]; cbn [mbind option_bind fmap option_fmap option_map];
    repeat match goal with
    | |- context [h !! ?a] =>
        let H := fresh "H" in
        destruct (h !! a) as [[]|] eqn:H; cbn [mbind option_bind fmap option_fmap option_map]; try done;
        rewrite (lookup_weaken h h' _ _ H Hsub)
    end; done.
Qed.

Lemma asDiagnostic_tags_fresh (h : store) (tags : option loc) (typed : option (list Z)) :
  Arrays.read_optional (Arrays.numbers_at h) tags = Some typed →
  ∃ converted h',
    match tags with
    | Some tags => Arrays.asDiagnosticTags (defined tags) h
    | None => Some (None, h)
    end = Some (converted, h')
    ∧ h ⊆ h'
    ∧ Arrays.read_optional (Arrays.numbers_at h') converted
      = Some (match typed with
              | Some tags => asDiagnosticTags (defined tags)
              | None => None
              end)
    ∧ ∀ r, converted = Some r → r ∉ dom h.
Proof.
  destruct tags as [tags|]; cbn [Arrays.read_optional].
  - unfold Arrays.numbers_at at 1.
    destruct (h !! tags) as [[]|] eqn:Htags; try done.
    intros [= <-]. destruct (asDiagnosticTags_fresh h tags _ Htags)
      as (converted & h' & -> & Hsub & Hresult).
    exists converted, h'. split; [done|]. split; [done|].
    destruct converted as [r|], (asDiagnosticTags (defined elements)) as [numbers|];
      try done.
    destruct Hresult as (Hfresh & Hcell & _). split.
    + cbn [Arrays.read_optional]. unfold Arrays.numbers_at. by rewrite Hcell.
    + by intros ? [= <-].
  - intros [= <-]. exists None, h. done.
Qed.

Lemma asDiagnostic_relatedInformation_fresh (h : store) (related : option loc)
    (typed : option (list code.DiagnosticRelatedInformation.t)) :
  Arrays.read_optional (Arrays.relatedInformations_at h) related = Some typed →
  ∃ converted h',
    match related with
    | Some related =>
        '(converted, h) ← Arrays.asRelatedInformations uriConverter related h;
        Some (Some converted, h)
    | None => Some (None, h)
    end = Some (converted, h')
    ∧ h ⊆ h'
    ∧ Arrays.read_optional (Arrays.wireRelatedInformations_at h') converted
      = Some (asRelatedInformations uriConverter <$> typed)
    ∧ ∀ r, converted = Some r → r ∉ dom h.
Proof.
  destruct related as [related|]; cbn [Arrays.read_optional].
  - unfold Arrays.relatedInformations_at at 1.
    destruct (h !! related) as [[]|] eqn:Hrelated; try done.
    intros [= <-]. destruct (asRelatedInformations_fresh h related _ Hrelated)
      as (r & h' & -> & Hsub & Hfresh & Hcell & _).
    exists (Some r), h'. cbn [mbind option_bind]. split; [done|]. split; [done|]. split.
    + cbn [Arrays.read_optional]. unfold Arrays.wireRelatedInformations_at. by rewrite Hcell.
    + by intros ? [= <-].
  - intros [= <-]. exists None, h. done.
Qed.

(** A diagnostic: what the wire sees of the result is what [asDiagnostic]
    on the lists says, and the arrays the result holds are new. *)
Lemma asDiagnostic_fresh (h : store) (item : Arrays.Diagnostic.t) (typed : code.Diagnostic.t) :
  Arrays.read_Diagnostic h item = Some typed →
  ∃ converted h',
    Arrays.asDiagnostic uriConverter item h = Some (converted, h')
    ∧ h ⊆ h'
    ∧ Arrays.read_WireDiagnostic h' converted = Some (asDiagnostic uriConverter typed)
    ∧ ∀ r, r ∈ Arrays.arrays_of converted → r ∉ dom h.
Proof.
  destruct item as [range message severity code tags related source].
  unfold Arrays.read_Diagnostic, Arrays.asDiagnostic.
  cbn [Arrays.Diagnostic.range Arrays.Diagnostic.message Arrays.Diagnostic.severity
       Arrays.Diagnostic.code Arrays.Diagnostic.tags Arrays.Diagnostic.relatedInformation
       Arrays.Diagnostic.source].
  cbv zeta. intros Hread.
  destruct (Arrays.read_optional (Arrays.numbers_at h) tags) as [typed_tags|] eqn:Htags;
    [|done].
  destruct (Arrays.read_optional (Arrays.relatedInformations_at h) related)
    as [typed_related|] eqn:Hrelated; [|done].
  cbn [mbind option_bind] in Hread. injection Hread as <-.
  destruct (asDiagnostic_tags_fresh h tags _ Htags)
    as (tags' & h1 & Hcall1 & Hsub1 & Hread1 & Hfresh1).
  change (Arrays.WireDiagnostic.tags (Arrays.WireDiagnostic.create _ _)) with (@None loc).
  rewrite Hcall1. cbn [mbind option_bind].
  assert (Arrays.read_optional (Arrays.relatedInformations_at h1) related
          = Some typed_related) as Hrelated1.
  { destruct related as [related|]; [|done]. cbn [Arrays.read_optional] in *.
    unfold Arrays.relatedInformations_at in *.
    destruct (h !! related) as [cell|] eqn:Hcell; [|done].
    by rewrite (lookup_weaken h h1 _ _ Hcell Hsub1). }
  destruct (asDiagnostic_relatedInformation_fresh h1 related _ Hrelated1)
    as (related' & h2 & Hcall2 & Hsub2 & Hread2 & Hfresh2).
  change (Arrays.WireDiagnostic.relatedInformation (Arrays.WireDiagnostic.create _ _))
    with (@None loc).
  rewrite Hcall2. cbn [mbind option_bind].
  eexists _, h2. split; [reflexivity|]. split; [by etrans|]. split.
  - unfold Arrays.read_WireDiagnostic.
    cbn [Arrays.WireDiagnostic.range Arrays.WireDiagnostic.message
         Arrays.WireDiagnostic.severity Arrays.WireDiagnostic.code
         Arrays.WireDiagnostic.tags Arrays.WireDiagnostic.relatedInformation
         Arrays.WireDiagnostic.source Arrays.WireDiagnostic.create].
    assert (Arrays.read_optional (Arrays.numbers_at h2) tags'
            = Some (match typed_tags with
                    | Some tags => asDiagnosticTags (defined tags)
                    | None => None
                    end)) as ->.
    { destruct tags' as [r|]; [|done]. cbn [Arrays.read_optional] in *.
      unfold Arrays.numbers_at in *.
      destruct (h1 !! r) as [cell|] eqn:Hcell; [|done].
      by rewrite (lookup_weaken h1 h2 _ _ Hcell Hsub2). }
    rewrite Hread2. cbn [mbind option_bind]. unfold asDiagnostic.
    by destruct typed_related.
  - unfold Arrays.arrays_of.
    cbn [Arrays.WireDiagnostic.tags Arrays.WireDiagnostic.relatedInformation].
    intros r [Hr|Hr]%elem_of_app.
    + destruct tags' as [r'|]; [|by apply elem_of_nil in Hr].
      apply list_elem_of_singleton in Hr as ->. by apply Hfresh1.
    + destruct related' as [r'|]; [|by apply elem_of_nil in Hr].
      apply list_elem_of_singleton in Hr as ->.
      apply (not_elem_of_dom_subseteq h h1); [done | by apply Hfresh2].
Qed.

Lemma read_WireDiagnostic_insert (h : store) (r : loc) (cell : Arrays.Cell)
    (item : Arrays.WireDiagnostic.t) :
  r ∉ Arrays.arrays_of item →
  Arrays.read_WireDiagnostic (<[r := cell]> h) item = Arrays.read_WireDiagnostic h item.
Proof.
  unfold Arrays.arrays_of, Arrays.read_WireDiagnostic, Arrays.read_optional,
    Arrays.numbers_at, Arrays.wireRelatedInformations_at.
  intros Hr.
  destruct (Arrays.WireDiagnostic.tags item) as [tags|],
    (Arrays.WireDiagnostic.relatedInformation item) as [related|];
    cbn [option_list app] in Hr;
    rewrite ?lookup_insert_ne; try done.
  all: intros ->; apply Hr; set_solver.
Qed.

Lemma Array_map_asDiagnostic (h : store) (elems : list Arrays.Diagnostic.t)
    (typed : list code.Diagnostic.t) :
  Forall2 (λ item typed, Arrays.read_Diagnostic h item = Some typed) elems typed →
  ∃ converted h',
    Arrays.Array_map (Arrays.asDiagnostic uriConverter) elems h = Some (converted, h')
    ∧ h ⊆ h'
    ∧ Forall2 (λ item typed,
                 Arrays.read_WireDiagnostic h' item = Some (asDiagnostic uriConverter typed))
        converted typed
    ∧ Forall (λ item, ∀ r, r ∈ Arrays.arrays_of item → r ∉ dom h) converted.
Proof.
  intros Hread. revert h Hread.
  induction elems as [|item elems IH] in typed |- *; intros h Hread.
  - apply Forall2_nil_inv_l in Hread as ->. exists [], h. by repeat split.
  - apply Forall2_cons_inv_l in Hread as (first & rest & Hfirst & Hrest & ->).
    destruct (asDiagnostic_fresh h item first Hfirst)
      as (converted & h1 & Hcall & Hsub1 & Hwire & Hfresh).
    assert (Forall2 (λ item typed, Arrays.read_Diagnostic h1 item = Some typed) elems rest)
      as Hrest1.
    { eapply Forall2_impl; [exact Hrest|]. intros ? ? ?.
      by apply (read_Diagnostic_weaken h h1). }
    destruct (IH rest h1 Hrest1) as (others & h2 & Hmap & Hsub2 & Hwires & Hfreshs).
    cbn [Arrays.Array_map]. rewrite Hcall. cbn [mbind option_bind]. rewrite Hmap.
    cbn [mbind option_bind]. exists (converted :: others), h2.
    split; [done|]. split; [by etrans|]. split.
    + constructor; [|done]. by apply (read_WireDiagnostic_weaken h1 h2).
    + constructor; [done|]. eapply Forall_impl; [exact Hfreshs|].
      intros other Hother r Hr. apply (not_elem_of_dom_subseteq h h1); [done|].
      by apply Hother.
Qed.

(** An array of diagnostics: the array of the results is new, and so is
    every array its elements hold; what the wire sees of them is what
    [asDiagnostic] on the lists says. *)
Lemma asDiagnostics_fresh (h : store) (items : loc) (elems : list Arrays.Diagnostic.t)
    (typed : list code.Diagnostic.t) :
  h !! items = Some (Arrays.Diagnostics elems) →
  Forall2 (λ item typed, Arrays.read_Diagnostic h item = Some typed) elems typed →
  ∃ r h' converted,
    Arrays.asDiagnostics_defined uriConverter items h = Some (r, h')
    ∧ h ⊆ h'
    ∧ fresh_array h h' r (Arrays.WireDiagnostics converted)
    ∧ Forall2 (λ item typed,
                 Arrays.read_WireDiagnostic h' item = Some (asDiagnostic uriConverter typed))
        converted typed
    ∧ Forall (λ item, ∀ a, a ∈ Arrays.arrays_of item → (a ∉ dom h) ∧ a ≠ r) converted.
Proof.
  intros Hitems Hread. unfold Arrays.asDiagnostics_defined. rewrite Hitems.
  unfold Arrays.alloc. cbv zeta.
  set (r := fresh (dom h)). set (h1 := <[r := Arrays.WireDiagnostics []]> h).
  assert (r ∉ dom h) as Hr by apply is_fresh.
  assert (h ⊆ h1) as Hsub1 by (apply insert_subseteq, not_elem_of_dom, Hr).
  assert (Forall2 (λ item typed, Arrays.read_Diagnostic h1 item = Some typed) elems typed)
    as Hread1.
  { eapply Forall2_impl; [exact Hread|]. intros ? ? ?.
    by apply (read_Diagnostic_weaken h h1). }
  destruct (Array_map_asDiagnostic h1 elems typed Hread1)
    as (converted & h2 & -> & Hsub2 & Hwires & Hfreshs).
  cbn [mbind option_bind]. unfold Arrays.assign.
  exists r, (<[r := Arrays.WireDiagnostics converted]> h2), converted.
  assert (Forall (λ item, ∀ a, a ∈ Arrays.arrays_of item → (a ∉ dom h) ∧ a ≠ r) converted)
    as Hnested.
  { eapply Forall_impl; [exact Hfreshs|]. intros item Hitem a Ha. split.
    - apply (not_elem_of_dom_subseteq h h1); [done | by apply Hitem].
    - intros ->. apply (Hitem r Ha). subst h1. apply elem_of_dom.
      rewrite lookup_insert_eq. eauto. }
  split; [done|]. split; [|split; [|split; [|done]]].
  - apply insert_fresh_subseteq; [done | by etrans].
  - apply fresh_array_intro; [done | apply lookup_insert_eq].
  - clear Hread Hread1 Hfreshs.
    generalize (Arrays.WireDiagnostics converted). intros cell.
    revert typed Hwires Hnested.
    induction converted as [|item converted IH]; intros typed Hwires Hnested.
    + apply Forall2_nil_inv_l in Hwires as ->. constructor.
    + apply Forall2_cons_inv_l in Hwires as (first & rest & Hfirst & Hrest & ->).
      apply Forall_cons in Hnested as [Hitem Hnested].
      constructor; [|by apply IH].
      rewrite read_WireDiagnostic_insert; [done|].
      intros Hin. by destruct (Hitem r Hin).
Qed.

(** The change parameters: the outcome is that of [asChangeTextDocumentParams]
    on the lists; when the call returns, [contentChanges] is a new array,
    for a document as for an event. *)
Lemma asChangeTextDocumentParams_fresh (h : store) (arg : Arrays.Argument.t)
    (typed : ChangeArgument.t) :
  Arrays.read_Argument h arg = Some typed →
  ∃ outcome h',
    Arrays.asChangeTextDocumentParams uriConverter arg h = Some (outcome, h')
    ∧ h ⊆ h'
    ∧ match outcome, asChangeTextDocumentParams uriConverter typed with
      | Return params, Return typed_params =>
          Arrays.DidChangeTextDocumentParams.textDocument params
          = proto.DidChangeTextDocumentParams.textDocument typed_params
          ∧ fresh_array h h' (Arrays.DidChangeTextDocumentParams.contentChanges params)
              (Arrays.WireContentChanges
                 (proto.DidChangeTextDocumentParams.contentChanges typed_params))
      | Throw message, Throw typed_message => message = typed_message ∧ h' = h
      | _, _ => False
      end.
Proof.
  destruct arg as [uri version getText document contentChanges].
  unfold Arrays.read_Argument, Arrays.asChangeTextDocumentParams, asChangeTextDocumentParams,
    Arrays.isTextDocument, Arrays.isTextDocumentChangeEvent, isTextDocument,
    isTextDocumentChangeEvent.
  cbn [Arrays.Argument.uri Arrays.Argument.version Arrays.Argument.getText
       Arrays.Argument.document Arrays.Argument.contentChanges].
  intros Hread.
  destruct (Arrays.read_optional (Arrays.contentChanges_at h) contentChanges)
    as [changes|] eqn:Hchanges; [|done].
  cbn [mbind option_bind] in Hread. injection Hread as <-.
  cbn [ChangeArgument.uri ChangeArgument.version ChangeArgument.getText
       ChangeArgument.document ChangeArgument.contentChanges].
  assert (truthy_object changes = truthy_object contentChanges) as ->.
  { destruct contentChanges as [a|]; cbn [Arrays.read_optional] in Hchanges.
    - by destruct (Arrays.contentChanges_at h a); simplify_eq/=.
    - by simplify_eq. }
  destruct (truthy_object uri && truthy_number version) eqn:Hdocument.
  { destruct uri as [uri|], version as [version|]; try done.
    eexists _, _. split; [reflexivity|]. split; [apply alloc_subseteq|].
    split; [done | apply fresh_array_alloc]. }
  destruct (truthy_object document && truthy_object contentChanges) eqn:Hevent.
  { destruct document as [document|], contentChanges as [a|]; try done.
    cbn [Arrays.read_optional] in Hchanges. unfold Arrays.contentChanges_at in Hchanges.
    destruct (h !! a) as [[]|]; simplify_eq/=.
    eexists _, _. split; [reflexivity|]. split; [apply alloc_subseteq|].
    split; [done | apply fresh_array_alloc]. }
  eexists _, _. split; [reflexivity|]. done.
Qed.

(** A code action context: [diagnostics] is a new array of diagnostics that
    hold new arrays, and [only], when there is one, is a new array of the
    one kind. *)
Lemma asCodeActionContext_fresh (h : store) (context : Arrays.CodeActionContext.t)
    (elems : list Arrays.Diagnostic.t) (typed : list code.Diagnostic.t) :
  h !! Arrays.CodeActionContext.diagnostics context = Some (Arrays.Diagnostics elems) →
  Forall2 (λ item typed, Arrays.read_Diagnostic h item = Some typed) elems typed →
  ∃ result h' converted,
    Arrays.asCodeActionContext uriConverter (defined context) h = Some (defined result, h')
    ∧ h ⊆ h'
    ∧ fresh_array h h' (Arrays.WireCodeActionContext.diagnostics result)
        (Arrays.WireDiagnostics converted)
    ∧ Forall2 (λ item typed,
                 Arrays.read_WireDiagnostic h' item = Some (asDiagnostic uriConverter typed))
        converted typed
    ∧ Forall (λ item, ∀ a, a ∈ Arrays.arrays_of item → a ∉ dom h) converted
    ∧ match Arrays.CodeActionContext.only context, Arrays.WireCodeActionContext.only result with
      | Some kind, Some r => fresh_array h h' r (Arrays.Strings [code.CodeActionKind.value kind])
      | None, None => True
      | _, _ => False
      end.
Proof.
  destruct context as [diagnostics only]. cbn [Arrays.CodeActionContext.diagnostics
    Arrays.CodeActionContext.only]. intros Hdiagnostics Hread.
  unfold Arrays.asCodeActionContext.
  cbn [Arrays.CodeActionContext.diagnostics Arrays.CodeActionContext.only].
  set (allocated :=
         match only with
         | Some only =>
             let '(only, h) := Arrays.alloc h (Arrays.Strings [code.CodeActionKind.value only]) in
             (Some only, h)
         | None => (None, h)
         end).
  assert (h ⊆ allocated.2
          ∧ match only, allocated.1 with
            | Some kind, Some r =>
                (r ∉ dom h)
                ∧ allocated.2 !! r = Some (Arrays.Strings [code.CodeActionKind.value kind])
            | None, None => True
            | _, _ => False
            end) as [Hsub1 Honly].
  { subst allocated. destruct only as [kind|]; cbn [fst snd]; [|done]. split.
    - apply alloc_subseteq.
    - split; [apply is_fresh | apply lookup_insert_eq]. }
  destruct allocated as [only' h1]. cbn [fst snd] in *.
  assert (Forall2 (λ item typed, Arrays.read_Diagnostic h1 item = Some typed) elems typed)
    as Hread1.
  { eapply Forall2_impl; [exact Hread|]. intros ? ? ?.
    by apply (read_Diagnostic_weaken h h1). }
  destruct (asDiagnostics_fresh h1 diagnostics elems typed
              (lookup_weaken h h1 _ _ Hdiagnostics Hsub1) Hread1)
    as (r & h2 & converted & -> & Hsub2 & (Hr & Hcell & _) & Hwires & Hnested).
  cbn [mbind option_bind]. exists (Arrays.WireCodeActionContext.create r only'), h2, converted.
  cbn [Arrays.WireCodeActionContext.create Arrays.WireCodeActionContext.diagnostics
       Arrays.WireCodeActionContext.only].
  split; [done|]. split; [by etrans|]. split.
  { apply fresh_array_intro; [|done]. by apply (not_elem_of_dom_subseteq h h1). }
  split; [done|]. split.
  { eapply Forall_impl; [exact Hnested|]. intros item Hitem a Ha.
    apply (not_elem_of_dom_subseteq h h1); [done|]. by apply Hitem. }
  destruct only as [kind|], only' as [r'|]; try done.
  destruct Honly as [Hr' Hcell']. apply fresh_array_intro; [done|].
  by apply (lookup_weaken h1 h2).
Qed.

Lemma asCommand_arguments (command : code.Command.t) :
  proto.Command.arguments (asCommand command) = code.Command.arguments command.
Proof. unfold asCommand. by destruct (code.Command.arguments command). Qed.

(** A completion item: [additionalTextEdits] and [commitCharacters] are
    new arrays; the command's [arguments] is the editor's own array. *)
Lemma asCompletionItem_arrays (h : store) (item : Arrays.CompletionItem.t) :
  (∀ a, Arrays.CompletionItem.additionalTextEdits item = Some a →
        ∃ elems, h !! a = Some (Arrays.TextEdits elems)) →
  (∀ a, Arrays.CompletionItem.commitCharacters item = Some a → a ∈ dom h) →
  ∃ result h',
    Arrays.asCompletionItem item h = Some (result, h')
    ∧ h ⊆ h'
    ∧ match Arrays.CompletionItem.additionalTextEdits item,
            Arrays.WireCompletionItem.additionalTextEdits result with
      | Some a, Some r =>
          ∃ elems, h !! a = Some (Arrays.TextEdits elems)
                   ∧ fresh_array h h' r (Arrays.WireTextEdits (asTextEdits elems))
      | None, None => True
      | _, _ => False
      end
    ∧ match Arrays.CompletionItem.commitCharacters item,
            Arrays.WireCompletionItem.commitCharacters result with
      | Some a, Some r => ∃ cell, h !! a = Some cell ∧ fresh_array h h' r cell
      | None, None => True
      | _, _ => False
      end
    ∧ match Arrays.CompletionItem.command item, Arrays.WireCompletionItem.command result with
      | Some command, Some converted =>
          proto.Command.arguments converted = code.Command.arguments command
      | None, None => True
      | _, _ => False
      end.
Proof.
  destruct item as [edits characters command].
  cbn [Arrays.CompletionItem.additionalTextEdits Arrays.CompletionItem.commitCharacters
       Arrays.CompletionItem.command]. intros Hedits Hcharacters.
  unfold Arrays.asCompletionItem.
  cbn [Arrays.CompletionItem.additionalTextEdits Arrays.CompletionItem.commitCharacters
       Arrays.CompletionItem.command].
  assert (∃ edits' h1,
            match edits with
            | Some additionalTextEdits =>
                '(converted, h) ← Arrays.asTextEdits additionalTextEdits h;
                Some (Some converted, h)
            | None => Some (None, h)
            end = Some (edits', h1)
            ∧ h ⊆ h1
            ∧ match edits, edits' with
              | Some a, Some r =>
                  ∃ elems, h !! a = Some (Arrays.TextEdits elems)
                           ∧ (r ∉ dom h)
                           ∧ h1 !! r = Some (Arrays.WireTextEdits (asTextEdits elems))
              | None, None => True
              | _, _ => False
              end) as (edits' & h1 & -> & Hsub1 & Hedits').
  { destruct edits as [a|]; [|by exists None, h].
    destruct (Hedits a eq_refl) as [elems Ha].
    destruct (asTextEdits_fresh h a elems Ha) as (r & h1 & -> & Hsub & Hr & Hcell & _).
    exists (Some r), h1. cbn [mbind option_bind]. split; [done|]. split; [done|].
    by exists elems. }
  cbn [mbind option_bind].
  assert (∃ characters' h2,
            match characters with
            | Some commitCharacters =>
                '(copy, h) ← Arrays.slice h1 commitCharacters;
                Some (Some copy, h)
            | None => Some (None, h1)
            end = Some (characters', h2)
            ∧ h1 ⊆ h2
            ∧ match characters, characters' with
              | Some a, Some r =>
                  ∃ cell, h !! a = Some cell ∧ (r ∉ dom h1) ∧ h2 !! r = Some cell
              | None, None => True
              | _, _ => False
              end) as (characters' & h2 & -> & Hsub2 & Hcharacters').
  { destruct characters as [a|]; [|by exists None, h1].
    destruct (proj1 (elem_of_dom h a) (Hcharacters a eq_refl)) as [cell Ha].
    destruct (slice_fresh h1 a cell (lookup_weaken h h1 _ _ Ha Hsub1))
      as (r & h2 & -> & Hsub & Hr & Hcell & _).
    exists (Some r), h2. cbn [mbind option_bind]. split; [done|]. split; [done|].
    by exists cell. }
  cbn [mbind option_bind]. eexists _, h2. split; [reflexivity|].
  cbn [Arrays.WireCompletionItem.additionalTextEdits
       Arrays.WireCompletionItem.commitCharacters Arrays.WireCompletionItem.command].
  split; [by etrans|]. split; [|split].
  - destruct edits as [a|], edits' as [r|]; try done.
    destruct Hedits' as (elems & Ha & Hr & Hcell). exists elems. split; [done|].
    apply fresh_array_intro; [done|]. by apply (lookup_weaken h1 h2).
  - destruct characters as [a|], characters' as [r|]; try done.
    destruct Hcharacters' as (cell & Ha & Hr & Hcell). exists cell. split; [done|].
    apply fresh_array_intro; [|done]. by apply (not_elem_of_dom_subseteq h h1).
  - destruct command as [command|]; [apply asCommand_arguments | done].
Qed.

End ArraysProperties.


(** ** More properties of the converter *)

Section MoreProperties.

Variable uriConverter : option URIConverter.

(** *** The other properties of a completion item *)

Lemma fillPrimaryInsertText_frame_others target source :
  let result := fillPrimaryInsertText target source in
  proto.CompletionItem.detail result = proto.CompletionItem.detail target
  ∧ proto.CompletionItem.documentation result = proto.CompletionItem.documentation target
  ∧ proto.CompletionItem.filterText result = proto.CompletionItem.filterText target
  ∧ proto.CompletionItem.sortText result = proto.CompletionItem.sortText target
  ∧ proto.CompletionItem.additionalTextEdits result
    = proto.CompletionItem.additionalTextEdits target
  ∧ proto.CompletionItem.preselect result = proto.CompletionItem.preselect target
  ∧ proto.CompletionItem.deprecated result = proto.CompletionItem.deprecated target
  ∧ proto.CompletionItem.data result = proto.CompletionItem.data target.
Proof. unfold fillPrimaryInsertText. repeat case_match; by simpl. Qed.

Lemma asCompletionItem_others item h :
  let result := (asCompletionItem item h).1 in
  proto.CompletionItem.label result = code.CompletionItem.label item
  ∧ proto.CompletionItem.detail result
    = (if truthy_string (code.CompletionItem.detail item)
       then code.CompletionItem.detail item else None)
  ∧ proto.CompletionItem.documentation result = documentation_sent item
  ∧ proto.CompletionItem.filterText result
    = (if truthy_string (code.CompletionItem.filterText item)
       then code.CompletionItem.filterText item else None)
  ∧ proto.CompletionItem.sortText result
    = (if truthy_string (code.CompletionItem.sortText item)
       then code.CompletionItem.sortText item else None)
  ∧ proto.CompletionItem.additionalTextEdits result
    = asTextEdits <$> code.CompletionItem.additionalTextEdits item
  ∧ proto.CompletionItem.preselect result = code.CompletionItem.preselect item
  ∧ proto.CompletionItem.deprecated result
    = code.CompletionItem.protocolItem item ≫= code.ProtocolCompletionItem.deprecated
  ∧ proto.CompletionItem.data result
    = code.CompletionItem.protocolItem item ≫= code.ProtocolCompletionItem.data.
Proof.
  cbv zeta.
  set (detail := if truthy_string (code.CompletionItem.detail item)
                 then code.CompletionItem.detail item else None).
  set (filterText := if truthy_string (code.CompletionItem.filterText item)
                     then code.CompletionItem.filterText item else None).
  set (documentation := documentation_sent item).
  unfold asCompletionItem. cbv zeta.
  match goal with |- context [fillPrimaryInsertText ?t item] =>
    assert (proto.CompletionItem.label (fillPrimaryInsertText t item)
            = code.CompletionItem.label item
            ∧ proto.CompletionItem.detail (fillPrimaryInsertText t item) = detail
            ∧ proto.CompletionItem.documentation (fillPrimaryInsertText t item)
              = documentation
            ∧ proto.CompletionItem.filterText (fillPrimaryInsertText t item) = filterText
            ∧ proto.CompletionItem.sortText (fillPrimaryInsertText t item) = None
            ∧ proto.CompletionItem.additionalTextEdits (fillPrimaryInsertText t item) = None
            ∧ proto.CompletionItem.preselect (fillPrimaryInsertText t item) = None
            ∧ proto.CompletionItem.deprecated (fillPrimaryInsertText t item) = None
            ∧ proto.CompletionItem.data (fillPrimaryInsertText t item) = None)
      as Hfilled
      by (destruct (fillPrimaryInsertText_frame t item) as (-> & _);
          destruct (fillPrimaryInsertText_frame_others t item)
            as (-> & -> & -> & -> & -> & -> & -> & ->);
          subst detail filterText documentation; unfold documentation_sent;
          repeat case_match; simplify_eq; by simpl);
    revert Hfilled; generalize (fillPrimaryInsertText t item)
  end.
  clearbody detail filterText documentation.
  intros filled
    (Hlabel & Hdetail & Hdoc & Hfilter & Hsort & Hedits & Hpreselect & Hdeprecated & Hdata).
  repeat case_match; unfold slice, alloc in *; simplify_eq; simpl;
    by rewrite ?Hlabel, ?Hdetail, ?Hdoc, ?Hfilter, ?Hsort, ?Hedits, ?Hpreselect,
         ?Hdeprecated, ?Hdata.
Qed.

(** *** Document lifecycle *)

(** X1. A save notification carries the document's uri and version; it
    carries the text exactly when [includeContent] is passed as [true], and
    leaving the argument out is the same as passing [false]. *)
Theorem asSaveTextDocumentParams_content
    (textDocument : code.TextDocument.t) (includeContent : option bool) :
  let result := asSaveTextDocumentParams uriConverter textDocument includeContent in
  proto.DidSaveTextDocumentParams.textDocument result
    = asVersionedTextDocumentIdentifier uriConverter textDocument
  ∧ (includeContent = Some true →
     proto.DidSaveTextDocumentParams.text result
       = Some (code.TextDocument.getText textDocument))
  ∧ (includeContent ≠ Some true → proto.DidSaveTextDocumentParams.text result = None).
Proof.
  unfold asSaveTextDocumentParams. destruct includeContent as [[]|]; simpl; by repeat split.
Qed.

(** X2. The reason of a will-save notification is always one of the three
    wire reasons: [AfterDelay] and [FocusOut] are kept, and every other
    number the editor may send, known or not, becomes [Manual]. *)
Theorem asWillSaveTextDocumentParams_reason (event : code.TextDocumentWillSaveEvent.t) :
  let reason := code.TextDocumentWillSaveEvent.reason event in
  let wire := proto.WillSaveTextDocumentParams.reason
                (asWillSaveTextDocumentParams uriConverter event) in
  (wire = proto.TextDocumentSaveReason.Manual
   ∨ wire = proto.TextDocumentSaveReason.AfterDelay
   ∨ wire = proto.TextDocumentSaveReason.FocusOut)
  ∧ (reason = code.TextDocumentSaveReason.AfterDelay →
     wire = proto.TextDocumentSaveReason.AfterDelay)
  ∧ (reason = code.TextDocumentSaveReason.FocusOut →
     wire = proto.TextDocumentSaveReason.FocusOut)
  ∧ (reason ≠ code.TextDocumentSaveReason.AfterDelay →
     reason ≠ code.TextDocumentSaveReason.FocusOut →
     wire = proto.TextDocumentSaveReason.Manual).
Proof.
  simpl. unfold asTextDocumentSaveReason.
  unfold code.TextDocumentSaveReason.Manual, code.TextDocumentSaveReason.AfterDelay,
    code.TextDocumentSaveReason.FocusOut, proto.TextDocumentSaveReason.Manual,
    proto.TextDocumentSaveReason.AfterDelay, proto.TextDocumentSaveReason.FocusOut.
  repeat case_decide; repeat split; intros; subst; try done; try lia; auto.
Qed.

(** X3. The trigger kind of a completion request is always one of the
    three wire kinds: [TriggerCharacter] and
    [TriggerForIncompleteCompletions] are kept, every other number becomes
    [Invoked]; the trigger character is handed on as it is. *)
Theorem asCompletionParams_context
    (textDocument : code.TextDocument.t) (position : code.Position.t)
    (context : code.CompletionContext.t) :
  let triggerKind := code.CompletionContext.triggerKind context in
  let wire := proto.CompletionParams.context
                (asCompletionParams uriConverter textDocument position context) in
  let wireKind := proto.CompletionContext.triggerKind wire in
  (wireKind = proto.CompletionTriggerKind.Invoked
   ∨ wireKind = proto.CompletionTriggerKind.TriggerCharacter
   ∨ wireKind = proto.CompletionTriggerKind.TriggerForIncompleteCompletions)
  ∧ (triggerKind = code.CompletionTriggerKind.TriggerCharacter →
     wireKind = proto.CompletionTriggerKind.TriggerCharacter)
  ∧ (triggerKind = code.CompletionTriggerKind.TriggerForIncompleteCompletions →
     wireKind = proto.CompletionTriggerKind.TriggerForIncompleteCompletions)
  ∧ (triggerKind ≠ code.CompletionTriggerKind.TriggerCharacter →
     triggerKind ≠ code.CompletionTriggerKind.TriggerForIncompleteCompletions →
     wireKind = proto.CompletionTriggerKind.Invoked)
  ∧ proto.CompletionContext.triggerCharacter wire
    = code.CompletionContext.triggerCharacter context.
Proof.
  simpl. unfold asTriggerKind.
  unfold code.CompletionTriggerKind.TriggerCharacter,
    code.CompletionTriggerKind.TriggerForIncompleteCompletions,
    proto.CompletionTriggerKind.Invoked, proto.CompletionTriggerKind.TriggerCharacter,
    proto.CompletionTriggerKind.TriggerForIncompleteCompletions.
  repeat case_decide; repeat split; intros; subst; try done; try lia; auto.
Qed.

(** X4. Every message about a document names it the same way: the uri is
    the one the uri converter gives, in the identifier, in the open, close,
    save and will-save parameters and in the parameters of the requests; the
    version is the document's own wherever a version is sent. Without a
    converter of the caller the uri is what [toString] gives. *)
Theorem same_document_same_identifier (textDocument : code.TextDocument.t)
    (position : code.Position.t) :
  let uri := _uriConverter uriConverter (code.TextDocument.uri textDocument) in
  let version := code.TextDocument.version textDocument in
  let identifier := proto.TextDocumentIdentifier.mk uri in
  asTextDocumentIdentifier uriConverter textDocument = identifier
  ∧ asVersionedTextDocumentIdentifier uriConverter textDocument
    = proto.VersionedTextDocumentIdentifier.mk uri version
  ∧ proto.TextDocumentItem.uri
      (proto.DidOpenTextDocumentParams.textDocument
         (asOpenTextDocumentParams uriConverter textDocument)) = uri
  ∧ proto.TextDocumentItem.version
      (proto.DidOpenTextDocumentParams.textDocument
         (asOpenTextDocumentParams uriConverter textDocument)) = version
  ∧ proto.DidCloseTextDocumentParams.textDocument
      (asCloseTextDocumentParams uriConverter textDocument) = identifier
  ∧ (∀ includeContent,
       proto.DidSaveTextDocumentParams.textDocument
         (asSaveTextDocumentParams uriConverter textDocument includeContent)
       = proto.VersionedTextDocumentIdentifier.mk uri version)
  ∧ (∀ reason,
       proto.WillSaveTextDocumentParams.textDocument
         (asWillSaveTextDocumentParams uriConverter
            (code.TextDocumentWillSaveEvent.mk textDocument reason)) = identifier)
  ∧ (∀ changes,
       ∃ params,
         asChangeTextDocumentParams uriConverter
           (ChangeArgument.ofTextDocumentChangeEvent
              (code.TextDocumentChangeEvent.mk textDocument changes)) = Return params
         ∧ proto.DidChangeTextDocumentParams.textDocument params
           = proto.VersionedTextDocumentIdentifier.mk uri version)
  ∧ proto.TextDocumentPositionParams.textDocument
      (asTextDocumentPositionParams uriConverter textDocument position) = identifier
  ∧ (∀ context,
       proto.CompletionParams.textDocument
         (asCompletionParams uriConverter textDocument position context) = identifier)
  ∧ (∀ options,
       proto.ReferenceParams.textDocument
         (asReferenceParams uriConverter textDocument position options) = identifier)
  ∧ proto.DocumentSymbolParams.textDocument
      (asDocumentSymbolParams uriConverter textDocument) = identifier
  ∧ proto.CodeLensParams.textDocument (asCodeLensParams uriConverter textDocument)
    = identifier
  ∧ proto.DocumentLinkParams.textDocument (asDocumentLinkParams uriConverter textDocument)
    = identifier
  ∧ (uriConverter = None → uri = code.Uri.toString (code.TextDocument.uri textDocument))
  ∧ (∀ converter, uriConverter = Some converter →
       uri = converter (code.TextDocument.uri textDocument)).
Proof.
  cbv zeta. repeat split; try done.
  - intros includeContent. unfold asSaveTextDocumentParams.
    by destruct (default false includeContent).
  - intros changes. eexists. split; reflexivity.
  - by intros ->.
  - by intros converter ->.
Qed.

(** X5. A change event is converted whatever the version of its document:
    the version is only tested on an argument that is itself a document.
    The parameters name the event's document by its uri and version, and an
    event without edits gives an empty list of changes, not an error. *)
Theorem asChangeTextDocumentParams_event (event : code.TextDocumentChangeEvent.t) :
  ∃ params,
    asChangeTextDocumentParams uriConverter (ChangeArgument.ofTextDocumentChangeEvent event)
      = Return params
    ∧ proto.DidChangeTextDocumentParams.textDocument params
      = asVersionedTextDocumentIdentifier uriConverter
          (code.TextDocumentChangeEvent.document event)
    ∧ (proto.DidChangeTextDocumentParams.contentChanges params = []
       ↔ code.TextDocumentChangeEvent.contentChanges event = []).
Proof.
  eexists. split; [reflexivity|]. split; [reflexivity|]. simpl.
  destruct (code.TextDocumentChangeEvent.contentChanges event); by split.
Qed.

(** X6. An argument that passes for a document is converted as a document
    even when it also has [document] and [contentChanges]: the result is the
    single full-text change, and the edits are not looked at. *)
Theorem asChangeTextDocumentParams_document_first (arg : ChangeArgument.t) :
  isTextDocument arg = true →
  ∃ uri version,
    ChangeArgument.uri arg = Some uri
    ∧ ChangeArgument.version arg = Some version
    ∧ version ≠ 0
    ∧ asChangeTextDocumentParams uriConverter arg
      = Return (proto.DidChangeTextDocumentParams.mk
                  (proto.VersionedTextDocumentIdentifier.mk
                     (_uriConverter uriConverter uri) version)
                  [proto.TextDocumentContentChangeEvent.mk
                     None None (ChangeArgument.getText arg)]).
Proof.
  intros Hdocument. unfold asChangeTextDocumentParams. rewrite Hdocument.
  destruct (isTextDocument_true_fields arg Hdocument) as (uri & version & Huri & Hversion & Hne).
  exists uri, version. by rewrite Huri, Hversion.
Qed.

(** *** Diagnostics *)

(** X7. The four severities of the editor become the wire severities of
    the same names. Any other number leaves the wire diagnostic without a
    severity, and no two numbers give the same wire severity. *)
Theorem asDiagnostic_severity (item : code.Diagnostic.t) (severity : Z) :
  code.Diagnostic.severity item = Some severity →
  let wire := proto.Diagnostic.severity (asDiagnostic uriConverter item) in
  (severity = code.DiagnosticSeverity.Error → wire = Some proto.DiagnosticSeverity.Error)
  ∧ (severity = code.DiagnosticSeverity.Warning →
     wire = Some proto.DiagnosticSeverity.Warning)
  ∧ (severity = code.DiagnosticSeverity.Information →
     wire = Some proto.DiagnosticSeverity.Information)
  ∧ (severity = code.DiagnosticSeverity.Hint → wire = Some proto.DiagnosticSeverity.Hint)
  ∧ (severity ≠ code.DiagnosticSeverity.Error →
     severity ≠ code.DiagnosticSeverity.Warning →
     severity ≠ code.DiagnosticSeverity.Information →
     severity ≠ code.DiagnosticSeverity.Hint →
     wire = None)
  ∧ (∀ other wireSeverity,
       wire = Some wireSeverity →
       asDiagnosticSeverity other = Some wireSeverity →
       other = severity).
Proof.
  intros Hseverity. unfold asDiagnostic. cbn [proto.Diagnostic.severity]. rewrite Hseverity.
  unfold asDiagnosticSeverity.
  unfold code.DiagnosticSeverity.Error, code.DiagnosticSeverity.Warning,
    code.DiagnosticSeverity.Information, code.DiagnosticSeverity.Hint,
    proto.DiagnosticSeverity.Error, proto.DiagnosticSeverity.Warning,
    proto.DiagnosticSeverity.Information, proto.DiagnosticSeverity.Hint.
  repeat split; intros; repeat case_decide; simplify_eq; try done; try lia.
Qed.

(** X8. A wire diagnostic always has the range and the message. The code
    is handed on as it is, a number or a string, [0] and the empty string
    included; the source is left out when it is missing or empty; severity,
    tags and related information are left out when the editor's diagnostic
    has none. *)
Theorem asDiagnostic_optional_fields (item : code.Diagnostic.t) :
  let result := asDiagnostic uriConverter item in
  proto.Diagnostic.range result = asRange_defined (code.Diagnostic.range item)
  ∧ proto.Diagnostic.message result = code.Diagnostic.message item
  ∧ proto.Diagnostic.code result = code.Diagnostic.code item
  ∧ (proto.Diagnostic.source result = None
     ↔ code.Diagnostic.source item = None ∨ code.Diagnostic.source item = Some "")
  ∧ (∀ source, proto.Diagnostic.source result = Some source →
       code.Diagnostic.source item = Some source)
  ∧ (code.Diagnostic.severity item = None → proto.Diagnostic.severity result = None)
  ∧ (code.Diagnostic.tags item = None → proto.Diagnostic.tags result = None)
  ∧ (code.Diagnostic.relatedInformation item = None →
     proto.Diagnostic.relatedInformation result = None).
Proof.
  unfold asDiagnostic. simpl. repeat split.
  - by destruct (code.Diagnostic.code item).
  - destruct (code.Diagnostic.source item) as [source|]; simpl; [|by left].
    destruct (String.eqb_spec source ""); simpl; intros; [right; congruence | done].
  - destruct (code.Diagnostic.source item) as [source|]; simpl; [|done].
    destruct (String.eqb_spec source ""); simpl; [done|]. intros [?|?]; congruence.
  - intros source. destruct (code.Diagnostic.source item) as [source'|]; simpl; [|done].
    by destruct (String.eqb_spec source' "").
  - by intros ->.
  - by intros ->.
  - by intros ->.
Qed.

(** X9. Related information is converted piece by piece and in order: each
    piece keeps its message, and its location has the converted range and
    the uri the uri converter gives. An empty list stays an empty list. *)
Theorem asDiagnostic_relatedInformation (item : code.Diagnostic.t)
    (related : list code.DiagnosticRelatedInformation.t) :
  code.Diagnostic.relatedInformation item = Some related →
  ∃ wire,
    proto.Diagnostic.relatedInformation (asDiagnostic uriConverter item) = Some wire
    ∧ length wire = length related
    ∧ ∀ (i : nat) information,
        related !! i = Some information →
        wire !! i =
          Some (proto.DiagnosticRelatedInformation.mk
                  (proto.Location.mk
                     (_uriConverter uriConverter
                        (code.Location.uri
                           (code.DiagnosticRelatedInformation.location information)))
                     (asRange_defined
                        (code.Location.range
                           (code.DiagnosticRelatedInformation.location information))))
                  (code.DiagnosticRelatedInformation.message information)).
Proof.
  intros Hrelated. unfold asDiagnostic. cbn [proto.Diagnostic.relatedInformation].
  rewrite Hrelated. eexists. split; [reflexivity|]. unfold asRelatedInformations. split.
  - by rewrite length_fmap.
  - intros i information Hi. by rewrite list_lookup_fmap, Hi.
Qed.

(** X10. [asDiagnosticTags] gives [undefined] for [undefined] and for
    [null]. A list it returns is never empty, is no longer than the list it
    was given and holds nothing but the two wire tags. *)
Theorem asDiagnosticTags_result :
  asDiagnosticTags undefined = None
  ∧ asDiagnosticTags null = None
  ∧ ∀ tags wire,
      asDiagnosticTags (defined tags) = Some wire →
      wire ≠ []
      ∧ (length wire ≤ length tags)%nat
      ∧ ∀ tag, tag ∈ wire →
          tag = proto.DiagnosticTag.Unnecessary ∨ tag = proto.DiagnosticTag.Deprecated.
Proof.
  split; [done|]. split; [done|]. intros tags wire.
  rewrite asDiagnosticTags_defined.
  destruct (filter Spec.allowedTag tags) as [|tag kept] eqn:Hkept; [done|].
  intros [= <-]. split; [done|]. split.
  - change (length (Spec.wireTag <$> tag :: kept) ≤ length tags)%nat.
    rewrite length_fmap, <- Hkept. apply length_filter.
  - change (∀ wireTag, wireTag ∈ Spec.wireTag <$> tag :: kept →
              wireTag = proto.DiagnosticTag.Unnecessary
              ∨ wireTag = proto.DiagnosticTag.Deprecated).
    intros wireTag [host [-> _]]%list_elem_of_fmap. unfold Spec.wireTag.
    case_decide; [by left | by right].
Qed.

(** X11. [asCodeActionContext] hands [undefined] and [null] back.
    Otherwise the diagnostics are converted one by one, and [only] is the
    one-element list of the editor's kind when the context has a kind and is
    left out when it has none: it is never an empty list. *)
Theorem asCodeActionContext_only :
  asCodeActionContext uriConverter undefined = undefined
  ∧ asCodeActionContext uriConverter null = null
  ∧ ∀ context : code.CodeActionContext.t,
      ∃ result,
        asCodeActionContext uriConverter (defined context) = defined result
        ∧ proto.CodeActionContext.diagnostics result
          = defined (asDiagnostic uriConverter <$> code.CodeActionContext.diagnostics context)
        ∧ proto.CodeActionContext.only result
          = (λ kind, [code.CodeActionKind.value kind]) <$> code.CodeActionContext.only context
        ∧ proto.CodeActionContext.only result ≠ Some [].
Proof.
  split; [done|]. split; [done|]. intros context. eexists. split; [reflexivity|]. simpl.
  destruct (code.CodeActionContext.only context); by repeat split.
Qed.

(** *** Code lenses and document links *)

(** X12. A code lens keeps its range. Its command is converted by
    [asCommand], the wire command holding the editor's own array of
    arguments. Resolve data is sent only for a [ProtocolCodeLens] whose data
    is truthy: data such as [0], [false], the empty string or [null] is never
    sent. *)
Theorem asCodeLens_command_data (item : code.CodeLens.t) :
  let result := asCodeLens item in
  proto.CodeLens.range result = asRange_defined (code.CodeLens.range item)
  ∧ proto.CodeLens.command result = asCommand <$> code.CodeLens.command item
  ∧ (∀ command, code.CodeLens.command item = Some command →
       ∃ command',
         proto.CodeLens.command result = Some command'
         ∧ proto.Command.arguments command' = code.Command.arguments command)
  ∧ (code.CodeLens.protocolItem item = None → proto.CodeLens.data result = None)
  ∧ (∀ protocolItem data,
       code.CodeLens.protocolItem item = Some protocolItem →
       code.ProtocolCodeLens.data protocolItem = Some data →
       truthy_any (Some data) = true →
       proto.CodeLens.data result = Some data)
  ∧ (∀ data, proto.CodeLens.data result = Some data → truthy_any (Some data) = true).
Proof.
  unfold asCodeLens. cbv zeta.
  destruct (code.CodeLens.command item) as [command|],
    (code.CodeLens.protocolItem item) as [[data]|];
    cbn [code.ProtocolCodeLens.data];
    try destruct (truthy_any data) eqn:Hdata;
    cbn [proto.CodeLens.range proto.CodeLens.command proto.CodeLens.data
         proto.CodeLens.create fmap option_fmap option_map];
    repeat split; intros; simplify_eq; cbn [code.ProtocolCodeLens.data] in *;
    simplify_eq; try done; try congruence.
  all: eexists; split; [reflexivity|]; unfold asCommand;
    by destruct (code.Command.arguments _).
Qed.

(** X13. A document link keeps its range; its target, when it has one, is
    named by the uri converter; resolve data is sent only for a
    [ProtocolDocumentLink] whose data is truthy. *)
Theorem asDocumentLink_target_data (item : code.DocumentLink.t) :
  let result := asDocumentLink uriConverter item in
  proto.DocumentLink.range result = asRange_defined (code.DocumentLink.range item)
  ∧ proto.DocumentLink.target result
    = _uriConverter uriConverter <$> code.DocumentLink.target item
  ∧ (code.DocumentLink.protocolItem item = None → proto.DocumentLink.data result = None)
  ∧ (∀ protocolItem data,
       code.DocumentLink.protocolItem item = Some protocolItem →
       code.ProtocolDocumentLink.data protocolItem = Some data →
       truthy_any (Some data) = true →
       proto.DocumentLink.data result = Some data)
  ∧ (∀ data, proto.DocumentLink.data result = Some data → truthy_any (Some data) = true).
Proof.
  unfold asDocumentLink. cbv zeta.
  destruct (code.DocumentLink.target item) as [target|],
    (code.DocumentLink.protocolItem item) as [[data]|];
    cbn [code.ProtocolDocumentLink.data];
    try destruct (truthy_any data) eqn:Hdata;
    cbn [proto.DocumentLink.range proto.DocumentLink.target proto.DocumentLink.data
         proto.DocumentLink.create fmap option_fmap option_map];
    repeat split; intros; simplify_eq; cbn [code.ProtocolDocumentLink.data] in *;
    simplify_eq; try done; congruence.
Qed.

(** X14. Resolve data that is falsy ([null], [false], [0], the empty
    string) is sent with a completion item, which tests [data !== undefined],
    and dropped from a code lens and from a document link, which test the
    data itself. *)
Theorem falsy_data_kept_or_dropped (data : Any) (h : heap)
    (item : code.CompletionItem.t) (lens : code.CodeLens.t) (link : code.DocumentLink.t)
    (completionExtras : code.ProtocolCompletionItem.t) :
  truthy_any (Some data) = false →
  code.CompletionItem.protocolItem item = Some completionExtras →
  code.ProtocolCompletionItem.data completionExtras = Some data →
  code.CodeLens.protocolItem lens = Some (code.ProtocolCodeLens.mk (Some data)) →
  code.DocumentLink.protocolItem link = Some (code.ProtocolDocumentLink.mk (Some data)) →
  proto.CompletionItem.data (asCompletionItem item h).1 = Some data
  ∧ proto.CodeLens.data (asCodeLens lens) = None
  ∧ proto.DocumentLink.data (asDocumentLink uriConverter link) = None.
Proof.
  intros Hfalsy Hitem Hdata Hlens Hlink. split; [|split].
  - destruct (asCompletionItem_others item h) as (_ & _ & _ & _ & _ & _ & _ & _ & ->).
    rewrite Hitem. simpl. done.
  - unfold asCodeLens. cbv zeta. rewrite Hlens. cbn [code.ProtocolCodeLens.data].
    rewrite Hfalsy. by destruct (code.CodeLens.command lens).
  - unfold asDocumentLink. cbv zeta. rewrite Hlink. cbn [code.ProtocolDocumentLink.data].
    rewrite Hfalsy. by destruct (code.DocumentLink.target link).
Qed.

(** *** Positions, ranges and edits *)

(** X15. The conversions of positions, ranges and text edits lose nothing:
    two values with the same wire form are the same value. [asWorkerPosition]
    and [asPositions] agree with [asPosition]. *)
Theorem conversions_lose_nothing :
  (∀ a b : Nullable code.Position.t, asPosition a = asPosition b → a = b)
  ∧ (∀ a b : Nullable code.Range.t, asRange a = asRange b → a = b)
  ∧ (∀ a b : code.TextEdit.t, asTextEdit a = asTextEdit b → a = b)
  ∧ (∀ position : code.Position.t,
       asPosition (defined position) = defined (asWorkerPosition position))
  ∧ (∀ positions : list code.Position.t,
       defined <$> asPositions positions = (λ p, asPosition (defined p)) <$> positions).
Proof.
  assert (∀ a b : code.Position.t, asPosition_defined a = asPosition_defined b → a = b)
    as Hposition.
  { intros [] []. unfold asPosition_defined. simpl. congruence. }
  assert (∀ a b : code.Range.t, asRange_defined a = asRange_defined b → a = b) as Hrange.
  { intros [s1 e1] [s2 e2]. unfold asRange_defined.
    cbn [code.Range.start code.Range.end_]. intros Heq.
    assert (asPosition_defined s1 = asPosition_defined s2) as Hs by congruence.
    assert (asPosition_defined e1 = asPosition_defined e2) as He by congruence.
    by rewrite (Hposition _ _ Hs), (Hposition _ _ He). }
  split; [|split; [|split; [|split]]].
  - intros [| |a] [| |b]; unfold asPosition; cbn [unless_absent]; try done.
    intros Heq. f_equal. apply Hposition. congruence.
  - intros [| |a] [| |b]; unfold asRange; cbn [unless_absent]; try done.
    intros Heq. f_equal. apply Hrange. congruence.
  - intros [r1 t1] [r2 t2]. unfold asTextEdit.
    cbn [code.TextEdit.range code.TextEdit.newText]. intros Heq.
    assert (asRange_defined r1 = asRange_defined r2) as Hr by congruence.
    assert (t1 = t2) as -> by congruence.
    by rewrite (Hrange _ _ Hr).
  - done.
  - intros positions. unfold asPositions. by rewrite <- list_fmap_compose.
Qed.

(** *** Completion items, the other properties *)

(** X16. The label of a completion item is always sent as it is. The
    detail, the filter text and the sort text are sent as they are when they
    are not empty, and left out when they are missing or empty. *)
Theorem asCompletionItem_optional_strings (item : code.CompletionItem.t) (h : heap) :
  let result := (asCompletionItem item h).1 in
  let sent (host wire : option string) :=
    (wire = None ↔ host = None ∨ host = Some "")
    ∧ ∀ text, wire = Some text → host = Some text in
  proto.CompletionItem.label result = code.CompletionItem.label item
  ∧ sent (code.CompletionItem.detail item) (proto.CompletionItem.detail result)
  ∧ sent (code.CompletionItem.filterText item) (proto.CompletionItem.filterText result)
  ∧ sent (code.CompletionItem.sortText item) (proto.CompletionItem.sortText result).
Proof.
  cbv zeta.
  destruct (asCompletionItem_others item h) as (-> & -> & _ & -> & -> & _).
  assert (∀ host : option string,
            ((if truthy_string host then host else None) = None
             ↔ host = None ∨ host = Some "")
            ∧ ∀ text, (if truthy_string host then host else None) = Some text →
                      host = Some text) as Hsent.
  { intros [text|]; simpl; [|split; [split; [by left | done] | done]].
    destruct (String.eqb_spec text "") as [->|Hne]; simpl.
    - split; [split; [by right | done] | done].
    - split; [split; [done | intros [?|?]; congruence] | done]. }
  repeat split; try apply Hsent.
Qed.

(** X17. [preselect] is sent whenever it is set, [false] included.
    [deprecated] and the resolve data are those of a [ProtocolCompletionItem]
    and are never sent for another item. An item without a kind is sent
    without a kind. *)
Theorem asCompletionItem_flags (item : code.CompletionItem.t) (h : heap) :
  let result := (asCompletionItem item h).1 in
  proto.CompletionItem.preselect result = code.CompletionItem.preselect item
  ∧ (code.CompletionItem.protocolItem item = None →
     proto.CompletionItem.deprecated result = None
     ∧ proto.CompletionItem.data result = None)
  ∧ (∀ protocolItem,
       code.CompletionItem.protocolItem item = Some protocolItem →
       proto.CompletionItem.deprecated result
         = code.ProtocolCompletionItem.deprecated protocolItem
       ∧ proto.CompletionItem.data result = code.ProtocolCompletionItem.data protocolItem)
  ∧ (code.CompletionItem.kind item = None → proto.CompletionItem.kind result = None).
Proof.
  cbv zeta.
  destruct (asCompletionItem_others item h) as (_ & _ & _ & _ & _ & _ & -> & -> & ->).
  destruct (asCompletionItem_rest item h) as (-> & _).
  split; [done|]. split; [by intros ->|]. split; [by intros protocolItem ->|].
  by intros ->.
Qed.

(** X18. The additional text edits of a completion item are converted one
    by one and in order; an item without them is sent without them, and an
    empty list is sent as an empty list. *)
Theorem asCompletionItem_additionalTextEdits (item : code.CompletionItem.t) (h : heap) :
  let result := (asCompletionItem item h).1 in
  (code.CompletionItem.additionalTextEdits item = None →
   proto.CompletionItem.additionalTextEdits result = None)
  ∧ ∀ edits,
      code.CompletionItem.additionalTextEdits item = Some edits →
      ∃ wire,
        proto.CompletionItem.additionalTextEdits result = Some wire
        ∧ length wire = length edits
        ∧ ∀ (i : nat) edit, edits !! i = Some edit → wire !! i = Some (asTextEdit edit).
Proof.
  cbv zeta.
  destruct (asCompletionItem_others item h) as (_ & _ & _ & _ & _ & -> & _).
  split; [by intros ->|]. intros edits ->. eexists. split; [reflexivity|].
  unfold asTextEdits. split; [by rewrite length_fmap|].
  intros i edit Hi. by rewrite list_lookup_fmap, Hi.
Qed.

(** X19. A converted completion item always has an [insertTextFormat]. It
    is [Snippet] exactly when the item has no text-edit override and its
    insertion payload is a snippet: with an override the format is
    [PlainText] whatever the payload. *)
Theorem insertTextFormat_always_set (item : code.CompletionItem.t) (h : heap) :
  ∃ format,
    proto.CompletionItem.insertTextFormat (asCompletionItem item h).1 = Some format
    ∧ (format = proto.Snippet
       ↔ code.CompletionItem.textEdit item = None
         ∧ ∃ snippet,
             code.CompletionItem.insertText item = Some (code.SnippetInsertText snippet)).
Proof.
  rewrite asCompletionItem_insertTextFormat. eexists. split; [reflexivity|].
  destruct (code.CompletionItem.textEdit item) as [textEdit|],
    (code.CompletionItem.insertText item) as [[text|snippet]|]; split;
    first [done | by intros [? [? ?]] | by eauto].
Qed.

(** X20. Documentation that is missing or the empty string is not sent.
    Otherwise an item the client made itself, or one whose format is
    [$string], sends it as it is; the format [plaintext] wraps it as markup;
    the format [markdown] wraps the text of a [MarkdownString], and has no
    value at all when the documentation is a plain string; any other format
    sends a sentence naming the format in place of the documentation. *)
Theorem asCompletionItem_documentation (item : code.CompletionItem.t) (h : heap) :
  let sent := proto.CompletionItem.documentation (asCompletionItem item h).1 in
  (code.CompletionItem.documentation item = None
   ∨ code.CompletionItem.documentation item = Some (code.StringDocumentation "") →
   sent = None)
  ∧ ∀ documentation,
      code.CompletionItem.documentation item = Some documentation →
      documentation ≠ code.StringDocumentation "" →
      (code.CompletionItem.protocolItem item = None →
       sent = Some (proto.RawDocumentation documentation))
      ∧ ∀ protocolItem,
          code.CompletionItem.protocolItem item = Some protocolItem →
          let format := code.ProtocolCompletionItem.documentationFormat protocolItem in
          (format = Some "$string" → sent = Some (proto.RawDocumentation documentation))
          ∧ (format = Some proto.MarkupKind.PlainText →
             sent = Some (proto.MarkupContent proto.MarkupKind.PlainText (Some documentation)))
          ∧ (format = Some proto.MarkupKind.Markdown →
             ∀ markdown, documentation = code.MarkdownDocumentation markdown →
             sent = Some (proto.MarkupContent proto.MarkupKind.Markdown
                            (Some (code.StringDocumentation
                                     (code.MarkdownString.value markdown)))))
          ∧ (format = Some proto.MarkupKind.Markdown →
             ∀ text, documentation = code.StringDocumentation text →
             sent = Some (proto.MarkupContent proto.MarkupKind.Markdown None))
          ∧ (∀ other,
               format = Some other →
               other ≠ "$string" →
               other ≠ proto.MarkupKind.PlainText →
               other ≠ proto.MarkupKind.Markdown →
               sent = Some (proto.RawDocumentation
                              (code.StringDocumentation
                                 ("Unsupported Markup content received. Kind is: "
                                  +:+ other)))).
Proof.
  cbv zeta.
  destruct (asCompletionItem_others item h) as (_ & _ & -> & _).
  unfold documentation_sent. split.
  - by intros [-> | ->].
  - intros documentation -> Hne.
    assert (truthy_documentation (Some documentation) = true) as ->.
    { destruct documentation as [text|]; [|done]. simpl.
      destruct (String.eqb_spec text ""); [congruence | done]. }
    split; [by intros ->|]. intros protocolItem ->. repeat split.
    + intros ->. by rewrite decide_True.
    + intros ->. rewrite decide_False by done. done.
    + intros -> markdown ->. rewrite decide_False by done. done.
    + intros -> text ->. rewrite decide_False by done. done.
    + intros other -> H1 H2 H3. rewrite decide_False by congruence.
      unfold asDocumentation. by rewrite !decide_False by done.
Qed.

End MoreProperties.

(** ** Properties of the file helpers *)

Section FilesProperties.

Variable parse : string → Files.Url.t.
Variable decodeURIComponent : string → Outcome string.
Variable normalize : string → string.
Variable toUpperCase toLowerCase : string → string.

Lemma split_nonempty sep s : Files.split sep s ≠ [].
Proof. destruct s as [|c rest]; simpl. all: repeat case_match; try done. Qed.

Lemma join_cons sep segment segments :
  segments ≠ [] →
  Files.join sep (segment :: segments) = segment +:+ sep +:+ Files.join sep segments.
Proof. by destruct segments. Qed.

Lemma join_split (s : string) : Files.join "/" (Files.split "/"%char s) = s.
Proof.
  induction s as [|c rest IH]; [done|]. simpl.
  destruct (Ascii.eqb_spec c "/"%char) as [->|Hne].
  - rewrite join_cons by apply split_nonempty. simpl. by rewrite IH.
  - pose proof (split_nonempty "/"%char rest) as Hnonempty.
    destruct (Files.split "/"%char rest) as [|segment segments] eqn:Hsplit; [done|].
    destruct segments as [|next segments].
    + simpl in *. by rewrite IH.
    + rewrite join_cons by done. rewrite join_cons in IH by done.
      simpl. by rewrite <- IH.
Qed.

Lemma indexOf_zero (s search : string) :
  Z.eqb (Files.indexOf s search) 0 = String.prefix search s.
Proof.
  unfold Files.indexOf. destruct s as [|c rest].
  - by destruct search.
  - cbn [String.index].
    destruct (String.prefix search (String c rest)) eqn:Hprefix; [done|].
    destruct (String.index 0 search rest); [|done].
    apply Z.eqb_neq. lia.
Qed.

Lemma append_String (c : ascii) (p rest : string) :
  String c p +:+ rest = String c (p +:+ rest).
Proof. reflexivity. Qed.

Lemma append_empty_r (s : string) : s +:+ "" = s.
Proof. induction s as [|c s IH]; [done|]. by rewrite append_String, IH. Qed.

Lemma append_associative (a b c : string) : (a +:+ b) +:+ c = a +:+ b +:+ c.
Proof. induction a as [|x a IH]; [done|]. by rewrite !append_String, IH. Qed.

Lemma prefix_app (p s : string) : String.prefix p s = true ↔ ∃ rest, s = p +:+ rest.
Proof.
  revert s. induction p as [|c p IH]; intros s.
  - destruct s; simpl; split; eauto.
  - destruct s as [|c' s]; simpl; [split; [done | by intros [? ?]]|].
    destruct (Ascii.ascii_dec c c') as [->|Hne].
    + rewrite IH. split; intros [rest Hrest]; exists rest;
        rewrite append_String in *; congruence.
    + split; [done|]. intros [rest Hrest]. rewrite append_String in Hrest. congruence.
Qed.

Local Abbreviation uriToFilePath := (Files.uriToFilePath parse decodeURIComponent normalize).
Local Abbreviation decodeSegments := (Files.decodeSegments decodeURIComponent).
Local Abbreviation isCaseSensitive := (Files.isCaseSensitive toUpperCase toLowerCase).
Local Abbreviation isParent := (Files.isParent normalize toUpperCase toLowerCase).

Lemma decodeSegments_Return (segments decoded : list string) :
  decodeSegments segments = Return decoded ↔
    Forall2 (λ segment text, decodeURIComponent segment = Return text) segments decoded.
Proof.
  revert decoded. induction segments as [|segment segments IH]; intros decoded; simpl.
  - split; [intros [= <-]; constructor | by inversion 1].
  - destruct (decodeURIComponent segment) as [text|message] eqn:Hsegment.
    + destruct (decodeSegments segments) as [rest|message] eqn:Hrest.
      * split.
        -- intros [= <-]. constructor; [done|]. by apply IH.
        -- inversion 1 as [|? text' ? rest' Htext Hrest']; subst.
           apply IH in Hrest'. congruence.
      * split; [done|]. inversion 1 as [|? text' ? rest' Htext Hrest']; subst.
        apply IH in Hrest'. congruence.
    + split; [done|]. inversion 1; congruence.
Qed.

Lemma decodeSegments_Throw (segments : list string) (message : string) :
  decodeSegments segments = Throw message →
  ∃ segment, segment ∈ segments ∧ decodeURIComponent segment = Throw message.
Proof.
  induction segments as [|segment segments IH]; simpl; [done|].
  destruct (decodeURIComponent segment) as [text|message'] eqn:Hsegment.
  - destruct (decodeSegments segments) as [rest|message'] eqn:Hrest; [done|].
    intros [= ->]. destruct (IH eq_refl) as (failing & Hin & Hfail).
    exists failing. split; [by right | done].
  - intros [= ->]. exists segment. split; [by left | done].
Qed.

(** X21. [uriToFilePath] gives [undefined] for a uri whose protocol is not
    [file:] or whose path is missing or empty, and decodes nothing of it. *)
Theorem uriToFilePath_not_a_file (process : Files.Process.t) (uri : string) :
  Files.Url.protocol (parse uri) ≠ Some "file:"
  ∨ Files.Url.path (parse uri) = None
  ∨ Files.Url.path (parse uri) = Some "" →
  uriToFilePath process uri = Return None.
Proof.
  intros Hnot. unfold Files.uriToFilePath. cbv zeta.
  destruct Hnot as [Hprotocol | [Hpath | Hpath]].
  - by rewrite bool_decide_false.
  - rewrite Hpath. simpl. by rewrite orb_true_r.
  - rewrite Hpath. simpl. by rewrite orb_true_r.
Qed.

(** X22. For a file uri with a path, [uriToFilePath] throws exactly when
    [decodeURIComponent] throws on one of the segments of the path, and with
    the error of such a segment; when every segment decodes it returns a
    file path, never [undefined]. *)
Theorem uriToFilePath_decoding (process : Files.Process.t) (uri path : string) :
  Files.Url.protocol (parse uri) = Some "file:" →
  Files.Url.path (parse uri) = Some path →
  path ≠ "" →
  (∀ message, uriToFilePath process uri = Throw message →
     ∃ segment,
       segment ∈ Files.split "/"%char path
       ∧ decodeURIComponent segment = Throw message)
  ∧ ((∃ segment message,
        segment ∈ Files.split "/"%char path
        ∧ decodeURIComponent segment = Throw message) →
     ∃ message, uriToFilePath process uri = Throw message)
  ∧ ((∀ segment, segment ∈ Files.split "/"%char path →
        ∃ text, decodeURIComponent segment = Return text) →
     ∃ file, uriToFilePath process uri = Return (Some file)).
Proof.
  intros Hprotocol Hpath Hne. unfold Files.uriToFilePath. cbv zeta.
  rewrite Hprotocol, Hpath, bool_decide_true by done.
  assert (truthy_string (Some path) = true) as ->.
  { simpl. destruct (String.eqb_spec path ""); [congruence | done]. }
  cbn [negb orb]. change (default "" (Some path)) with path.
  destruct (decodeSegments (Files.split "/"%char path)) as [decoded|failure] eqn:Hdecode.
  - split; [intros message Heq; discriminate Heq|]. split; [|eauto].
    intros (segment & message & Hin & Hfail). exfalso.
    apply decodeSegments_Return in Hdecode.
    apply list_elem_of_lookup in Hin as [i Hi].
    destruct (Forall2_lookup_l _ _ _ _ _ Hdecode Hi) as (text & _ & Htext). congruence.
  - split; [|split].
    + intros message [= <-]. by apply decodeSegments_Throw.
    + eauto.
    + intros Hall. exfalso.
      destruct (decodeSegments_Throw _ _ Hdecode) as (segment & Hin & Hfail).
      destruct (Hall segment Hin) as [text Htext]. congruence.
Qed.

Lemma decodeSegments_plain (segments : list string) :
  (∀ segment, segment ∈ segments → decodeURIComponent segment = Return segment) →
  decodeSegments segments = Return segments.
Proof.
  intros Hplain. apply decodeSegments_Return.
  induction segments as [|segment segments IH]; constructor.
  - apply Hplain. by left.
  - apply IH. intros other Hin. apply Hplain. by right.
Qed.

Lemma split_drive (drive : ascii) (rest : string) :
  drive ≠ "/"%char →
  ∃ second segments,
    Files.split "/"%char (String drive (String ":" rest)) = second :: segments
    ∧ Files.startsWithDrive ("" :: second :: segments) = true.
Proof.
  intros Hdrive. simpl. destruct (Ascii.eqb_spec drive "/"%char); [done|].
  pose proof (split_nonempty "/"%char rest) as Hnonempty.
  destruct (Files.split "/"%char rest) as [|segment segments]; [done|].
  eexists _, _. split; reflexivity.
Qed.

(** X23. For a path of ASCII characters: when decoding changes no segment,
    [uriToFilePath] returns the normalized path: splitting at [/] and joining
    again gives the path back.  On Windows a path that starts with a slash
    and a drive letter loses that slash before it is normalized, and any
    other path is kept whole. *)
Theorem uriToFilePath_plain (process : Files.Process.t) (uri path : string) :
  Files.Url.protocol (parse uri) = Some "file:" →
  Files.Url.path (parse uri) = Some path →
  path ≠ "" →
  Files.isAscii path = true →
  (∀ segment, segment ∈ Files.split "/"%char path →
     decodeURIComponent segment = Return segment) →
  (Files.Process.platform process ≠ "win32" →
   uriToFilePath process uri = Return (Some (normalize path)))
  ∧ (Files.Process.platform process = "win32" →
     ∀ (drive : ascii) (rest : string),
       drive ≠ "/"%char →
       path = String "/" (String drive (String ":" rest)) →
       uriToFilePath process uri
         = Return (Some (normalize (String drive (String ":" rest)))))
  ∧ (Files.Process.platform process = "win32" →
     Files.startsWithDrive (Files.split "/"%char path) = false →
     uriToFilePath process uri = Return (Some (normalize path))).
Proof.
  intros Hprotocol Hpath Hne _ Hplain. unfold Files.uriToFilePath. cbv zeta.
  rewrite Hprotocol, Hpath, bool_decide_true by done.
  assert (truthy_string (Some path) = true) as ->.
  { simpl. destruct (String.eqb_spec path ""); [congruence | done]. }
  cbn [negb orb]. change (default "" (Some path)) with path. rewrite (decodeSegments_plain _ Hplain).
  split; [|split].
  - intros Hplatform. rewrite bool_decide_false by done. cbn [andb].
    by rewrite join_split.
  - intros Hplatform drive rest Hdrive ->. rewrite bool_decide_true by done.
    destruct (split_drive drive rest Hdrive) as (second & segments & Hsplit & Hstarts).
    change (Files.split "/"%char (String "/" (String drive (String ":" rest))))
      with ("" :: Files.split "/"%char (String drive (String ":" rest))).
    rewrite Hsplit, Hstarts. cbn [length Nat.ltb Nat.leb andb tail].
    by rewrite <- Hsplit, join_split.
  - intros Hplatform Hnot. rewrite Hnot, andb_false_r. by rewrite join_split.
Qed.

Lemma isCaseSensitive_cached (process later : Files.Process.t) (state : option bool) :
  let first := isCaseSensitive process state in
  first.2 = Some first.1 ∧ isCaseSensitive later first.2 = first.
Proof. unfold Files.isCaseSensitive. by destruct state. Qed.

(** X24. [isCaseSensitive] remembers its first answer: the state it leaves
    holds the answer, and every later call gives the same answer and leaves
    the same state, whatever the platform and the file system are by then.
    With nothing remembered, the answer on Windows is [false]. *)
Theorem isCaseSensitive_memoised (process later : Files.Process.t) (state : option bool) :
  let first := isCaseSensitive process state in
  first.2 = Some first.1
  ∧ isCaseSensitive later first.2 = first
  ∧ (∀ known, state = Some known → first.1 = known)
  ∧ (state = None → Files.Process.platform process = "win32" → first.1 = false).
Proof.
  unfold Files.isCaseSensitive. destruct state as [known|]; simpl.
  - repeat split; [by intros ? [= ->] | done].
  - repeat split; [done|]. intros _ Hplatform. by rewrite bool_decide_true.
Qed.

Lemma isParent_unfold process state parent child :
  let mode := (isCaseSensitive process state).1 in
  let fold s := if mode then normalize s else toLowerCase (normalize s) in
  isParent process state parent child
  = (String.prefix (fold parent) (fold child), (isCaseSensitive process state).2).
Proof.
  unfold Files.isParent. cbv zeta.
  destruct (isCaseSensitive process state) as [[] state']; simpl;
    by rewrite indexOf_zero.
Qed.

(** X25. [isParent] holds exactly when the normalized parent, as a string,
    is a prefix of the normalized child (both in lower case when the file
    system is not case sensitive). It leaves the state [isCaseSensitive]
    leaves, and every path is a parent of itself. *)
Theorem isParent_prefix (process : Files.Process.t) (state : option bool)
    (parent child : string) :
  let mode := (isCaseSensitive process state).1 in
  let fold s := if mode then normalize s else toLowerCase (normalize s) in
  ((isParent process state parent child).1 = true
   ↔ ∃ rest, fold child = fold parent +:+ rest)
  ∧ (isParent process state parent child).2 = (isCaseSensitive process state).2
  ∧ (isParent process state parent parent).1 = true.
Proof.
  cbv zeta. rewrite !isParent_unfold. cbv zeta. simpl. split; [apply prefix_app|].
  split; [done|]. apply prefix_app. exists "". symmetry. apply append_empty_r.
Qed.

(** X26. [isParent] is transitive along a run of calls: if [a] is a parent
    of [b] and then [b] of [c], then [a] is a parent of [c], even when the
    platform changes between the calls, because the case mode is remembered
    from the first of them. *)
Theorem isParent_transitive (first second third : Files.Process.t) (state : option bool)
    (a b c : string) :
  let ab := isParent first state a b in
  let bc := isParent second ab.2 b c in
  let ac := isParent third bc.2 a c in
  ab.1 = true → bc.1 = true → ac.1 = true.
Proof.
  cbv zeta. rewrite !isParent_unfold. cbv zeta. simpl.
  destruct (isCaseSensitive_cached first second state) as (Hstate & Hsecond).
  rewrite Hsecond.
  destruct (isCaseSensitive_cached first third state) as (_ & Hthird).
  rewrite Hthird.
  rewrite !prefix_app. intros [r1 ->] [r2 ->]. exists (r1 +:+ r2).
  by rewrite append_associative.
Qed.

End FilesProperties.

(** ** Properties of the type guards *)

Section GuardsProperties.

Variable Is_string : Guards.Value → bool.

Local Abbreviation DocumentFilter_is := (Guards.DocumentFilter_is Is_string).
Local Abbreviation DocumentSelector_is_loop := (Guards.DocumentSelector_is_loop Is_string).
Local Abbreviation DocumentSelector_is := (Guards.DocumentSelector_is Is_string).
Local Abbreviation TextDocumentRegistrationOptions_is :=
  (Guards.TextDocumentRegistrationOptions_is Is_string).
Local Abbreviation StaticRegistrationOptions_hasId :=
  (Guards.StaticRegistrationOptions_hasId Is_string).
Local Abbreviation accepted := (Guards.accepted Is_string).

Lemma DocumentSelector_is_loop_app (before after : list Guards.Value) :
  DocumentSelector_is_loop (before ++ after) =
    match DocumentSelector_is_loop before with
    | Return true => DocumentSelector_is_loop after
    | other => other
    end.
Proof.
  induction before as [|elem before IH]; [done|]. simpl.
  destruct (Is_string elem); [done|].
  destruct (DocumentFilter_is elem) as [[]|]; done.
Qed.

Lemma DocumentSelector_is_loop_accepted (elements : list Guards.Value) :
  Forall accepted elements → DocumentSelector_is_loop elements = Return true.
Proof.
  induction 1 as [|elem elements Helem _ IH]; [done|]. simpl.
  destruct (Is_string elem) eqn:Hstring; [done|].
  destruct Helem as [Helem | ->]; [congruence | done].
Qed.

(** X27. [DocumentSelector.is] is [false] for every value that is not an
    array and [true] for the empty array and for an array of strings and
    document filters; it is [false] as soon as an element, after accepted
    ones, is neither a string nor a filter, whatever comes after it. *)
Theorem DocumentSelector_is_results :
  (∀ value, (∀ elements, value ≠ Guards.VArray elements) →
     DocumentSelector_is value = Return false)
  ∧ DocumentSelector_is (Guards.VArray []) = Return true
  ∧ (∀ elements, Forall accepted elements →
       DocumentSelector_is (Guards.VArray elements) = Return true)
  ∧ (∀ before elem after,
       Forall accepted before →
       Is_string elem = false →
       DocumentFilter_is elem = Return false →
       DocumentSelector_is (Guards.VArray (before ++ elem :: after)) = Return false).
Proof.
  split; [|split; [done|split]].
  - intros value Hvalue. destruct value; try done. by destruct (Hvalue elements).
  - intros elements. apply DocumentSelector_is_loop_accepted.
  - intros before elem after Hbefore Hstring Hfilter. simpl.
    rewrite DocumentSelector_is_loop_app, DocumentSelector_is_loop_accepted by done.
    simpl. by rewrite Hstring, Hfilter.
Qed.

(** X28. [DocumentSelector.is] does not return for an array in which
    [null] or [undefined] comes after accepted elements: [DocumentFilter.is]
    reads a property of it and throws. [TextDocumentRegistrationOptions.is]
    throws with it for options that have such a selector. *)
Theorem DocumentSelector_is_throws (before after : list Guards.Value) (elem : Guards.Value) :
  Forall accepted before →
  elem = Guards.VNull ∨ elem = Guards.VUndefined →
  Is_string elem = false →
  DocumentSelector_is (Guards.VArray (before ++ elem :: after)) = Throw Guards.type_error
  ∧ TextDocumentRegistrationOptions_is
      (Guards.VObject [("documentSelector", Guards.VArray (before ++ elem :: after))])
    = Throw Guards.type_error.
Proof.
  intros Hbefore Helem Hstring.
  assert (DocumentSelector_is (Guards.VArray (before ++ elem :: after))
          = Throw Guards.type_error) as Hthrows.
  { simpl. rewrite DocumentSelector_is_loop_app, DocumentSelector_is_loop_accepted by done.
    simpl. rewrite Hstring. by destruct Helem as [-> | ->]. }
  split; [done|]. unfold Guards.TextDocumentRegistrationOptions_is. cbv zeta.
  simpl in Hthrows |- *. by rewrite Hthrows.
Qed.

(** X29. [TextDocumentRegistrationOptions.is] gives a falsy value back as
    it is (not [false]); for an object it is [true] when [documentSelector]
    is [null] or an array of strings and filters, and [false] when the object
    has no [documentSelector]. *)
Theorem TextDocumentRegistrationOptions_is_results :
  (∀ value, Guards.truthy value = false →
     TextDocumentRegistrationOptions_is value = Return value)
  ∧ (∀ properties,
       Guards.property properties "documentSelector" = Guards.VNull →
       TextDocumentRegistrationOptions_is (Guards.VObject properties)
         = Return (Guards.VBoolean true))
  ∧ (∀ properties,
       Guards.property properties "documentSelector" = Guards.VUndefined →
       TextDocumentRegistrationOptions_is (Guards.VObject properties)
         = Return (Guards.VBoolean false))
  ∧ (∀ properties elements,
       Guards.property properties "documentSelector" = Guards.VArray elements →
       Forall accepted elements →
       TextDocumentRegistrationOptions_is (Guards.VObject properties)
         = Return (Guards.VBoolean true)).
Proof.
  unfold Guards.TextDocumentRegistrationOptions_is. cbv zeta. repeat split.
  - by intros value ->.
  - intros properties Hselector. simpl. by rewrite Hselector.
  - intros properties Hselector. simpl. by rewrite Hselector.
  - intros properties elements Hselector Haccepted. simpl. rewrite Hselector.
    change (Guards.DocumentSelector_is Is_string (Guards.VArray elements))
      with (DocumentSelector_is_loop elements).
    by rewrite DocumentSelector_is_loop_accepted.
Qed.

(** X30. When [Is.string] holds of the strings and of nothing else,
    [StaticRegistrationOptions.hasId] of an object is [true] exactly when its
    [id] is a string that is not empty. *)
Theorem StaticRegistrationOptions_hasId_results (properties : list (string * Guards.Value)) :
  (∀ value, Is_string value = true ↔ ∃ text, value = Guards.VString text) →
  let result := StaticRegistrationOptions_hasId (Guards.VObject properties) in
  (∀ text, Guards.property properties "id" = Guards.VString text →
     result = Return (Guards.VBoolean (negb (String.eqb text ""))))
  ∧ ((∀ text, Guards.property properties "id" ≠ Guards.VString text) →
     result = Return (Guards.VBoolean false)).
Proof.
  intros HIs. unfold Guards.StaticRegistrationOptions_hasId. cbv zeta. simpl. split.
  - intros text ->. rewrite (proj2 (HIs _)) by eauto. simpl. do 2 f_equal.
    destruct text; done.
  - intros Hid. destruct (Is_string (Guards.property properties "id")) eqn:Hstring; [|done].
    apply HIs in Hstring as [text Htext]. by destruct (Hid text).
Qed.

End GuardsProperties.

(** ** The further properties on sample values *)

(** Splits the conjunctions among the hypotheses into their parts. *)
Ltac unpack :=
  cbv zeta in *; repeat match goal with H : _ ∧ _ |- _ => destruct H end.

(** With and without [includeContent]. *)
Lemma asSaveTextDocumentParams_content_witness :
  proto.DidSaveTextDocumentParams.text
    (asSaveTextDocumentParams None MoreExamples.textDocument (Some true)) = Some "abc"
  ∧ (None : option bool) ≠ Some true
  ∧ proto.DidSaveTextDocumentParams.text
      (asSaveTextDocumentParams None MoreExamples.textDocument None) = None.
Proof.
  assert ((None : option bool) ≠ Some true) as Hleft_out by discriminate.
  destruct (asSaveTextDocumentParams_content None MoreExamples.textDocument (Some true))
    as (_ & Hwith & _).
  destruct (asSaveTextDocumentParams_content None MoreExamples.textDocument None)
    as (_ & _ & Hwithout).
  split; [exact (Hwith eq_refl)|]. split; [exact Hleft_out|]. exact (Hwithout Hleft_out).
Defined.

(** The reasons 3 and 9. *)
Lemma asWillSaveTextDocumentParams_reason_witness :
  proto.WillSaveTextDocumentParams.reason
    (asWillSaveTextDocumentParams None
       (code.TextDocumentWillSaveEvent.mk MoreExamples.textDocument 3)) = 3
  ∧ proto.WillSaveTextDocumentParams.reason
      (asWillSaveTextDocumentParams None
         (code.TextDocumentWillSaveEvent.mk MoreExamples.textDocument 9)) = 1.
Proof.
  split.
  - exact (proj1 (proj2 (proj2 (asWillSaveTextDocumentParams_reason None
             (code.TextDocumentWillSaveEvent.mk MoreExamples.textDocument 3)))) eq_refl).
  - refine (proj2 (proj2 (proj2 (asWillSaveTextDocumentParams_reason None
              (code.TextDocumentWillSaveEvent.mk MoreExamples.textDocument 9)))) _ _);
      discriminate.
Defined.

(** The trigger kinds 1 and 0. *)
Lemma asCompletionParams_context_witness :
  proto.CompletionContext.triggerKind
    (proto.CompletionParams.context
       (asCompletionParams None MoreExamples.textDocument MoreExamples.position
          (code.CompletionContext.mk 1 (Some ".")))) = 2
  ∧ proto.CompletionContext.triggerKind
      (proto.CompletionParams.context
         (asCompletionParams None MoreExamples.textDocument MoreExamples.position
            (code.CompletionContext.mk 0 None))) = 1.
Proof.
  split.
  - exact (proj1 (proj2 (asCompletionParams_context None MoreExamples.textDocument
             MoreExamples.position (code.CompletionContext.mk 1 (Some ".")))) eq_refl).
  - refine (proj1 (proj2 (proj2 (proj2 (asCompletionParams_context None
              MoreExamples.textDocument MoreExamples.position
              (code.CompletionContext.mk 0 None))))) _ _); discriminate.
Defined.

(** Without a converter, and with one that puts a prefix before the uri. *)
Lemma same_document_same_identifier_witness :
  (None : option URIConverter) = None
  ∧ _uriConverter None (code.TextDocument.uri MoreExamples.textDocument) = "file:///a.txt"
  ∧ _uriConverter (Some (λ uri, "mem:" +:+ code.Uri.toString uri))
      (code.TextDocument.uri MoreExamples.textDocument) = "mem:file:///a.txt".
Proof.
  pose proof (same_document_same_identifier None MoreExamples.textDocument
                MoreExamples.position) as Hdefault.
  pose proof (same_document_same_identifier
                (Some (λ uri, "mem:" +:+ code.Uri.toString uri)) MoreExamples.textDocument
                MoreExamples.position) as Hcustom.
  unpack. split; [reflexivity|]. split.
  - match goal with H : None = None → _ |- _ => exact (H eq_refl) end.
  - match goal with H : ∀ converter, Some _ = Some converter → _ |- _ =>
      exact (H _ eq_refl) end.
Defined.

(** An object with both shapes. *)
Lemma asChangeTextDocumentParams_document_first_witness :
  isTextDocument MoreExamples.bothShapes = true
  ∧ isTextDocumentChangeEvent MoreExamples.bothShapes = true
  ∧ ∃ uri version,
      ChangeArgument.uri MoreExamples.bothShapes = Some uri
      ∧ ChangeArgument.version MoreExamples.bothShapes = Some version
      ∧ version ≠ 0
      ∧ asChangeTextDocumentParams None MoreExamples.bothShapes
        = Return (proto.DidChangeTextDocumentParams.mk
                    (proto.VersionedTextDocumentIdentifier.mk (_uriConverter None uri) version)
                    [proto.TextDocumentContentChangeEvent.mk None None "abc"]).
Proof.
  split; [reflexivity|]. split; [reflexivity|].
  exact (asChangeTextDocumentParams_document_first None MoreExamples.bothShapes eq_refl).
Defined.

(** The severities 1 (a warning) and 7 (none the client knows). *)
Lemma asDiagnostic_severity_witness :
  code.Diagnostic.severity (MoreExamples.diagnostic (Some 1) None None) = Some 1
  ∧ proto.Diagnostic.severity
      (asDiagnostic None (MoreExamples.diagnostic (Some 1) None None)) = Some 2
  ∧ code.Diagnostic.severity (MoreExamples.diagnostic (Some 7) None None) = Some 7
  ∧ proto.Diagnostic.severity
      (asDiagnostic None (MoreExamples.diagnostic (Some 7) None None)) = None.
Proof.
  pose proof (asDiagnostic_severity None (MoreExamples.diagnostic (Some 1) None None) 1
                eq_refl) as Hwarning.
  pose proof (asDiagnostic_severity None (MoreExamples.diagnostic (Some 7) None None) 7
                eq_refl) as Hunknown.
  unpack. split; [reflexivity|].
  split; [match goal with H : 1 = code.DiagnosticSeverity.Warning → _ |- _ =>
            exact (H eq_refl) end|].
  split; [reflexivity|].
  match goal with H : _ → _ → _ → _ → _ = None |- _ => apply H; discriminate end.
Defined.

(** A diagnostic with code [0] and the empty source. *)
Lemma asDiagnostic_optional_fields_witness :
  code.Diagnostic.source (MoreExamples.diagnostic None (Some "") None) = Some ""
  ∧ proto.Diagnostic.source
      (asDiagnostic None (MoreExamples.diagnostic None (Some "") None)) = None
  ∧ proto.Diagnostic.code
      (asDiagnostic None (MoreExamples.diagnostic None (Some "") None)) = Some (inl 0)
  ∧ proto.Diagnostic.severity
      (asDiagnostic None (MoreExamples.diagnostic None (Some "") None)) = None.
Proof.
  pose proof (asDiagnostic_optional_fields None
                (MoreExamples.diagnostic None (Some "") None)) as Hfields.
  unpack. split; [reflexivity|].
  split; [match goal with H : _ ↔ _ |- _ => apply H; by right end|].
  split; [assumption|].
  match goal with H : _ = None → proto.Diagnostic.severity _ = None |- _ =>
    exact (H eq_refl) end.
Defined.

(** One piece of related information. *)
Lemma asDiagnostic_relatedInformation_witness :
  code.Diagnostic.relatedInformation
    (MoreExamples.diagnostic None None (Some [MoreExamples.related]))
  = Some [MoreExamples.related]
  ∧ ∃ wire,
      proto.Diagnostic.relatedInformation
        (asDiagnostic None (MoreExamples.diagnostic None None (Some [MoreExamples.related])))
      = Some wire
      ∧ length wire = 1%nat
      ∧ wire !! 0%nat
        = Some (proto.DiagnosticRelatedInformation.mk
                  (proto.Location.mk "file:///b.txt" (asRange_defined Examples.range))
                  "declared here").
Proof.
  split; [reflexivity|].
  destruct (asDiagnostic_relatedInformation None
              (MoreExamples.diagnostic None None (Some [MoreExamples.related]))
              [MoreExamples.related] eq_refl) as (wire & Hwire & Hlength & Hnth).
  exists wire. split; [exact Hwire|]. split; [exact Hlength|].
  exact (Hnth 0%nat MoreExamples.related eq_refl).
Defined.

(** The tags [2; 9]. *)
Lemma asDiagnosticTags_result_witness :
  asDiagnosticTags (defined [2; 9]) = Some [2]
  ∧ [2] ≠ ([] : list Z)
  ∧ (length [2] ≤ length [2; 9])%nat.
Proof.
  assert (asDiagnosticTags (defined [2; 9]) = Some [2]) as Htags by reflexivity.
  destruct (proj2 (proj2 asDiagnosticTags_result) [2; 9] [2] Htags) as (Hne & Hlength & _).
  split; [exact Htags|]. split; [exact Hne | exact Hlength].
Defined.

(** A code lens whose resolve data is the number 0, and one whose data is a
    string. *)
Lemma asCodeLens_command_data_witness :
  code.CodeLens.command (MoreExamples.lens (Some (AnyString "id")))
  = Some Examples.command
  ∧ (∃ command',
       proto.CodeLens.command (asCodeLens (MoreExamples.lens (Some (AnyString "id"))))
       = Some command'
       ∧ proto.Command.arguments command' = Some 2%positive)
  ∧ truthy_any (Some (AnyString "id")) = true
  ∧ proto.CodeLens.data (asCodeLens (MoreExamples.lens (Some (AnyString "id"))))
    = Some (AnyString "id")
  ∧ proto.CodeLens.data
      (asCodeLens (code.CodeLens.mk Examples.range None None)) = None.
Proof.
  pose proof (asCodeLens_command_data (MoreExamples.lens (Some (AnyString "id")))) as Hlens.
  pose proof (asCodeLens_command_data (code.CodeLens.mk Examples.range None None)) as Hplain.
  unpack. split; [reflexivity|].
  split; [match goal with H : ∀ command, _ = Some command → ∃ _, _ |- _ =>
            exact (H Examples.command eq_refl) end|].
  split; [reflexivity|].
  split; [match goal with
          | H : ∀ protocolItem data, _ → _ → _ → proto.CodeLens.data _ = Some data |- _ =>
              exact (H (code.ProtocolCodeLens.mk (Some (AnyString "id"))) (AnyString "id")
                       eq_refl eq_refl eq_refl)
          end|].
  match goal with
  | H : code.CodeLens.protocolItem (code.CodeLens.mk _ None None) = None → _ |- _ =>
      exact (H eq_refl)
  end.
Defined.

(** A document link with a target and resolve data. *)
Lemma asDocumentLink_target_data_witness :
  proto.DocumentLink.target (asDocumentLink None (MoreExamples.link (Some (AnyBoolean true))))
  = Some "file:///b.txt"
  ∧ truthy_any (Some (AnyBoolean true)) = true
  ∧ proto.DocumentLink.data (asDocumentLink None (MoreExamples.link (Some (AnyBoolean true))))
    = Some (AnyBoolean true).
Proof.
  pose proof (asDocumentLink_target_data None (MoreExamples.link (Some (AnyBoolean true))))
    as Hlink.
  unpack. split; [assumption|]. split; [reflexivity|].
  match goal with
  | H : ∀ protocolItem data, _ → _ → _ → proto.DocumentLink.data _ = Some data |- _ =>
      exact (H (code.ProtocolDocumentLink.mk (Some (AnyBoolean true))) (AnyBoolean true)
               eq_refl eq_refl eq_refl)
  end.
Defined.

(** Resolve data that is the number 0. *)
Lemma falsy_data_kept_or_dropped_witness :
  truthy_any (Some (AnyNumber 0)) = false
  ∧ proto.CompletionItem.data (asCompletionItem (MoreExamples.resolved None None) ∅).1
    = Some (AnyNumber 0)
  ∧ proto.CodeLens.data (asCodeLens (MoreExamples.lens (Some (AnyNumber 0)))) = None
  ∧ proto.DocumentLink.data (asDocumentLink None (MoreExamples.link (Some (AnyNumber 0))))
    = None.
Proof.
  split; [reflexivity|].
  exact (falsy_data_kept_or_dropped None (AnyNumber 0) ∅ (MoreExamples.resolved None None)
           (MoreExamples.lens (Some (AnyNumber 0))) (MoreExamples.link (Some (AnyNumber 0)))
           (code.ProtocolCompletionItem.mk (Some (AnyNumber 0)) None None None None)
           eq_refl eq_refl eq_refl eq_refl eq_refl).
Defined.

(** Two ranges with the same wire form. *)
Lemma conversions_lose_nothing_witness :
  asRange (defined Examples.range)
  = asRange (defined (code.Range.mk (code.Position.mk 1 2) (code.Position.mk 1 5)))
  ∧ defined Examples.range
    = defined (code.Range.mk (code.Position.mk 1 2) (code.Position.mk 1 5)).
Proof.
  split; [reflexivity|].
  exact (proj1 (proj2 conversions_lose_nothing) _ _ eq_refl).
Defined.

(** An item whose detail is the empty string and whose sort text is not. *)
Lemma asCompletionItem_optional_strings_witness :
  code.CompletionItem.detail (MoreExamples.resolved None None) = Some ""
  ∧ proto.CompletionItem.detail (asCompletionItem (MoreExamples.resolved None None) ∅).1
    = None
  ∧ proto.CompletionItem.sortText (asCompletionItem (MoreExamples.resolved None None) ∅).1
    = Some "0001"
  ∧ code.CompletionItem.sortText (MoreExamples.resolved None None) = Some "0001".
Proof.
  pose proof (asCompletionItem_optional_strings (MoreExamples.resolved None None) ∅)
    as Hstrings.
  unpack. split; [reflexivity|].
  split; [match goal with
          | H : proto.CompletionItem.detail _ = None ↔ _ |- _ => apply H; by right
          end|].
  assert (proto.CompletionItem.sortText (asCompletionItem (MoreExamples.resolved None None) ∅).1
          = Some "0001") as Hsort by reflexivity.
  split; [exact Hsort|].
  match goal with
  | H : ∀ text, proto.CompletionItem.sortText _ = Some text → _ |- _ => exact (H _ Hsort)
  end.
Defined.

(** An item with [preselect: false] and resolve data. *)
Lemma asCompletionItem_flags_witness :
  proto.CompletionItem.preselect (asCompletionItem (MoreExamples.resolved None None) ∅).1
  = Some false
  ∧ proto.CompletionItem.data (asCompletionItem (MoreExamples.resolved None None) ∅).1
    = Some (AnyNumber 0)
  ∧ code.CompletionItem.kind (MoreExamples.resolved None None) = None
  ∧ proto.CompletionItem.kind (asCompletionItem (MoreExamples.resolved None None) ∅).1 = None
  ∧ proto.CompletionItem.data (asCompletionItem Examples.plain ∅).1 = None.
Proof.
  pose proof (asCompletionItem_flags (MoreExamples.resolved None None) ∅) as Hresolved.
  pose proof (asCompletionItem_flags Examples.plain ∅) as Hplain.
  unpack. split; [assumption|].
  split; [match goal with
          | H : ∀ protocolItem,
                code.CompletionItem.protocolItem (MoreExamples.resolved None None)
                = Some protocolItem → _ |- _ =>
              exact (proj2 (H _ eq_refl))
          end|].
  split; [reflexivity|].
  split; [match goal with
          | H : code.CompletionItem.kind (MoreExamples.resolved None None) = None → _ |- _ =>
              exact (H eq_refl)
          end|].
  match goal with
  | H : code.CompletionItem.protocolItem Examples.plain = None → _ |- _ =>
      exact (proj2 (H eq_refl))
  end.
Defined.

(** An item with one additional edit, and one with an empty list of them. *)
Lemma asCompletionItem_additionalTextEdits_witness :
  (∃ wire,
     proto.CompletionItem.additionalTextEdits
       (asCompletionItem (MoreExamples.resolved None None) ∅).1 = Some wire
     ∧ length wire = 1%nat
     ∧ wire !! 0%nat = Some (proto.TextEdit.mk (asRange_defined Examples.range) "import foo"))
  ∧ code.CompletionItem.additionalTextEdits Examples.plain = None
  ∧ proto.CompletionItem.additionalTextEdits (asCompletionItem Examples.plain ∅).1 = None.
Proof.
  destruct (asCompletionItem_additionalTextEdits (MoreExamples.resolved None None) ∅)
    as [_ Hedits].
  destruct (asCompletionItem_additionalTextEdits Examples.plain ∅) as [Hnone _].
  split.
  - destruct (Hedits _ eq_refl) as (wire & Hwire & Hlength & Hnth).
    exists wire. split; [exact Hwire|]. split; [exact Hlength|].
    exact (Hnth 0%nat _ eq_refl).
  - split; [reflexivity | exact (Hnone eq_refl)].
Defined.

(** Documentation of an item the client made itself, of an item with the
    markdown format, and of an item with a format the client does not know. *)
Lemma asCompletionItem_documentation_witness :
  proto.CompletionItem.documentation
    (asCompletionItem
       (MoreExamples.resolved (Some "markdown")
          (Some (code.MarkdownDocumentation (code.MarkdownString.mk "*foo*")))) ∅).1
  = Some (proto.MarkupContent "markdown" (Some (code.StringDocumentation "*foo*")))
  ∧ proto.CompletionItem.documentation
      (asCompletionItem
         (MoreExamples.resolved (Some "html") (Some (code.StringDocumentation "foo"))) ∅).1
    = Some (proto.RawDocumentation
              (code.StringDocumentation "Unsupported Markup content received. Kind is: html"))
  ∧ proto.CompletionItem.documentation
      (asCompletionItem
         (MoreExamples.resolved None (Some (code.StringDocumentation ""))) ∅).1 = None.
Proof.
  split; [|split].
  - destruct (asCompletionItem_documentation
                (MoreExamples.resolved (Some "markdown")
                   (Some (code.MarkdownDocumentation (code.MarkdownString.mk "*foo*")))) ∅)
      as [_ Hsent].
    destruct (Hsent _ eq_refl) as [_ Hprotocol]; [discriminate|].
    destruct (Hprotocol _ eq_refl) as (_ & _ & Hmarkdown & _).
    exact (Hmarkdown eq_refl _ eq_refl).
  - destruct (asCompletionItem_documentation
                (MoreExamples.resolved (Some "html") (Some (code.StringDocumentation "foo")))
                ∅) as [_ Hsent].
    destruct (Hsent _ eq_refl) as [_ Hprotocol]; [discriminate|].
    destruct (Hprotocol _ eq_refl) as (_ & _ & _ & _ & Hother).
    refine (Hother "html" eq_refl _ _ _); discriminate.
  - destruct (asCompletionItem_documentation
                (MoreExamples.resolved None (Some (code.StringDocumentation ""))) ∅)
      as [Hnone _].
    exact (Hnone (or_intror eq_refl)).
Defined.

(** A uri that is not a file. *)
Lemma uriToFilePath_not_a_file_witness :
  Files.Url.protocol (MoreExamples.parse "http://example.org/%") ≠ Some "file:"
  ∧ Files.uriToFilePath MoreExamples.parse MoreExamples.decodeURIComponent
      MoreExamples.unchanged MoreExamples.linux "http://example.org/%" = Return None.
Proof.
  assert (Files.Url.protocol (MoreExamples.parse "http://example.org/%") ≠ Some "file:")
    as Hprotocol by discriminate.
  split; [exact Hprotocol|].
  exact (uriToFilePath_not_a_file MoreExamples.parse MoreExamples.decodeURIComponent
           MoreExamples.unchanged MoreExamples.linux "http://example.org/%"
           (or_introl Hprotocol)).
Defined.

(** A file uri with a segment that does not decode. *)
Lemma uriToFilePath_decoding_witness :
  Files.Url.path (MoreExamples.parse "file:///a/%/b") = Some "/a/%/b"
  ∧ "%" ∈ Files.split "/"%char "/a/%/b"
  ∧ MoreExamples.decodeURIComponent "%" = Throw "URIError"
  ∧ ∃ message,
      Files.uriToFilePath MoreExamples.parse MoreExamples.decodeURIComponent
        MoreExamples.unchanged MoreExamples.linux "file:///a/%/b" = Throw message.
Proof.
  assert ("%" ∈ Files.split "/"%char "/a/%/b") as Hin
    by (apply list_elem_of_lookup; exists 2%nat; reflexivity).
  split; [reflexivity|]. split; [exact Hin|]. split; [reflexivity|].
  refine (proj1 (proj2 (uriToFilePath_decoding MoreExamples.parse
            MoreExamples.decodeURIComponent MoreExamples.unchanged MoreExamples.linux
            "file:///a/%/b" "/a/%/b" eq_refl eq_refl _)) _); [discriminate|].
  exists "%", "URIError". split; [exact Hin | reflexivity].
Defined.

Lemma plain_segments (path : string) :
  Forall (λ segment, String.eqb segment "%" = false) (Files.split "/"%char path) →
  ∀ segment, segment ∈ Files.split "/"%char path →
    MoreExamples.decodeURIComponent segment = Return segment.
Proof.
  intros Hall segment Hin. unfold MoreExamples.decodeURIComponent.
  by rewrite (proj1 (Forall_forall _ _) Hall segment Hin).
Defined.

(** A file uri on Linux and one with a drive letter on Windows. *)
Lemma uriToFilePath_plain_witness :
  Files.Url.path (MoreExamples.parse "file:///home/me/a.txt") = Some "/home/me/a.txt"
  ∧ Files.Process.platform MoreExamples.linux ≠ "win32"
  ∧ Files.uriToFilePath MoreExamples.parse MoreExamples.decodeURIComponent
      MoreExamples.unchanged MoreExamples.linux "file:///home/me/a.txt"
    = Return (Some "/home/me/a.txt")
  ∧ Files.Process.platform MoreExamples.windows = "win32"
  ∧ Files.uriToFilePath MoreExamples.parse MoreExamples.decodeURIComponent
      MoreExamples.unchanged MoreExamples.windows "file:///c:/me/a.txt"
    = Return (Some "c:/me/a.txt").
Proof.
  assert (Files.Process.platform MoreExamples.linux ≠ "win32") as Hlinux by discriminate.
  split; [reflexivity|]. split; [exact Hlinux|]. split; [|split; [reflexivity|]].
  - refine (proj1 (uriToFilePath_plain MoreExamples.parse MoreExamples.decodeURIComponent
              MoreExamples.unchanged MoreExamples.linux "file:///home/me/a.txt"
              "/home/me/a.txt" eq_refl eq_refl _ eq_refl _) Hlinux); [discriminate|].
    apply plain_segments. by repeat constructor.
  - refine (proj1 (proj2 (uriToFilePath_plain MoreExamples.parse
              MoreExamples.decodeURIComponent MoreExamples.unchanged MoreExamples.windows
              "file:///c:/me/a.txt" "/c:/me/a.txt" eq_refl eq_refl _ eq_refl _))
              eq_refl "c"%char "/me/a.txt" _ eq_refl); [discriminate| |discriminate].
    apply plain_segments. by repeat constructor.
Defined.

(** A first call on Linux, then a call on Windows. *)
Lemma isCaseSensitive_memoised_witness :
  Files.isCaseSensitive MoreExamples.unchanged MoreExamples.unchanged MoreExamples.linux None
  = (true, Some true)
  ∧ Files.isCaseSensitive MoreExamples.unchanged MoreExamples.unchanged MoreExamples.windows
      (Some true) = (true, Some true)
  ∧ (Files.isCaseSensitive MoreExamples.unchanged MoreExamples.unchanged MoreExamples.windows
       None).1 = false.
Proof.
  pose proof (isCaseSensitive_memoised MoreExamples.unchanged MoreExamples.unchanged
                MoreExamples.linux MoreExamples.windows None) as Hlinux.
  pose proof (isCaseSensitive_memoised MoreExamples.unchanged MoreExamples.unchanged
                MoreExamples.windows MoreExamples.linux None) as Hwindows.
  unpack. split; [reflexivity|]. split; [assumption|].
  match goal with
  | H : None = None → Files.Process.platform MoreExamples.windows = "win32" → _ |- _ =>
      exact (H eq_refl eq_refl)
  end.
Defined.

(** A directory and a file below it. *)
Lemma isParent_prefix_witness :
  "/srv/app/a.txt" = "/srv" +:+ "/app/a.txt"
  ∧ (Files.isParent MoreExamples.unchanged MoreExamples.unchanged MoreExamples.unchanged
       MoreExamples.linux None "/srv" "/srv/app/a.txt").1 = true.
Proof.
  split; [reflexivity|].
  apply (proj1 (isParent_prefix MoreExamples.unchanged MoreExamples.unchanged
                  MoreExamples.unchanged MoreExamples.linux None "/srv" "/srv/app/a.txt")).
  exists "/app/a.txt". reflexivity.
Defined.

(** Three nested paths, asked about on different platforms. *)
Lemma isParent_transitive_witness :
  (Files.isParent MoreExamples.unchanged MoreExamples.unchanged MoreExamples.unchanged
     MoreExamples.linux None "/srv" "/srv/app").1 = true
  ∧ (Files.isParent MoreExamples.unchanged MoreExamples.unchanged MoreExamples.unchanged
       MoreExamples.windows (Some true) "/srv/app" "/srv/app/a.txt").1 = true
  ∧ (Files.isParent MoreExamples.unchanged MoreExamples.unchanged MoreExamples.unchanged
       MoreExamples.linux (Some true) "/srv" "/srv/app/a.txt").1 = true.
Proof.
  split; [reflexivity|]. split; [reflexivity|].
  exact (isParent_transitive MoreExamples.unchanged MoreExamples.unchanged
           MoreExamples.unchanged MoreExamples.linux MoreExamples.windows MoreExamples.linux
           None "/srv" "/srv/app" "/srv/app/a.txt" eq_refl eq_refl).
Defined.

Lemma accepted_language :
  Guards.accepted MoreExamples.Is_string
    (Guards.VObject [("language", Guards.VString "json")]).
Proof. right. reflexivity. Defined.

(** A selector of a string and a filter, and one with a number in it. *)
Lemma DocumentSelector_is_results_witness :
  Guards.DocumentSelector_is MoreExamples.Is_string
    (Guards.VArray [Guards.VString "typescript";
                    Guards.VObject [("language", Guards.VString "json")]])
  = Return true
  ∧ Guards.DocumentSelector_is MoreExamples.Is_string
      (Guards.VArray [Guards.VObject [("language", Guards.VString "json")];
                      Guards.VNumber 4; Guards.VNull])
    = Return false
  ∧ Guards.DocumentSelector_is MoreExamples.Is_string (Guards.VString "typescript")
    = Return false.
Proof.
  destruct (DocumentSelector_is_results MoreExamples.Is_string)
    as (Hother & _ & Hall & Hrejected).
  split; [|split].
  - apply Hall. constructor; [by left|]. constructor; [exact accepted_language|].
    constructor.
  - apply (Hrejected [Guards.VObject [("language", Guards.VString "json")]]
             (Guards.VNumber 4) [Guards.VNull]); [|reflexivity|reflexivity].
    constructor; [exact accepted_language | constructor].
  - apply Hother. discriminate.
Defined.

(** A selector with [null] after a filter. *)
Lemma DocumentSelector_is_throws_witness :
  MoreExamples.Is_string Guards.VNull = false
  ∧ Guards.DocumentSelector_is MoreExamples.Is_string
      (Guards.VArray [Guards.VObject [("language", Guards.VString "json")]; Guards.VNull;
                      Guards.VString "typescript"])
    = Throw Guards.type_error.
Proof.
  split; [reflexivity|].
  refine (proj1 (DocumentSelector_is_throws MoreExamples.Is_string
            [Guards.VObject [("language", Guards.VString "json")]]
            [Guards.VString "typescript"] Guards.VNull _ (or_introl eq_refl) eq_refl)).
  constructor; [exact accepted_language | constructor].
Defined.

(** Registration options with a [null] selector, without a selector, and
    [undefined] instead of options. *)
Lemma TextDocumentRegistrationOptions_is_results_witness :
  Guards.TextDocumentRegistrationOptions_is MoreExamples.Is_string
    (Guards.VObject [("documentSelector", Guards.VNull)]) = Return (Guards.VBoolean true)
  ∧ Guards.TextDocumentRegistrationOptions_is MoreExamples.Is_string (Guards.VObject [])
    = Return (Guards.VBoolean false)
  ∧ Guards.TextDocumentRegistrationOptions_is MoreExamples.Is_string Guards.VUndefined
    = Return Guards.VUndefined.
Proof.
  destruct (TextDocumentRegistrationOptions_is_results MoreExamples.Is_string)
    as (Hfalsy & Hnull & Hmissing & _).
  split; [exact (Hnull [("documentSelector", Guards.VNull)] eq_refl)|].
  split; [exact (Hmissing [] eq_refl)|].
  exact (Hfalsy Guards.VUndefined eq_refl).
Defined.

Lemma Is_string_strings (value : Guards.Value) :
  MoreExamples.Is_string value = true ↔ ∃ text, value = Guards.VString text.
Proof.
  destruct value; simpl; split; try done; try (by intros [? ?]); eauto.
Defined.

(** Options with an id, with an empty id and with a number as id. *)
Lemma StaticRegistrationOptions_hasId_results_witness :
  (∀ value, MoreExamples.Is_string value = true ↔ ∃ text, value = Guards.VString text)
  ∧ Guards.StaticRegistrationOptions_hasId MoreExamples.Is_string
      (Guards.VObject [("id", Guards.VString "a1")]) = Return (Guards.VBoolean true)
  ∧ Guards.StaticRegistrationOptions_hasId MoreExamples.Is_string
      (Guards.VObject [("id", Guards.VString "")]) = Return (Guards.VBoolean false)
  ∧ Guards.StaticRegistrationOptions_hasId MoreExamples.Is_string
      (Guards.VObject [("id", Guards.VNumber 1)]) = Return (Guards.VBoolean false).
Proof.
  split; [exact Is_string_strings|].
  split; [|split].
  - exact (proj1 (StaticRegistrationOptions_hasId_results MoreExamples.Is_string
                    [("id", Guards.VString "a1")] Is_string_strings) "a1" eq_refl).
  - exact (proj1 (StaticRegistrationOptions_hasId_results MoreExamples.Is_string
                    [("id", Guards.VString "")] Is_string_strings) "" eq_refl).
  - refine (proj2 (StaticRegistrationOptions_hasId_results MoreExamples.Is_string
                     [("id", Guards.VNumber 1)] Is_string_strings) _).
    intros text. discriminate.
Defined.
